(** * simDevTools: the autonomous-agent core, embedded in Rocq

    A shallow embedding of the needs model ([js/needs-system.js]), the
    day/night clock ([js/time-system.js]), the functional items, the base
    entity, the entity index ([js/entity-manager.js]) and the agent
    ([js/npc.js]), followed by the properties proved about them.

    Conventions of the embedding.
    - A JavaScript number is an exact rational ([Q]); numeric equality is
      [==] and rounding, NaN and the infinities are outside the model.
      What is proved of numbers is therefore kept to what does not
      depend on rounding: bounds, order, and equations that are the
      code's own expression.
      Tile coordinates and [Date.now()] readings are integers ([Z]).
    - A plain object used as a string-keyed table is an association list
      in [Object.entries] order ([JsObject]); a [Map] whose iteration
      order is observed is an association list too, and the agents'
      relationship [Map] is a [gmap].  A read [o[k]] also finds the
      members every object inherits: [JsObject.read] tells them from
      the object's own keys, and a function whose result on an
      inherited member would not be a number says so where it is
      defined.
    - A method that mutates [this] returns the new receiver; when it also
      returns a value, the pair of both.
    - Objects that are shared by reference (entities held by the index
      and by other entities) live in a heap addressed by references. *)

From Stdlib Require Import QArith Qminmax Qround Lqa ZArith Lia.
From stdpp Require Import gmap strings list pretty.

Open Scope Q_scope.

(** ** Comparisons on numbers, as booleans *)

Definition Qltb (x y : Q) : bool := negb (Qle_bool y x).
Definition Qleb (x y : Q) : bool := Qle_bool x y.

(** [a || b] on numbers: [0] is falsy. *)
Definition num_or (a b : Q) : Q := if Qeq_bool a 0 then b else a.

(** ** Plain objects as ordered tables *)

Module JsObject.

Definition t (V : Type) : Type := list (string * V).

(** The value stored under a key of the object's own. *)
Fixpoint get {V} (o : t V) (k : string) : option V :=
  match o with
  | [] => None
  | (k', v) :: rest => if String.eqb k' k then Some v else get rest k
  end.

(** The names a plain object inherits from [Object.prototype].  Under
    each of them [o[k]] finds a function, or for ['__proto__'] the
    prototype itself, all of them truthy, unless the object has a key of
    that name of its own. *)
Definition inherited : list string :=
  [ "constructor"; "__defineGetter__"; "__defineSetter__"; "hasOwnProperty";
    "__lookupGetter__"; "__lookupSetter__"; "isPrototypeOf";
    "propertyIsEnumerable"; "toString"; "valueOf"; "__proto__";
    "toLocaleString" ]%string.

(** What [o[k]] finds: a value of the object's own, a member of
    [Object.prototype], or [undefined]. *)
Inductive property (V : Type) : Type :=
  | Own (v : V)
  | Inherited (name : string)
  | Undefined.
Arguments Own {V} v.
Arguments Inherited {V} name.
Arguments Undefined {V}.

(** [o[k]] *)
Definition read {V} (o : t V) (k : string) : property V :=
  match get o k with
  | Some v => Own v
  | None => if bool_decide (k ∈ inherited) then Inherited k else Undefined
  end.

(** In-place mutation of the object stored under [k]. *)
Fixpoint alter {V} (f : V -> V) (k : string) (o : t V) : t V :=
  match o with
  | [] => []
  | (k', v) :: rest =>
      if String.eqb k' k then (k', f v) :: rest
      else (k', v) :: alter f k rest
  end.

Definition keys {V} (o : t V) : list string := map fst o.

End JsObject.

(** ** Needs model ([js/needs-system.js]) *)

Module NeedConfig.
(** The display fields [color] and [icon] are left out. *)
Record t := mk { name : string; max : Q; decayRate : Q }.
End NeedConfig.

Module Need.
Record t := mk { value : Q; max : Q; priority : Q }.

Definition set_value (v : Q) (n : t) : t :=
  {| value := v; max := max n; priority := priority n |}.
Definition set_priority (p : Q) (n : t) : t :=
  {| value := value n; max := max n; priority := p |}.
End Need.

Module NeedsSystem.

Record t := mk { needTypes : JsObject.t NeedConfig.t }.

Definition Needs : Type := JsObject.t Need.t.

(** [constructor()] *)
Definition new : t :=
  {| needTypes :=
       [ ("hunger"%string, NeedConfig.mk "Hunger" 100 (1#2));
         ("thirst"%string, NeedConfig.mk "Thirst" 100 (2#5));
         ("sleep"%string, NeedConfig.mk "Sleep" 100 (3#10));
         ("happiness"%string, NeedConfig.mk "Happiness" 100 (1#5));
         ("social"%string, NeedConfig.mk "Social" 100 (1#4)) ] |}.

Definition initializeNeeds (self : t) : Needs :=
  map (fun '(key, config) =>
         (key, {| Need.value := NeedConfig.max config;
                  Need.max := NeedConfig.max config;
                  Need.priority := 0 |}))
      (needTypes self).

(** The body of both decay loops: lower the value by [amount], floor it
    at 0, and recompute the priority. *)
Definition decayNeed (amount : Q) (need : Need.t) : Need.t :=
  let value := Qmax 0 (Need.value need - amount) in
  let percentage := value / Need.max need in
  {| Need.value := value; Need.max := Need.max need;
     Need.priority := 1 - percentage |}.

(** [updateNeeds(needs, deltaTime)].  The guard [if (config)] is taken
    for the kinds the system configures.  A key of the needs set that is
    not configured but is the name of an inherited member would pass it
    too and store [NaN]; such a key is outside the model. *)
Definition updateNeeds (self : t) (needs : Needs) (deltaTime : Q) : Needs :=
  map (fun '(key, need) =>
         match JsObject.get (needTypes self) key with
         | Some config =>
             (key, decayNeed (NeedConfig.decayRate config * deltaTime) need)
         | None => (key, need)
         end)
      needs.

(** The assignment in [satisfyNeed]: only [value] is written. *)
Definition satisfied (amount : Q) (need : Need.t) : Need.t :=
  Need.set_value (Qmin (Need.max need) (Need.value need + amount)) need.

(** [satisfyNeed(needs, needType, amount)]: the needs set after the
    call.  The guard [if (needs[needType])] passes for a need of the set,
    which is then written, and also for an inherited member, on which
    the assignment then lands without touching the set:
    [satisfyNeed_stray] tells which. *)
Definition satisfyNeed (self : t) (needs : Needs) (needType : string)
    (amount : Q) : Needs :=
  match JsObject.get needs needType with
  | Some _ => JsObject.alter (satisfied amount) needType needs
  | None => needs
  end.

(** The object outside the needs set that [satisfyNeed(needs, needType,
    amount)] writes to, if any: when [needs[needType]] is an inherited
    member, the call assigns its [value], and what it assigns is [NaN],
    whatever the amount ([undefined + amount] is [NaN], and so is
    [Math.min(undefined, NaN)]).  For ['__proto__'] the member is
    [Object.prototype] itself, for the other names a function that all
    objects share. *)
Definition satisfyNeed_stray (needs : Needs) (needType : string)
    : option string :=
  match JsObject.read needs needType with
  | JsObject.Inherited member => Some member
  | _ => None
  end.

(** The loop of [getMostUrgentNeed], with its two local variables. *)
Fixpoint urgentLoop (entries : Needs) (maxPriority : Q)
    (urgentNeed : option string) : Q * option string :=
  match entries with
  | [] => (maxPriority, urgentNeed)
  | (key, need) :: rest =>
      if Qltb maxPriority (Need.priority need)
      then urgentLoop rest (Need.priority need) (Some key)
      else urgentLoop rest maxPriority urgentNeed
  end.

Definition getMostUrgentNeed (self : t) (needs : Needs) : option string :=
  let '(maxPriority, urgentNeed) := urgentLoop needs 0 None in
  if Qltb (3#10) maxPriority then urgentNeed else None.

(** [getNeedPercentage(needs, needType)]; [None] is [NaN]: an
    inherited member passes the guard, and its [value] and [max] are not
    numbers. *)
Definition getNeedPercentage (self : t) (needs : Needs) (needType : string)
    : option Q :=
  match JsObject.read needs needType with
  | JsObject.Undefined => Some 0
  | JsObject.Own need => Some ((Need.value need / Need.max need) * 100)
  | JsObject.Inherited _ => None
  end.

Definition isCritical (self : t) (needs : Needs) : bool :=
  existsb (fun '(_, need) => Qltb (Need.value need / Need.max need) (1#5)) needs.

End NeedsSystem.

(** ** Time clock ([js/time-system.js]) *)

(** The strings [getTimeOfDay] can return, and ['midnight'], which
    [isNighttime] also tests for. *)
Module TimeOfDay.
Inductive t := night | evening | afternoon | noon | morning | dawn | midnight.
End TimeOfDay.

(** [a % b] on numbers: the quotient is rounded toward zero, so the
    remainder has the sign of [a]. *)
Definition num_trunc (x : Q) : Z := if Qleb 0 x then Qfloor x else Qceiling x.
Definition num_rem (a b : Q) : Q := a - b * inject_Z (num_trunc (a / b)).

Module TimeSystem.

(** Every threshold is an instance field; [lastUpdate] is left out. *)
Record t := mk {
  timeScale : Q;
  dayLength : Q;
  currentTime : Q;
  dawn : Q;
  morning : Q;
  noon : Q;
  afternoon : Q;
  evening : Q;
  night : Q;
  midnight : Q;
  isPaused : bool
}.

(** [constructor()] *)
Definition new : t :=
  {| timeScale := 60; dayLength := 24 * 60; currentTime := 6 * 60;
     dawn := 6 * 60; morning := 9 * 60; noon := 12 * 60;
     afternoon := 15 * 60; evening := 18 * 60; night := 21 * 60;
     midnight := 0; isPaused := false |}.

Definition set_currentTime (v : Q) (self : t) : t :=
  mk (timeScale self) (dayLength self) v (dawn self) (morning self)
    (noon self) (afternoon self) (evening self) (night self)
    (midnight self) (isPaused self).
Definition set_timeScale (v : Q) (self : t) : t :=
  mk v (dayLength self) (currentTime self) (dawn self) (morning self)
    (noon self) (afternoon self) (evening self) (night self)
    (midnight self) (isPaused self).

(** [update(deltaTime)], [deltaTime] in milliseconds. *)
Definition update (self : t) (deltaTime : Q) : t :=
  if isPaused self then self
  else
    let deltaMinutes := (deltaTime / 1000) * (timeScale self / 60) in
    let time := currentTime self + deltaMinutes in
    if Qleb (dayLength self) time
    then set_currentTime (num_rem time (dayLength self)) self
    else set_currentTime time self.

Definition getTimeOfDay (self : t) : TimeOfDay.t :=
  let time := currentTime self in
  if Qleb (night self) time || Qltb time (dawn self) then TimeOfDay.night
  else if Qleb (evening self) time then TimeOfDay.evening
  else if Qleb (afternoon self) time then TimeOfDay.afternoon
  else if Qleb (noon self) time then TimeOfDay.noon
  else if Qleb (morning self) time then TimeOfDay.morning
  else if Qleb (dawn self) time then TimeOfDay.dawn
  else TimeOfDay.night.

Definition isNighttime (self : t) : bool :=
  match getTimeOfDay self with
  | TimeOfDay.night | TimeOfDay.midnight => true
  | _ => false
  end.

Definition isDaytime (self : t) : bool := negb (isNighttime self).

(** The [switch] over the need kind, with its [default] case. *)
Definition getNeedDecayModifier (self : t) (needType : string) : Q :=
  if String.eqb needType "sleep" then
    if isNighttime self then 3#10 else 3#2
  else if String.eqb needType "hunger" || String.eqb needType "thirst" then 1
  else if String.eqb needType "happiness" || String.eqb needType "social" then
    if isNighttime self then 7#10 else 1
  else 1.

Definition setTimeScale (self : t) (scale : Q) : t :=
  set_timeScale (Qmax 1 (Qmin 3600 scale)) self.

Definition getDayProgress (self : t) : Q := currentTime self / dayLength self.

(** [setTime(hours, minutes)] *)
Definition setTime (self : t) (hours minutes : Q) : t :=
  let time := hours * 60 + minutes in
  if Qleb (dayLength self) time
  then set_currentTime (num_rem time (dayLength self)) self
  else set_currentTime time self.

Definition setPaused (self : t) (paused : bool) : t :=
  mk (timeScale self) (dayLength self) (currentTime self) (dawn self)
    (morning self) (noon self) (afternoon self) (evening self) (night self)
    (midnight self) paused.

Definition getTimeScale (self : t) : Q := timeScale self.

(** [s.padStart(2, '0')] *)
Definition padStart2 (s : string) : string :=
  match String.length s with
  | O => "00" +:+ s
  | S O => "0" +:+ s
  | _ => s
  end.

(** The locals [hours], [minutes], [hour12] and [ampm] of
    [getFormattedTime]; [%] on the integer [hours] is [Z.rem]. *)
Definition formattedHours (self : t) : Z := Qfloor (currentTime self / 60).
Definition formattedMinutes (self : t) : Z :=
  Qfloor (num_rem (currentTime self) 60).
Definition formattedHour12 (self : t) : Z :=
  let r := Z.rem (formattedHours self) 12 in
  if (r =? 0)%Z then 12%Z else r.
Definition formattedAmPm (self : t) : string :=
  if (formattedHours self <? 12)%Z then "AM" else "PM".

Definition getFormattedTime (self : t) : string :=
  padStart2 (pretty (formattedHour12 self)) +:+ ":" +:+
  padStart2 (pretty (formattedMinutes self)) +:+ " " +:+ formattedAmPm self.

End TimeSystem.

(** ** Base entity ([Entity]) *)

Module Sprite.
Record t := mk { tileset : string; tileX : Z; tileY : Z }.
End Sprite.

(** ['x' || d] on strings: the empty string is falsy; an absent property
    ([None]) is [undefined]. *)
Definition str_or (o : option string) (d : string) : string :=
  match o with
  | Some s => if String.eqb s "" then d else s
  | None => d
  end.

Definition opt_or {A} (o : option A) (d : option A) : option A :=
  match o with
  | Some a => Some a
  | None => d
  end.

Module ItemDef.
Record t := mk {
  name : string;
  category : string;
  satisfies : JsObject.t Q;
  useTime : Q;
  sprite : Sprite.t
}.
End ItemDef.

(** The object [serialize] produces and [deserialize] consumes, for all
    three classes; a property that is absent (or [null]) is [None]. *)
Module Data.
Record t := mk {
  id : option string;
  type : option string;
  tileX : option Z;
  tileY : option Z;
  name : option string;
  sprite : option Sprite.t;
  interactable : option bool;
  itemDef : option ItemDef.t;
  aiType : option string;
  patrolPath : option (list (Z * Z));
  dialogue : option (list string);
  needs : option NeedsSystem.Needs
}.

(** [set_f v self] is [self] with the field [f] set to [v]. *)
Definition set_type (v : option string) (self : t) : t := mk (id self) v
    (tileX self) (tileY self) (name self) (sprite self) (interactable self)
    (itemDef self) (aiType self) (patrolPath self) (dialogue self)
    (needs self).
Definition set_itemDef (v : option ItemDef.t) (self : t) : t := mk (id self)
    (type self) (tileX self) (tileY self) (name self) (sprite self)
    (interactable self) v (aiType self) (patrolPath self) (dialogue self)
    (needs self).
Definition set_aiType (v : option string) (self : t) : t := mk (id self)
    (type self) (tileX self) (tileY self) (name self) (sprite self)
    (interactable self) (itemDef self) v (patrolPath self) (dialogue self)
    (needs self).
Definition set_patrolPath (v : option (list (Z * Z))) (self : t) : t := mk
    (id self) (type self) (tileX self) (tileY self) (name self)
    (sprite self) (interactable self) (itemDef self) (aiType self) v
    (dialogue self) (needs self).
Definition set_dialogue (v : option (list string)) (self : t) : t := mk
    (id self) (type self) (tileX self) (tileY self) (name self)
    (sprite self) (interactable self) (itemDef self) (aiType self)
    (patrolPath self) v (needs self).
Definition set_needs (v : option NeedsSystem.Needs) (self : t) : t := mk
    (id self) (type self) (tileX self) (tileY self) (name self)
    (sprite self) (interactable self) (itemDef self) (aiType self)
    (patrolPath self) (dialogue self) v.
End Data.

(** Of the fields of [Entity], [width], [height], [visible], [layer] and
    [description] are left out: only the renderer reads them.  The [id]
    the constructor draws from the clock and [Math.random] is an
    argument. *)
Module Entity.
Record t := mk {
  id : string;
  type : string;
  tileX : Z;
  tileY : Z;
  pixelX : Q;
  pixelY : Q;
  sprite : option Sprite.t;
  interactable : bool;
  name : string;
  active : bool;
  markedForRemoval : bool
}.

(** [set_f v self] is [self] with the field [f] set to [v]. *)
Definition set_id (v : string) (self : t) : t := mk v (type self)
    (tileX self) (tileY self) (pixelX self) (pixelY self) (sprite self)
    (interactable self) (name self) (active self) (markedForRemoval self).
Definition set_type (v : string) (self : t) : t := mk (id self) v
    (tileX self) (tileY self) (pixelX self) (pixelY self) (sprite self)
    (interactable self) (name self) (active self) (markedForRemoval self).
Definition set_tileX (v : Z) (self : t) : t := mk (id self) (type self) v
    (tileY self) (pixelX self) (pixelY self) (sprite self)
    (interactable self) (name self) (active self) (markedForRemoval self).
Definition set_tileY (v : Z) (self : t) : t := mk (id self) (type self)
    (tileX self) v (pixelX self) (pixelY self) (sprite self)
    (interactable self) (name self) (active self) (markedForRemoval self).
Definition set_pixelX (v : Q) (self : t) : t := mk (id self) (type self)
    (tileX self) (tileY self) v (pixelY self) (sprite self)
    (interactable self) (name self) (active self) (markedForRemoval self).
Definition set_pixelY (v : Q) (self : t) : t := mk (id self) (type self)
    (tileX self) (tileY self) (pixelX self) v (sprite self)
    (interactable self) (name self) (active self) (markedForRemoval self).
Definition set_sprite (v : option Sprite.t) (self : t) : t := mk (id self)
    (type self) (tileX self) (tileY self) (pixelX self) (pixelY self) v
    (interactable self) (name self) (active self) (markedForRemoval self).
Definition set_interactable (v : bool) (self : t) : t := mk (id self)
    (type self) (tileX self) (tileY self) (pixelX self) (pixelY self)
    (sprite self) v (name self) (active self) (markedForRemoval self).
Definition set_name (v : string) (self : t) : t := mk (id self) (type self)
    (tileX self) (tileY self) (pixelX self) (pixelY self) (sprite self)
    (interactable self) v (active self) (markedForRemoval self).
Definition set_active (v : bool) (self : t) : t := mk (id self) (type self)
    (tileX self) (tileY self) (pixelX self) (pixelY self) (sprite self)
    (interactable self) (name self) v (markedForRemoval self).
Definition set_markedForRemoval (v : bool) (self : t) : t := mk (id self)
    (type self) (tileX self) (tileY self) (pixelX self) (pixelY self)
    (sprite self) (interactable self) (name self) (active self) v.

(** [constructor(x, y, type)] *)
Definition new (id : string) (x y : Z) (type : string) : t :=
  {| id := id; type := type; tileX := x; tileY := y;
     pixelX := inject_Z (x * 32); pixelY := inject_Z (y * 32);
     sprite := None; interactable := false; name := "Entity";
     active := true; markedForRemoval := false |}.

Definition setPosition (self : t) (x y : Z) : t :=
  set_pixelY (inject_Z (y * 32))
    (set_pixelX (inject_Z (x * 32)) (set_tileY y (set_tileX x self))).

Definition isAtPosition (self : t) (x y : Z) : bool :=
  Z.eqb (tileX self) x && Z.eqb (tileY self) y.

(** [remove()] only marks; the index removes on its next pass. *)
Definition remove (self : t) : t :=
  set_active false (set_markedForRemoval true self).

Definition serialize (self : t) : Data.t :=
  {| Data.id := Some (id self); Data.type := Some (type self);
     Data.tileX := Some (tileX self); Data.tileY := Some (tileY self);
     Data.name := Some (name self); Data.sprite := sprite self;
     Data.interactable := Some (interactable self);
     Data.itemDef := None; Data.aiType := None; Data.patrolPath := None;
     Data.dialogue := None; Data.needs := None |}.

Definition deserialize (self : t) (data : Data.t) : t :=
  let self := set_id (str_or (Data.id data) (id self)) self in
  let self := set_type (str_or (Data.type data) (type self)) self in
  let self := setPosition self (default 0%Z (Data.tileX data))
                               (default 0%Z (Data.tileY data)) in
  let self := set_name (str_or (Data.name data) (name self)) self in
  let self := set_sprite (opt_or (Data.sprite data) (sprite self)) self in
  set_interactable (default (interactable self) (Data.interactable data)) self.

End Entity.

(** ** Functional items ([FunctionalItem extends Item extends Entity]) *)

(** The superclass part is the field [ent].  The fields [Item] adds
    ([itemType], [stackable], [quantity] and the bobbing animation) are
    left out, and with them the two entries [Item.serialize] adds. *)
Module FunctionalItem.
Record t := mk {
  ent : Entity.t;
  itemDef : ItemDef.t;
  inUse : bool;
  usedBy : option string;
  useTime : Q;
  maxUseTime : Q
}.

(** [set_f v self] is [self] with the field [f] set to [v]. *)
Definition set_ent (v : Entity.t) (self : t) : t := mk v (itemDef self)
    (inUse self) (usedBy self) (useTime self) (maxUseTime self).
Definition set_itemDef (v : ItemDef.t) (self : t) : t := mk (ent self) v
    (inUse self) (usedBy self) (useTime self) (maxUseTime self).
Definition set_inUse (v : bool) (self : t) : t := mk (ent self)
    (itemDef self) v (usedBy self) (useTime self) (maxUseTime self).
Definition set_usedBy (v : option string) (self : t) : t := mk (ent self)
    (itemDef self) (inUse self) v (useTime self) (maxUseTime self).
Definition set_useTime (v : Q) (self : t) : t := mk (ent self)
    (itemDef self) (inUse self) (usedBy self) v (maxUseTime self).
Definition set_maxUseTime (v : Q) (self : t) : t := mk (ent self)
    (itemDef self) (inUse self) (usedBy self) (useTime self) v.

Definition getDefaultDefinition : ItemDef.t :=
  {| ItemDef.name := "Item"; ItemDef.category := "furniture";
     ItemDef.satisfies := []; ItemDef.useTime := 5;
     ItemDef.sprite := Sprite.mk "furniture" 0 0 |}.

(** [constructor(x, y, name, itemDef)], through the constructor of
    [Item]. *)
Definition new (id : string) (x y : Z) (name : string)
    (itemDef : option ItemDef.t) : t :=
  let itemDef := default getDefaultDefinition itemDef in
  {| ent := Entity.set_type "functional"
              (Entity.set_interactable true
                 (Entity.set_name name (Entity.new id x y "item")));
     itemDef := itemDef;
     inUse := false; usedBy := None; useTime := 0;
     maxUseTime := num_or (ItemDef.useTime itemDef) 5 |}.

(** [satisfies[needType] > 0]; an inherited member is not a number and
    compares as [NaN], so the answer is [false] for it as for
    [undefined]. *)
Definition canSatisfy (self : t) (needType : string) : bool :=
  match JsObject.get (ItemDef.satisfies (itemDef self)) needType with
  | Some amount => Qltb 0 amount
  | None => false
  end.

(** [satisfies[needType] || 0], for a kind that the table lists or that
    is not in [JsObject.inherited]: under an inherited name that the
    table does not list, the code returns the inherited member, which is
    not a number. *)
Definition getSatisfactionAmount (self : t) (needType : string) : Q :=
  match JsObject.get (ItemDef.satisfies (itemDef self)) needType with
  | Some amount => num_or amount 0
  | None => 0
  end.

Definition startUse (self : t) (entityId : string) : t * bool :=
  if inUse self then (self, false)
  else (set_useTime 0 (set_usedBy (Some entityId) (set_inUse true self)), true).

Definition completeUse (self : t) : t :=
  set_useTime 0 (set_usedBy None (set_inUse false self)).

Definition updateUse (self : t) (deltaTime : Q) : t * bool :=
  if negb (inUse self) then (self, false)
  else
    let self := set_useTime (useTime self + deltaTime) self in
    if Qleb (maxUseTime self) (useTime self) then (completeUse self, true)
    else (self, false).

Definition stopUse (self : t) : t :=
  set_useTime 0 (set_usedBy None (set_inUse false self)).

Definition isAvailable (self : t) : bool := negb (inUse self).

Definition setSprite (self : t) (tileset : string) (tileX tileY : Z) : t :=
  set_ent (Entity.set_sprite (Some (Sprite.mk tileset tileX tileY)) (ent self))
    self.

Definition serialize (self : t) : Data.t :=
  Data.set_type (Some "functional"%string)
    (Data.set_itemDef (Some (itemDef self)) (Entity.serialize (ent self))).

Definition deserialize (self : t) (data : Data.t) : t :=
  let self := set_ent (Entity.deserialize (ent self) data) self in
  match Data.itemDef data with
  | Some itemDef =>
      set_maxUseTime (num_or (ItemDef.useTime itemDef) 5)
        (set_itemDef itemDef self)
  | None => self
  end.

End FunctionalItem.

Module ItemDefinitions.

Definition getDefinitions : JsObject.t ItemDef.t :=
  [
    ("apple", ItemDef.mk "Apple" "food"
       [("hunger", 30); ("happiness", 5)] 2
       (Sprite.mk "furniture" 0 0));
    ("meal", ItemDef.mk "Meal" "food"
       [("hunger", 60); ("happiness", 10)] 5
       (Sprite.mk "furniture" 1 0));
    ("water", ItemDef.mk "Water" "drink"
       [("thirst", 40)] 1
       (Sprite.mk "furniture" 2 0));
    ("juice", ItemDef.mk "Juice" "drink"
       [("thirst", 50); ("happiness", 10)] 2
       (Sprite.mk "furniture" 3 0));
    ("bed", ItemDef.mk "Bed" "furniture"
       [("sleep", 80); ("happiness", 5)] 10
       (Sprite.mk "furniture" 0 1));
    ("couch", ItemDef.mk "Couch" "furniture"
       [("sleep", 30); ("happiness", 15); ("social", 10)] 5
       (Sprite.mk "furniture" 1 1));
    ("tv", ItemDef.mk "TV" "entertainment"
       [("happiness", 40); ("social", 20)] 8
       (Sprite.mk "furniture" 2 1));
    ("book", ItemDef.mk "Book" "entertainment"
       [("happiness", 25)] 6
       (Sprite.mk "furniture" 3 1));
    ("table", ItemDef.mk "Table" "furniture"
       [("social", 30); ("happiness", 10)] 5
       (Sprite.mk "furniture" 0 2));
    ("sandwich", ItemDef.mk "Sandwich" "food"
       [("hunger", 40); ("happiness", 8)] 3
       (Sprite.mk "furniture" 4 0));
    ("pizza", ItemDef.mk "Pizza" "food"
       [("hunger", 70); ("happiness", 20)] 6
       (Sprite.mk "furniture" 5 0));
    ("coffee", ItemDef.mk "Coffee" "drink"
       [("thirst", 30); ("sleep", (-10)); ("happiness", 15)] 2
       (Sprite.mk "furniture" 6 0));
    ("soda", ItemDef.mk "Soda" "drink"
       [("thirst", 45); ("happiness", 12)] 2
       (Sprite.mk "furniture" 7 0));
    ("chair", ItemDef.mk "Chair" "furniture"
       [("sleep", 15); ("happiness", 5)] 3
       (Sprite.mk "furniture" 2 2));
    ("desk", ItemDef.mk "Desk" "furniture"
       [("happiness", 10); ("social", 5)] 4
       (Sprite.mk "furniture" 3 2));
    ("computer", ItemDef.mk "Computer" "entertainment"
       [("happiness", 50); ("social", 15)] 10
       (Sprite.mk "furniture" 4 1));
    ("game", ItemDef.mk "Game Console" "entertainment"
       [("happiness", 60); ("social", 25)] 12
       (Sprite.mk "furniture" 5 1))
  ]%string.

(** [createItem(defKey, x, y)]; [id] is the one the new item draws.
    [Some None] is [null].  The outer [None] is a [TypeError]: when
    [definitions[defKey]] is an inherited member, the guard [if (!def)]
    lets it through and [def.sprite.tileset] fails, since [def.sprite]
    is [undefined]. *)
Definition createItem (id : string) (defKey : string) (x y : Z)
    : option (option FunctionalItem.t) :=
  match JsObject.read getDefinitions defKey with
  | JsObject.Undefined => Some None
  | JsObject.Inherited _ => None
  | JsObject.Own def =>
      let item := FunctionalItem.new id x y (ItemDef.name def) (Some def) in
      Some (Some (FunctionalItem.setSprite item
                    (Sprite.tileset (ItemDef.sprite def))
                    (Sprite.tileX (ItemDef.sprite def))
                    (Sprite.tileY (ItemDef.sprite def))))
  end.

End ItemDefinitions.

(** ** The agent ([js/npc.js]): the receiver's own state *)

(** What a method reads from its surroundings: [Date.now()] (one reading
    per call), the globals [window.timeSystem] and [window.needsSystem]
    (which may be unset), and [Math.sqrt]. *)
Module Env.
Record t := mk {
  now : Z;
  timeSystem : option TimeSystem.t;
  needsSystem : option NeedsSystem.t;
  Math_sqrt : Q -> Q
}.
End Env.

(** [currentGoal]; [target] is a reference to the item. *)
Module Goal.
Record t := mk { type : string; needType : string; target : positive }.
End Goal.

Module Relationship.
Record t := mk { value : Q; interactions : Z; lastInteraction : Z }.
End Relationship.

Module Interaction.
Record t := mk { with_ : string; name : string; type : string; time : Z }.
End Interaction.

Module Personality.
Record t := mk { social : Q; helpful : Q; active : Q }.
End Personality.

(** The superclass part is the field [ent]; [targetItem] is a reference
    into the heap of entities.  [currentPatrolIndex], [patrolDirection]
    and [dialogueIndex] are left out with the methods that use them. *)
Module NPC.
Record t := mk {
  ent : Entity.t;
  needsSystem : option NeedsSystem.t;
  needs : option NeedsSystem.Needs;
  aiType : string;
  patrolPath : list (Z * Z);
  currentGoal : option Goal.t;
  targetItem : option positive;
  usingItem : bool;
  useStartTime : Z;
  moveSpeed : Q;
  isMoving : bool;
  targetTileX : Z;
  targetTileY : Z;
  targetPixelX : Q;
  targetPixelY : Q;
  direction : Z;
  animationFrame : Z;
  lastAnimationTime : Z;
  animationSpeed : Z;
  dialogue : list string;
  lastAITime : Z;
  aiInterval : Z;
  lastNeedUpdate : Z;
  needUpdateInterval : Z;
  relationships : gmap string Relationship.t;
  interactionHistory : list Interaction.t;
  personality : Personality.t
}.

(** [set_f v self] is [self] with the field [f] set to [v]. *)
Definition set_ent (v : Entity.t) (self : t) : t := mk v (needsSystem self)
    (needs self) (aiType self) (patrolPath self) (currentGoal self)
    (targetItem self) (usingItem self) (useStartTime self) (moveSpeed self)
    (isMoving self) (targetTileX self) (targetTileY self)
    (targetPixelX self) (targetPixelY self) (direction self)
    (animationFrame self) (lastAnimationTime self) (animationSpeed self)
    (dialogue self) (lastAITime self) (aiInterval self)
    (lastNeedUpdate self) (needUpdateInterval self) (relationships self)
    (interactionHistory self) (personality self).
Definition set_needsSystem (v : option NeedsSystem.t) (self : t) : t := mk
    (ent self) v (needs self) (aiType self) (patrolPath self)
    (currentGoal self) (targetItem self) (usingItem self)
    (useStartTime self) (moveSpeed self) (isMoving self) (targetTileX self)
    (targetTileY self) (targetPixelX self) (targetPixelY self)
    (direction self) (animationFrame self) (lastAnimationTime self)
    (animationSpeed self) (dialogue self) (lastAITime self)
    (aiInterval self) (lastNeedUpdate self) (needUpdateInterval self)
    (relationships self) (interactionHistory self) (personality self).
Definition set_needs (v : option NeedsSystem.Needs) (self : t) : t := mk
    (ent self) (needsSystem self) v (aiType self) (patrolPath self)
    (currentGoal self) (targetItem self) (usingItem self)
    (useStartTime self) (moveSpeed self) (isMoving self) (targetTileX self)
    (targetTileY self) (targetPixelX self) (targetPixelY self)
    (direction self) (animationFrame self) (lastAnimationTime self)
    (animationSpeed self) (dialogue self) (lastAITime self)
    (aiInterval self) (lastNeedUpdate self) (needUpdateInterval self)
    (relationships self) (interactionHistory self) (personality self).
Definition set_currentGoal (v : option Goal.t) (self : t) : t := mk
    (ent self) (needsSystem self) (needs self) (aiType self)
    (patrolPath self) v (targetItem self) (usingItem self)
    (useStartTime self) (moveSpeed self) (isMoving self) (targetTileX self)
    (targetTileY self) (targetPixelX self) (targetPixelY self)
    (direction self) (animationFrame self) (lastAnimationTime self)
    (animationSpeed self) (dialogue self) (lastAITime self)
    (aiInterval self) (lastNeedUpdate self) (needUpdateInterval self)
    (relationships self) (interactionHistory self) (personality self).
Definition set_targetItem (v : option positive) (self : t) : t := mk
    (ent self) (needsSystem self) (needs self) (aiType self)
    (patrolPath self) (currentGoal self) v (usingItem self)
    (useStartTime self) (moveSpeed self) (isMoving self) (targetTileX self)
    (targetTileY self) (targetPixelX self) (targetPixelY self)
    (direction self) (animationFrame self) (lastAnimationTime self)
    (animationSpeed self) (dialogue self) (lastAITime self)
    (aiInterval self) (lastNeedUpdate self) (needUpdateInterval self)
    (relationships self) (interactionHistory self) (personality self).
Definition set_usingItem (v : bool) (self : t) : t := mk (ent self)
    (needsSystem self) (needs self) (aiType self) (patrolPath self)
    (currentGoal self) (targetItem self) v (useStartTime self)
    (moveSpeed self) (isMoving self) (targetTileX self) (targetTileY self)
    (targetPixelX self) (targetPixelY self) (direction self)
    (animationFrame self) (lastAnimationTime self) (animationSpeed self)
    (dialogue self) (lastAITime self) (aiInterval self)
    (lastNeedUpdate self) (needUpdateInterval self) (relationships self)
    (interactionHistory self) (personality self).
Definition set_useStartTime (v : Z) (self : t) : t := mk (ent self)
    (needsSystem self) (needs self) (aiType self) (patrolPath self)
    (currentGoal self) (targetItem self) (usingItem self) v (moveSpeed self)
    (isMoving self) (targetTileX self) (targetTileY self)
    (targetPixelX self) (targetPixelY self) (direction self)
    (animationFrame self) (lastAnimationTime self) (animationSpeed self)
    (dialogue self) (lastAITime self) (aiInterval self)
    (lastNeedUpdate self) (needUpdateInterval self) (relationships self)
    (interactionHistory self) (personality self).
Definition set_isMoving (v : bool) (self : t) : t := mk (ent self)
    (needsSystem self) (needs self) (aiType self) (patrolPath self)
    (currentGoal self) (targetItem self) (usingItem self)
    (useStartTime self) (moveSpeed self) v (targetTileX self)
    (targetTileY self) (targetPixelX self) (targetPixelY self)
    (direction self) (animationFrame self) (lastAnimationTime self)
    (animationSpeed self) (dialogue self) (lastAITime self)
    (aiInterval self) (lastNeedUpdate self) (needUpdateInterval self)
    (relationships self) (interactionHistory self) (personality self).
Definition set_targetTileX (v : Z) (self : t) : t := mk (ent self)
    (needsSystem self) (needs self) (aiType self) (patrolPath self)
    (currentGoal self) (targetItem self) (usingItem self)
    (useStartTime self) (moveSpeed self) (isMoving self) v
    (targetTileY self) (targetPixelX self) (targetPixelY self)
    (direction self) (animationFrame self) (lastAnimationTime self)
    (animationSpeed self) (dialogue self) (lastAITime self)
    (aiInterval self) (lastNeedUpdate self) (needUpdateInterval self)
    (relationships self) (interactionHistory self) (personality self).
Definition set_targetTileY (v : Z) (self : t) : t := mk (ent self)
    (needsSystem self) (needs self) (aiType self) (patrolPath self)
    (currentGoal self) (targetItem self) (usingItem self)
    (useStartTime self) (moveSpeed self) (isMoving self) (targetTileX self)
    v (targetPixelX self) (targetPixelY self) (direction self)
    (animationFrame self) (lastAnimationTime self) (animationSpeed self)
    (dialogue self) (lastAITime self) (aiInterval self)
    (lastNeedUpdate self) (needUpdateInterval self) (relationships self)
    (interactionHistory self) (personality self).
Definition set_targetPixelX (v : Q) (self : t) : t := mk (ent self)
    (needsSystem self) (needs self) (aiType self) (patrolPath self)
    (currentGoal self) (targetItem self) (usingItem self)
    (useStartTime self) (moveSpeed self) (isMoving self) (targetTileX self)
    (targetTileY self) v (targetPixelY self) (direction self)
    (animationFrame self) (lastAnimationTime self) (animationSpeed self)
    (dialogue self) (lastAITime self) (aiInterval self)
    (lastNeedUpdate self) (needUpdateInterval self) (relationships self)
    (interactionHistory self) (personality self).
Definition set_targetPixelY (v : Q) (self : t) : t := mk (ent self)
    (needsSystem self) (needs self) (aiType self) (patrolPath self)
    (currentGoal self) (targetItem self) (usingItem self)
    (useStartTime self) (moveSpeed self) (isMoving self) (targetTileX self)
    (targetTileY self) (targetPixelX self) v (direction self)
    (animationFrame self) (lastAnimationTime self) (animationSpeed self)
    (dialogue self) (lastAITime self) (aiInterval self)
    (lastNeedUpdate self) (needUpdateInterval self) (relationships self)
    (interactionHistory self) (personality self).
Definition set_direction (v : Z) (self : t) : t := mk (ent self)
    (needsSystem self) (needs self) (aiType self) (patrolPath self)
    (currentGoal self) (targetItem self) (usingItem self)
    (useStartTime self) (moveSpeed self) (isMoving self) (targetTileX self)
    (targetTileY self) (targetPixelX self) (targetPixelY self) v
    (animationFrame self) (lastAnimationTime self) (animationSpeed self)
    (dialogue self) (lastAITime self) (aiInterval self)
    (lastNeedUpdate self) (needUpdateInterval self) (relationships self)
    (interactionHistory self) (personality self).
Definition set_animationFrame (v : Z) (self : t) : t := mk (ent self)
    (needsSystem self) (needs self) (aiType self) (patrolPath self)
    (currentGoal self) (targetItem self) (usingItem self)
    (useStartTime self) (moveSpeed self) (isMoving self) (targetTileX self)
    (targetTileY self) (targetPixelX self) (targetPixelY self)
    (direction self) v (lastAnimationTime self) (animationSpeed self)
    (dialogue self) (lastAITime self) (aiInterval self)
    (lastNeedUpdate self) (needUpdateInterval self) (relationships self)
    (interactionHistory self) (personality self).
Definition set_lastAnimationTime (v : Z) (self : t) : t := mk (ent self)
    (needsSystem self) (needs self) (aiType self) (patrolPath self)
    (currentGoal self) (targetItem self) (usingItem self)
    (useStartTime self) (moveSpeed self) (isMoving self) (targetTileX self)
    (targetTileY self) (targetPixelX self) (targetPixelY self)
    (direction self) (animationFrame self) v (animationSpeed self)
    (dialogue self) (lastAITime self) (aiInterval self)
    (lastNeedUpdate self) (needUpdateInterval self) (relationships self)
    (interactionHistory self) (personality self).
Definition set_lastAITime (v : Z) (self : t) : t := mk (ent self)
    (needsSystem self) (needs self) (aiType self) (patrolPath self)
    (currentGoal self) (targetItem self) (usingItem self)
    (useStartTime self) (moveSpeed self) (isMoving self) (targetTileX self)
    (targetTileY self) (targetPixelX self) (targetPixelY self)
    (direction self) (animationFrame self) (lastAnimationTime self)
    (animationSpeed self) (dialogue self) v (aiInterval self)
    (lastNeedUpdate self) (needUpdateInterval self) (relationships self)
    (interactionHistory self) (personality self).
Definition set_lastNeedUpdate (v : Z) (self : t) : t := mk (ent self)
    (needsSystem self) (needs self) (aiType self) (patrolPath self)
    (currentGoal self) (targetItem self) (usingItem self)
    (useStartTime self) (moveSpeed self) (isMoving self) (targetTileX self)
    (targetTileY self) (targetPixelX self) (targetPixelY self)
    (direction self) (animationFrame self) (lastAnimationTime self)
    (animationSpeed self) (dialogue self) (lastAITime self)
    (aiInterval self) v (needUpdateInterval self) (relationships self)
    (interactionHistory self) (personality self).
Definition set_relationships (v : gmap string Relationship.t) (self : t) : t
    := mk (ent self) (needsSystem self) (needs self) (aiType self)
    (patrolPath self) (currentGoal self) (targetItem self) (usingItem self)
    (useStartTime self) (moveSpeed self) (isMoving self) (targetTileX self)
    (targetTileY self) (targetPixelX self) (targetPixelY self)
    (direction self) (animationFrame self) (lastAnimationTime self)
    (animationSpeed self) (dialogue self) (lastAITime self)
    (aiInterval self) (lastNeedUpdate self) (needUpdateInterval self) v
    (interactionHistory self) (personality self).

(** [initializeNeeds()]: both branches install a needs system and a full
    needs set. *)
Definition initializeNeeds (window_needsSystem : option NeedsSystem.t)
    (self : t) : t :=
  match window_needsSystem with
  | Some sys =>
      set_needs (Some (NeedsSystem.initializeNeeds sys))
        (set_needsSystem (Some sys) self)
  | None =>
      let sys := NeedsSystem.new in
      set_needs (Some (NeedsSystem.initializeNeeds sys))
        (set_needsSystem (Some sys) self)
  end.

(** [constructor(x, y, name)]; the [id] and the three random personality
    scalars are arguments. *)
Definition new (id : string) (window_needsSystem : option NeedsSystem.t)
    (personality : Personality.t) (x y : Z) (name : string) : t :=
  let base := Entity.set_interactable true
               (Entity.set_name name (Entity.new id x y "npc")) in
  let self :=
    {| ent := base; needsSystem := None; needs := None;
       aiType := "autonomous"; patrolPath := [];
       currentGoal := None; targetItem := None; usingItem := false;
       useStartTime := 0;
       moveSpeed := 4#5; isMoving := false;
       targetTileX := Entity.tileX base; targetTileY := Entity.tileY base;
       targetPixelX := Entity.pixelX base; targetPixelY := Entity.pixelY base;
       direction := 0; animationFrame := 0; lastAnimationTime := 0;
       animationSpeed := 150;
       dialogue := ["Hello!"; "How can I help you?"]%string;
       lastAITime := 0; aiInterval := 1000;
       lastNeedUpdate := 0; needUpdateInterval := 100;
       relationships := ∅; interactionHistory := [];
       personality := personality |} in
  let self := initializeNeeds window_needsSystem self in
  set_ent (Entity.set_sprite (Some (Sprite.mk "character" 0 0)) (ent self)) self.

(** The loop over the needs in [update], taken when a clock is
    installed: [needTypes[needType]?.decayRate || 0.5]. *)
Definition decayLoop (timeSystem : TimeSystem.t) (needsSystem : NeedsSystem.t)
    (needs : NeedsSystem.Needs) (timeDelta : Q) : NeedsSystem.Needs :=
  map (fun '(needType, need) =>
         let modifier := TimeSystem.getNeedDecayModifier timeSystem needType in
         let baseDecay :=
           match JsObject.get (NeedsSystem.needTypes needsSystem) needType with
           | Some config => num_or (NeedConfig.decayRate config) (1#2)
           | None => 1#2
           end in
         let adjustedDecay := baseDecay * modifier in
         (needType, NeedsSystem.decayNeed (adjustedDecay * timeDelta) need))
      needs.

(** [update], lines 100-128: the needs decay.  The caller has checked
    that [needs] and [needsSystem] are set. *)
Definition updateNeedsBlock (env : Env.t) (deltaTime : Q) (self : t) : t :=
  let deltaSeconds := deltaTime / 1000 in
  let currentTime := Env.now env in
  if (needUpdateInterval self <? currentTime - lastNeedUpdate self)%Z then
    let self :=
      match needs self, needsSystem self with
      | Some needs, Some sys =>
          match Env.timeSystem env with
          | Some timeSystem =>
              let timeDelta :=
                inject_Z (currentTime - lastNeedUpdate self) / 1000 in
              set_needs (Some (decayLoop timeSystem sys needs timeDelta)) self
          | None =>
              set_needs (Some (NeedsSystem.updateNeeds sys needs deltaSeconds))
                self
          end
      | _, _ => self
      end in
    set_lastNeedUpdate currentTime self
  else self.

(** The loop of [completeItemUse] over the other entries of the item's
    table. *)
Definition satisfyOthers (sys : NeedsSystem.t) (goalNeed : string)
    (satisfies : JsObject.t Q) (needs : NeedsSystem.Needs)
    : NeedsSystem.Needs :=
  fold_left
    (fun needs '(needType, needAmount) =>
       if negb (String.eqb needType goalNeed)
       then NeedsSystem.satisfyNeed sys needs needType needAmount
       else needs)
    satisfies needs.

(** [completeItemUse()]; [item] is the object [targetItem] refers to
    ([None] when [targetItem] is [null]).  [update] calls it with [needs]
    and [needsSystem] set. *)
Definition completeItemUse (item : option FunctionalItem.t) (self : t) : t :=
  let self :=
    match item, currentGoal self, needs self, needsSystem self with
    | Some targetItem, Some goal, Some needs, Some sys =>
        let amount :=
          FunctionalItem.getSatisfactionAmount targetItem (Goal.needType goal) in
        let needs :=
          NeedsSystem.satisfyNeed sys needs (Goal.needType goal) amount in
        let needs :=
          satisfyOthers sys (Goal.needType goal)
            (ItemDef.satisfies (FunctionalItem.itemDef targetItem)) needs in
        set_needs (Some needs) self
    | _, _, _, _ => self
    end in
  set_useStartTime 0
    (set_currentGoal None (set_targetItem None (set_usingItem false self))).

(** [update], lines 140-163 without the test on the target item: one
    step of movement; the flag tells whether the agent arrived. *)
Definition moveStep (env : Env.t) (self : t) : t * bool :=
  let dx := targetPixelX self - Entity.pixelX (ent self) in
  let dy := targetPixelY self - Entity.pixelY (ent self) in
  let distance := Env.Math_sqrt env (dx * dx + dy * dy) in
  if Qltb distance (moveSpeed self) then
    let e := Entity.set_pixelY (targetPixelY self)
               (Entity.set_pixelX (targetPixelX self) (ent self)) in
    let e := Entity.set_tileX (Qfloor (Entity.pixelX e / 32)) e in
    let e := Entity.set_tileY (Qfloor (Entity.pixelY e / 32)) e in
    (set_animationFrame 0 (set_isMoving false (set_ent e self)), true)
  else
    let moveX := (dx / distance) * moveSpeed self in
    let moveY := (dy / distance) * moveSpeed self in
    let e := Entity.set_pixelX (Entity.pixelX (ent self) + moveX) (ent self) in
    let e := Entity.set_pixelY (Entity.pixelY e + moveY) e in
    (set_ent e self, false).

(** [update], lines 165-173: the walking animation. *)
Definition animationBlock (env : Env.t) (self : t) : t :=
  if isMoving self && negb (usingItem self) then
    if (animationSpeed self <? Env.now env - lastAnimationTime self)%Z
    then set_lastAnimationTime (Env.now env)
           (set_animationFrame ((animationFrame self + 1) mod 4)%Z self)
    else self
  else if negb (usingItem self) then set_animationFrame 0 self
  else self.

Definition clampRelationship (v : Q) : Q := Qmax (-100) (Qmin 100 v).

(** [updateRelationship(other, change)]; only [other.id] is read. *)
Definition updateRelationship (env : Env.t) (self : t) (other_id : string)
    (change : Q) : t :=
  let relationships :=
    match relationships self !! other_id with
    | Some _ => relationships self
    | None =>
        <[other_id := Relationship.mk 0 0 (Env.now env)]> (relationships self)
    end in
  match relationships !! other_id with
  | Some rel =>
      let rel :=
        {| Relationship.value :=
             clampRelationship (Relationship.value rel + change);
           Relationship.interactions := (Relationship.interactions rel + 1)%Z;
           Relationship.lastInteraction := Env.now env |} in
      set_relationships (<[other_id := rel]> relationships) self
  | None => set_relationships relationships self
  end.

Definition getRelationship (self : t) (other_id : string) : Q :=
  match relationships self !! other_id with
  | None => 0
  | Some rel => Relationship.value rel
  end.

(** [getRelationshipStatus(value)] *)
Definition getRelationshipStatus (value : Q) : string :=
  if Qleb 80 value then "Best Friend"
  else if Qleb 50 value then "Friend"
  else if Qleb 20 value then "Acquaintance"
  else if Qleb (-20) value then "Neutral"
  else if Qleb (-50) value then "Unfriendly"
  else "Enemy".


(** [moveTo(x, y)] *)
Definition moveTo (env : Env.t) (self : t) (x y : Z) : t :=
  if isMoving self then self
  else
    let self :=
      if (Entity.tileY (ent self) <? y)%Z then set_direction 0 self
      else if (x <? Entity.tileX (ent self))%Z then set_direction 1 self
      else if (Entity.tileX (ent self) <? x)%Z then set_direction 2 self
      else if (y <? Entity.tileY (ent self))%Z then set_direction 3 self
      else self in
    set_lastAnimationTime (Env.now env)
      (set_animationFrame 0
         (set_isMoving true
            (set_targetPixelY (inject_Z (y * 32))
               (set_targetPixelX (inject_Z (x * 32))
                  (set_targetTileY y (set_targetTileX x self)))))).

Definition serialize (self : t) : Data.t :=
  Data.set_needs (needs self)
    (Data.set_dialogue (Some (dialogue self))
       (Data.set_patrolPath (Some (patrolPath self))
          (Data.set_aiType (Some (aiType self))
             (Entity.serialize (ent self))))).

Definition deserialize (self : t) (data : Data.t) : t :=
  let self := set_ent (Entity.deserialize (ent self) data) self in
  match Data.needs data with
  | Some needs => set_needs (Some needs) self
  | None => self
  end.

End NPC.

(** ** The heap of entities *)

(** Entities are shared by reference: the index holds them in three
    tables and an agent holds its target item.  A reference is an
    address into the heap; an object, once allocated, is never freed. *)
Module Heap.

Inductive obj :=
  | Npc (n : NPC.t)
  | Functional (f : FunctionalItem.t)
  | Plain (e : Entity.t).

Abbreviation t := (gmap positive obj).

(** The fields every entity inherits from [Entity]. *)
Definition ent (o : obj) : Entity.t :=
  match o with
  | Npc n => NPC.ent n
  | Functional f => FunctionalItem.ent f
  | Plain e => e
  end.

Definition entity (h : t) (r : positive) : option Entity.t := ent <$> h !! r.

Definition npc (h : t) (r : positive) : option NPC.t :=
  match h !! r with
  | Some (Npc n) => Some n
  | _ => None
  end.

Definition item (h : t) (r : positive) : option FunctionalItem.t :=
  match h !! r with
  | Some (Functional f) => Some f
  | _ => None
  end.

(** [new C(...)]: the object is stored under a reference that is not in
    use. *)
Definition alloc (h : t) (o : obj) : t * positive :=
  let r := fresh (dom h) in (<[r := o]> h, r).

End Heap.

(** ** The agent: the methods that follow references *)

(** The receiver is the reference [self].  A reference that is not
    allocated, or not to an object of the expected class, does not arise
    in the program; the methods leave the heap unchanged there.  The
    decision procedures ([makeAutonomousDecision], [makeAIDecision]),
    which draw random numbers and query the renderer's globals, are the
    argument [ai]. *)
Module Agent.

Definition startUsingItem (env : Env.t) (h : Heap.t) (self item : positive)
    : Heap.t :=
  match Heap.npc h self, Heap.item h item with
  | Some n, Some f =>
      let '(f, ok) := FunctionalItem.startUse f (Entity.id (NPC.ent n)) in
      if ok then
        let n := NPC.set_isMoving false
                   (NPC.set_useStartTime (Env.now env)
                      (NPC.set_usingItem true n)) in
        <[self := Heap.Npc n]> (<[item := Heap.Functional f]> h)
      else h
  | _, _ => h
  end.

Definition completeItemUse (h : Heap.t) (self : positive) : Heap.t :=
  match Heap.npc h self with
  | Some n =>
      let item := NPC.targetItem n ≫= Heap.item h in
      <[self := Heap.Npc (NPC.completeItemUse item n)]> h
  | None => h
  end.

(** [update], lines 130-137 *)
Definition itemUseBlock (env : Env.t) (h : Heap.t) (self : positive) : Heap.t :=
  match Heap.npc h self with
  | Some n =>
      match NPC.usingItem n, NPC.targetItem n with
      | true, Some target =>
          match Heap.item h target with
          | Some f =>
              let useDelta :=
                inject_Z (Env.now env - NPC.useStartTime n) / 1000 in
              let '(f, complete) := FunctionalItem.updateUse f useDelta in
              let h := <[target := Heap.Functional f]> h in
              if complete then completeItemUse h self else h
          | None => h
          end
      | _, _ => h
      end
  | None => h
  end.

(** [update], lines 139-163 *)
Definition movementBlock (env : Env.t) (h : Heap.t) (self : positive) : Heap.t :=
  match Heap.npc h self with
  | Some n =>
      if NPC.isMoving n && negb (NPC.usingItem n) then
        let '(n, arrived) := NPC.moveStep env n in
        let h := <[self := Heap.Npc n]> h in
        if arrived then
          match NPC.targetItem n with
          | Some target =>
              match Heap.entity h target with
              | Some e =>
                  if Entity.isAtPosition (NPC.ent n)
                       (Entity.tileX e) (Entity.tileY e)
                  then startUsingItem env h self target
                  else h
              | None => h
              end
          | None => h
          end
        else h
      else h
  | None => h
  end.

(** [update], lines 175-183 *)
Definition aiBlock (env : Env.t) (ai : positive -> Heap.t -> Heap.t)
    (h : Heap.t) (self : positive) : Heap.t :=
  match Heap.npc h self with
  | Some n =>
      if (NPC.aiInterval n <? Env.now env - NPC.lastAITime n)%Z
         && negb (NPC.isMoving n) && negb (NPC.usingItem n)
      then
        let h := ai self h in
        match Heap.npc h self with
        | Some n => <[self := Heap.Npc (NPC.set_lastAITime (Env.now env) n)]> h
        | None => h
        end
      else h
  | None => h
  end.




(** [update(deltaTime)] *)
Definition update (env : Env.t) (ai : positive -> Heap.t -> Heap.t)
    (h : Heap.t) (self : positive) (deltaTime : Q) : Heap.t :=
  match Heap.npc h self with
  | Some n =>
      if negb (Entity.active (NPC.ent n)) then h
      else
        let n :=
          match NPC.needs n, NPC.needsSystem n with
          | Some _, Some _ => n
          | _, _ => NPC.initializeNeeds (Env.needsSystem env) n
          end in
        let n := NPC.updateNeedsBlock env deltaTime n in
        let h := <[self := Heap.Npc n]> h in
        let h := itemUseBlock env h self in
        let h := movementBlock env h self in
        let h :=
          match Heap.npc h self with
          | Some n => <[self := Heap.Npc (NPC.animationBlock env n)]> h
          | None => h
          end in
        aiBlock env ai h self
  | None => h
  end.

End Agent.

(** ** Entity index ([js/entity-manager.js]) *)

(** A [Map] in insertion order. *)
Module JsMap.
Section map.
Context {K V : Type} `{EqDecision K}.

Definition t : Type := list (K * V).

Fixpoint get (m : t) (k : K) : option V :=
  match m with
  | [] => None
  | (k', v) :: rest => if decide (k' = k) then Some v else get rest k
  end.

(** [set] keeps the position of a key that is present and appends a new
    one. *)
Fixpoint set (m : t) (k : K) (v : V) : t :=
  match m with
  | [] => [(k, v)]
  | (k', v') :: rest =>
      if decide (k' = k) then (k', v) :: rest else (k', v') :: set rest k v
  end.

Fixpoint delete (m : t) (k : K) : t :=
  match m with
  | [] => []
  | (k', v') :: rest =>
      if decide (k' = k) then rest else (k', v') :: delete rest k
  end.

Definition values (m : t) : list V := map snd m.

End map.
Arguments t : clear implicits.
End JsMap.

(** A [Set] of entities in insertion order, as the list of their
    references. *)
Module JsSet.

Definition t : Type := list positive.

Definition add (s : t) (r : positive) : t :=
  if bool_decide (r ∈ s) then s else s ++ [r].

Definition delete (s : t) (r : positive) : t :=
  filter (fun r' => r' ≠ r) s.

Definition has (s : t) (r : positive) : bool := bool_decide (r ∈ s).

End JsSet.

(** The key [`${x},${y}`] of a position bucket is the pair of the two
    integers. *)
Module EntityManager.

Record t := mk {
  entities : JsMap.t string positive;
  entitiesByType : JsMap.t string JsSet.t;
  entitiesByPosition : JsMap.t (Z * Z) JsSet.t
}.

Definition set_entities (v : JsMap.t string positive) (self : t) : t :=
  mk v (entitiesByType self) (entitiesByPosition self).
Definition set_entitiesByType (v : JsMap.t string JsSet.t) (self : t) : t :=
  mk (entities self) v (entitiesByPosition self).
Definition set_entitiesByPosition (v : JsMap.t (Z * Z) JsSet.t) (self : t) : t :=
  mk (entities self) (entitiesByType self) v.

(** [constructor()] *)
Definition new : t := mk [] [] [].

Definition indexEntityPosition (self : t) (entity : Entity.t) (r : positive)
    : t :=
  let key := (Entity.tileX entity, Entity.tileY entity) in
  let bucket := default [] (JsMap.get (entitiesByPosition self) key) in
  set_entitiesByPosition
    (JsMap.set (entitiesByPosition self) key (JsSet.add bucket r)) self.

Definition unindexEntityPosition (self : t) (entity : Entity.t) (r : positive)
    : t :=
  let key := (Entity.tileX entity, Entity.tileY entity) in
  match JsMap.get (entitiesByPosition self) key with
  | Some set =>
      let set := JsSet.delete set r in
      if (length set =? 0)%nat
      then set_entitiesByPosition (JsMap.delete (entitiesByPosition self) key) self
      else set_entitiesByPosition (JsMap.set (entitiesByPosition self) key set) self
  | None => self
  end.

Definition updateEntityPosition (self : t) (entity : Entity.t) (r : positive)
    : t :=
  let oldKey := (Qfloor (Entity.pixelX entity / 32),
                 Qfloor (Entity.pixelY entity / 32)) in
  let newKey := (Entity.tileX entity, Entity.tileY entity) in
  if bool_decide (oldKey ≠ newKey)
  then indexEntityPosition (unindexEntityPosition self entity r) entity r
  else self.

(** [add(entity)]; the entity is the object at [r].  The [id] it
    returns is the entity's own and is not modelled. *)
Definition add (h : Heap.t) (self : t) (r : positive) : t :=
  match Heap.entity h r with
  | Some entity =>
      let self := set_entities (JsMap.set (entities self) (Entity.id entity) r)
                    self in
      let type := Entity.type entity in
      let bucket := default [] (JsMap.get (entitiesByType self) type) in
      let self := set_entitiesByType
                    (JsMap.set (entitiesByType self) type (JsSet.add bucket r))
                    self in
      indexEntityPosition self entity r
  | None => self
  end.

(** [remove(id)] *)
Definition remove (h : Heap.t) (self : t) (id : string) : t :=
  match JsMap.get (entities self) id with
  | Some r =>
      match Heap.entity h r with
      | Some entity =>
          let self := set_entities (JsMap.delete (entities self) id) self in
          let self :=
            match JsMap.get (entitiesByType self) (Entity.type entity) with
            | Some typeSet =>
                set_entitiesByType
                  (JsMap.set (entitiesByType self) (Entity.type entity)
                     (JsSet.delete typeSet r)) self
            | None => self
            end in
          unindexEntityPosition self entity r
      | None => self
      end
  | None => self
  end.

Definition get (self : t) (id : string) : option positive :=
  JsMap.get (entities self) id.

Definition getAll (self : t) : list positive := JsMap.values (entities self).

Definition getByType (self : t) (type : string) : list positive :=
  default [] (JsMap.get (entitiesByType self) type).

Definition getAtPosition (self : t) (x y : Z) : list positive :=
  default [] (JsMap.get (entitiesByPosition self) (x, y)).

Definition getInteractableAt (h : Heap.t) (self : t) (x y : Z)
    : option positive :=
  find (fun r =>
          match Heap.entity h r with
          | Some e => Entity.interactable e && Entity.active e
          | None => false
          end)
       (getAtPosition self x y).

(** [entity.update(deltaTime)], by the class of the object: an agent
    runs [NPC.update]; the [update] of [Item] only bobs, and that of
    [Entity] is empty. *)
Definition entityUpdate (env : Env.t) (ai : positive -> Heap.t -> Heap.t)
    (h : Heap.t) (r : positive) (deltaTime : Q) : Heap.t :=
  match h !! r with
  | Some (Heap.Npc _) => Agent.update env ai h r deltaTime
  | _ => h
  end.

(** The loop of [update] over [entities.values()]. *)
Fixpoint updateLoop (env : Env.t) (ai : t -> positive -> Heap.t -> Heap.t)
    (deltaTime : Q) (rs : list positive) (h : Heap.t) (self : t)
    (toRemove : list string) : Heap.t * t * list string :=
  match rs with
  | [] => (h, self, toRemove)
  | r :: rs =>
      match Heap.entity h r with
      | Some entity =>
          if Entity.markedForRemoval entity then
            updateLoop env ai deltaTime rs h self
              (toRemove ++ [Entity.id entity])
          else if Entity.active entity then
            let h := entityUpdate env (ai self) h r deltaTime in
            let self :=
              match Heap.entity h r with
              | Some entity => updateEntityPosition self entity r
              | None => self
              end in
            updateLoop env ai deltaTime rs h self toRemove
          else updateLoop env ai deltaTime rs h self toRemove
      | None => updateLoop env ai deltaTime rs h self toRemove
      end
  end.

(** [update(deltaTime)] *)
Definition update (env : Env.t) (ai : t -> positive -> Heap.t -> Heap.t)
    (h : Heap.t) (self : t) (deltaTime : Q) : Heap.t * t :=
  let '(h, self, toRemove) :=
    updateLoop env ai deltaTime (getAll self) h self [] in
  (h, fold_left (remove h) toRemove self).

Definition clear (self : t) : t := mk [] [] [].

(** [e.serialize()] and [entity.deserialize(entityData)], by the class of
    the object. *)
Definition serializeEntity (o : Heap.obj) : Data.t :=
  match o with
  | Heap.Npc n => NPC.serialize n
  | Heap.Functional f => FunctionalItem.serialize f
  | Heap.Plain e => Entity.serialize e
  end.

Definition deserializeEntity (o : Heap.obj) (data : Data.t) : Heap.obj :=
  match o with
  | Heap.Npc n => Heap.Npc (NPC.deserialize n data)
  | Heap.Functional f => Heap.Functional (FunctionalItem.deserialize f data)
  | Heap.Plain e => Heap.Plain (Entity.deserialize e data)
  end.

(** [serialize()] *)
Definition serialize (h : Heap.t) (self : t) : list Data.t :=
  map serializeEntity
    (List.filter (fun o => negb (Entity.markedForRemoval (Heap.ent o)))
       (omap (fun r => h !! r) (getAll self))).

(** The loop of [deserialize]; the factory gets the number of the call,
    since every object it constructs draws a new [id]. *)
Fixpoint deserializeLoop (entityFactory : nat -> Data.t -> option Heap.obj)
    (i : nat) (data : list Data.t) (h : Heap.t) (self : t) : Heap.t * t :=
  match data with
  | [] => (h, self)
  | entityData :: data =>
      match entityFactory i entityData with
      | Some entity =>
          let '(h, r) := Heap.alloc h (deserializeEntity entity entityData) in
          deserializeLoop entityFactory (S i) data h (add h self r)
      | None => deserializeLoop entityFactory (S i) data h self
      end
  end.

(** [deserialize(data, entityFactory)] *)
Definition deserialize (h : Heap.t) (self : t) (data : list Data.t)
    (entityFactory : nat -> Data.t -> option Heap.obj) : Heap.t * t :=
  deserializeLoop entityFactory 0 data h (clear self).

End EntityManager.

(** ** The map renderer: the part that drives the index *)

(** [new Item(x, y, name)], as far as [Entity] goes. *)
Module Item.
Definition new (id : string) (x y : Z) (name : string) : Entity.t :=
  Entity.set_interactable true (Entity.set_name name (Entity.new id x y "item")).
End Item.

(** Of the renderer only the map size, the index and the item selection
    are kept; the canvas, the camera and the tile layers are left out. *)
Module MapRenderer.

Record t := mk {
  mapWidth : Z;
  mapHeight : Z;
  entityManager : EntityManager.t;
  selectedItemDef : option string;
  customItemSprite : option Sprite.t
}.

Definition set_entityManager (v : EntityManager.t) (self : t) : t :=
  mk (mapWidth self) (mapHeight self) v (selectedItemDef self)
    (customItemSprite self).

(** [canMoveTo(x, y)]: the bounds check. *)
Definition canMoveTo (self : t) (x y : Z) : bool :=
  negb ((x <? 0)%Z || (mapWidth self <=? x)%Z
        || (y <? 0)%Z || (mapHeight self <=? y)%Z).

(** The factory [loadMap] hands to [deserialize].  What a constructor
    draws at random (the [id], an agent's personality) is given by the
    number of the call. *)
Definition entityFactory (ids : nat -> string)
    (personalities : nat -> Personality.t)
    (window_needsSystem : option NeedsSystem.t)
    (i : nat) (data : Data.t) : option Heap.obj :=
  let x := default 0%Z (Data.tileX data) in
  let y := default 0%Z (Data.tileY data) in
  match Data.type data with
  | Some type =>
      if String.eqb type "npc" then
        Some (Heap.Npc (NPC.new (ids i) window_needsSystem (personalities i)
                          x y (str_or (Data.name data) "NPC")))
      else if String.eqb type "functional" then
        match Data.itemDef data with
        | Some itemDef =>
            Some (Heap.Functional
                    (FunctionalItem.new (ids i) x y
                       (str_or (Data.name data) "Item") (Some itemDef)))
        | None =>
            Some (Heap.Plain (Item.new (ids i) x y
                                (str_or (Data.name data) "Item")))
        end
      else if String.eqb type "item" then
        Some (Heap.Plain (Item.new (ids i) x y (str_or (Data.name data) "Item")))
      else
        Some (Heap.Plain (Entity.new (ids i) x y
                            (str_or (Data.type data) "entity")))
  | None =>
      Some (Heap.Plain (Entity.new (ids i) x y "entity"))
  end.

(** [cycleTimeSpeed()], on the clock it is given. *)
Definition cycleTimeSpeed (timeSystem : TimeSystem.t) : TimeSystem.t :=
  let speeds : list Q := [1; 2; 5; 10; 30; 60] in
  let currentSpeed := TimeSystem.getTimeScale timeSystem in
  let currentIndex := list_find (fun s => Qleb currentSpeed s = true) speeds in
  let nextIndex :=
    match currentIndex with
    | Some (i, _) => if (i <? length speeds - 1)%nat then S i else O
    | None => O
    end in
  match speeds !! nextIndex with
  | Some nextSpeed => TimeSystem.setTimeScale timeSystem nextSpeed
  | None => timeSystem
  end.

(** [update(deltaTime)]: the clock first, then the entities, which read
    the clock as it is after its update.  The player is left out. *)
Definition update (env : Env.t)
    (ai : EntityManager.t -> positive -> Heap.t -> Heap.t)
    (h : Heap.t) (self : t) (deltaTime : Q) : Env.t * Heap.t * t :=
  let env :=
    match Env.timeSystem env with
    | Some timeSystem =>
        Env.mk (Env.now env) (Some (TimeSystem.update timeSystem deltaTime))
          (Env.needsSystem env) (Env.Math_sqrt env)
    | None => env
    end in
  let '(h, index) := EntityManager.update env ai h (entityManager self) deltaTime in
  (env, h, set_entityManager index self).

End MapRenderer.

(** ** The agent's decisions ([js/npc.js], lines 186-625) *)

(** The methods that consult [window.mapRenderer] (which may be unset)
    and draw from [Math.random].  A method that would raise a
    [TypeError] returns [None]: that happens when an entity indexed as
    ['functional'] or ['npc'] is not an object of that class, as after
    loading a functional entry that has no [itemDef].  The calls to the
    activity logger are left out. *)
Module AgentAI.


Definition directions : list (Z * Z) :=
  [(0, 1); (-1, 0); (1, 0); (0, -1)]%Z.

(** [getDistance(target)] of [Entity], on tile coordinates. *)
Definition getDistance (env : Env.t) (self target : Entity.t) : Q :=
  let dx := (Entity.tileX self - Entity.tileX target)%Z in
  let dy := (Entity.tileY self - Entity.tileY target)%Z in
  Env.Math_sqrt env (inject_Z (dx * dx + dy * dy)).

(** [e.type === 'functional' && e.inUse]; only a functional item has
    the field [inUse]. *)
Definition blocking (h : Heap.t) (r : positive) : bool :=
  match h !! r with
  | Some (Heap.Functional f) =>
      String.eqb (Entity.type (FunctionalItem.ent f)) "functional"
      && FunctionalItem.inUse f
  | _ => false
  end.

(** [canMoveTo(x, y)] *)
Definition canMoveTo (renderer : option MapRenderer.t) (h : Heap.t)
    (x y : Z) : bool :=
  match renderer with
  | None => false
  | Some mapRenderer =>
      if (x <? 0)%Z || (MapRenderer.mapWidth mapRenderer <=? x)%Z
         || (y <? 0)%Z || (MapRenderer.mapHeight mapRenderer <=? y)%Z
      then false
      else
        let entitiesAtPos :=
          EntityManager.getAtPosition (MapRenderer.entityManager mapRenderer)
            x y in
        let blockingEntities := List.filter (blocking h) entitiesAtPos in
        if (0 <? length blockingEntities)%nat then false else true
  end.


(** The loop of [findItemForNeed]; [bestDistance] starts at [Infinity],
    which is [None]. *)
Fixpoint findItemLoop (env : Env.t) (h : Heap.t) (this : Entity.t)
    (needType : string) (allItems : list positive)
    (bestItem : option positive) (bestDistance : option Q)
    : option (option positive) :=
  match allItems with
  | [] => Some bestItem
  | r :: allItems =>
      match h !! r with
      | Some (Heap.Functional item) =>
          if FunctionalItem.canSatisfy item needType
             && FunctionalItem.isAvailable item
          then
            let distance := getDistance env this (FunctionalItem.ent item) in
            if match bestDistance with
               | Some best => Qltb distance best
               | None => true
               end
            then findItemLoop env h this needType allItems
                   (Some r) (Some distance)
            else findItemLoop env h this needType allItems
                   bestItem bestDistance
          else findItemLoop env h this needType allItems bestItem bestDistance
      | _ => None
      end
  end.

(** [findItemForNeed(needType)] *)
Definition findItemForNeed (env : Env.t) (renderer : option MapRenderer.t)
    (h : Heap.t) (self : positive) (needType : string)
    : option (option positive) :=
  match renderer, Heap.entity h self with
  | Some mapRenderer, Some this =>
      findItemLoop env h this needType
        (EntityManager.getByType (MapRenderer.entityManager mapRenderer)
           "functional")
        None None
  | _, _ => Some None
  end.


(** [wander()]; [shuffled] is the direction list after the random
    sort. *)
Definition wander (env : Env.t) (renderer : option MapRenderer.t)
    (shuffled : list (Z * Z)) (h : Heap.t) (self : positive) : Heap.t :=
  match Heap.npc h self with
  | Some n =>
      let x := Entity.tileX (NPC.ent n) in
      let y := Entity.tileY (NPC.ent n) in
      match List.find (fun dir => canMoveTo renderer h (x + dir.1) (y + dir.2))
                      shuffled with
      | Some dir =>
          <[self := Heap.Npc (NPC.moveTo env n (x + dir.1) (y + dir.2))]> h
      | None => h
      end
  | None => h
  end.






End AgentAI.

(** ** Activity log *)

(** The message and its kind are kept, the [data] object of an entry is
    left out; a listener is identified by a number, and what it is
    called with is appended to [calls]: [Some entry], or [None] for the
    notice of a clear. *)
Module LogEntry.
Record t := mk { timestamp : Z; time : string; message : string; type : string }.
End LogEntry.

Module ActivityLogger.

Record t := mk {
  entries : list LogEntry.t;
  maxEntries : nat;
  listeners : list nat;
  calls : list (nat * option LogEntry.t)
}.

(** [constructor(maxEntries = 50)] *)
Definition new (maxEntries : nat) : t := mk [] maxEntries [] [].

(** [log(message, type)] *)
Definition log (env : Env.t) (self : t) (message type : string) : t :=
  let entry :=
    LogEntry.mk (Env.now env)
      (match Env.timeSystem env with
       | Some timeSystem => TimeSystem.getFormattedTime timeSystem
       | None => ""
       end)
      message type in
  let entries := entries self ++ [entry] in
  let entries :=
    if (maxEntries self <? length entries)%nat then tail entries else entries in
  mk entries (maxEntries self) (listeners self)
     (calls self ++ map (fun listener => (listener, Some entry)) (listeners self)).

Definition addListener (self : t) (callback : nat) : t :=
  mk (entries self) (maxEntries self) (listeners self ++ [callback]) (calls self).

(** [removeListener(callback)]: the first occurrence goes. *)
Fixpoint removeFirst (callback : nat) (l : list nat) : list nat :=
  match l with
  | [] => []
  | x :: l => if (x =? callback)%nat then l else x :: removeFirst callback l
  end.

Definition removeListener (self : t) (callback : nat) : t :=
  mk (entries self) (maxEntries self) (removeFirst callback (listeners self))
     (calls self).

Definition clear (self : t) : t :=
  mk [] (maxEntries self) (listeners self)
     (calls self ++ map (fun listener => (listener, None)) (listeners self)).

(** [getRecent(count)]: [entries.slice(-count)], where [-0] is [0]. *)
Definition getRecent (self : t) (count : Z) : list LogEntry.t :=
  let len := Z.of_nat (length (entries self)) in
  let start :=
    if (0 <? count)%Z then Z.max (len - count) 0
    else Z.min (- count) len in
  drop (Z.to_nat start) (entries self).

End ActivityLogger.

(** ** Sequences of calls and invariants *)

(** Every relationship record an agent holds is within [-100, 100]. *)
Definition relationships_bounded (n : NPC.t) : Prop :=
  forall id rel, NPC.relationships n !! id = Some rel ->
    -100 <= Relationship.value rel <= 100.

(** Every agent in the heap keeps its relationship records within
    bounds. *)


(** A sequence of [updateRelationship] calls, each with its own clock
    reading, partner and change. *)
Definition updateRelationships (self : NPC.t)
    (updates : list (Env.t * string * Q)) : NPC.t :=
  fold_left (fun n '(env, other, change) =>
               NPC.updateRelationship env n other change)
            updates self.

(** The priority is the one the decay loops compute. *)
Definition priority_recomputed (need : Need.t) : Prop :=
  Need.priority need == 1 - Need.value need / Need.max need.

(** One entry of a needs set before and after a decay step over
    [elapsed] seconds, whatever its value was: the value ends at or
    above 0 and the priority is recomputed (the division needs a [max]
    other than 0 to give a number); a value that was not negative does
    not rise, and stays when no time has passed; a value that was
    negative is lifted to 0. *)
Definition decayed_entry (elapsed : Q) (before after : string * Need.t)
    : Prop :=
  after.1 = before.1 /\
  Need.max after.2 = Need.max before.2 /\
  0 <= Need.value after.2 /\
  (~ Need.max before.2 == 0 -> priority_recomputed after.2) /\
  (0 <= Need.value before.2 ->
   Need.value after.2 <= Need.value before.2 /\
   (elapsed == 0 -> Need.value after.2 == Need.value before.2)) /\
  (Need.value before.2 < 0 -> Need.value after.2 == 0).


(** The calls an item receives from the agents. *)
Module ItemCall.
Inductive t :=
  | startUse (entityId : string)
  | updateUse (deltaTime : Q)
  | stopUse.
End ItemCall.

Definition itemCall (item : FunctionalItem.t) (call : ItemCall.t)
    : FunctionalItem.t :=
  match call with
  | ItemCall.startUse entityId => fst (FunctionalItem.startUse item entityId)
  | ItemCall.updateUse deltaTime => fst (FunctionalItem.updateUse item deltaTime)
  | ItemCall.stopUse => FunctionalItem.stopUse item
  end.

Definition itemCalls (item : FunctionalItem.t) (calls : list ItemCall.t)
    : FunctionalItem.t :=
  fold_left itemCall calls item.

(** An item is in use by a recorded occupant, or available with none
    and no time on its clock. *)
Definition occupancy_consistent (item : FunctionalItem.t) : Prop :=
  (FunctionalItem.inUse item = true /\ is_Some (FunctionalItem.usedBy item)) \/
  (FunctionalItem.inUse item = false /\ FunctionalItem.usedBy item = None /\
   FunctionalItem.useTime item = 0).

(** ** Sample states *)

(** The states the examples below run the methods on. *)
Module Sample.

(** A square root that is exact on the squares of rationals, which is
    all a walk along one axis asks of [Math.sqrt]. *)
Definition sqrt (q : Q) : Q :=
  match Qnum q with
  | Zpos n => Zpos (Pos.sqrt n) # Pos.sqrt (Qden q)
  | _ => 0
  end.

Definition env (now : Z) : Env.t :=
  Env.mk now (Some TimeSystem.new) (Some NeedsSystem.new) sqrt.

Definition item (defKey : string) (x y : Z) : FunctionalItem.t :=
  match ItemDefinitions.createItem "entity_2" defKey x y with
  | Some (Some item) => item
  | _ => FunctionalItem.new "entity_2" x y "Item" None
  end.

Definition agent (x y : Z) : NPC.t :=
  NPC.new "entity_1" (Some NeedsSystem.new)
    (Personality.mk (1#2) (1#4) (3#4)) x y "Ann".

Definition needs (hunger thirst sleep happiness social : Q) : NeedsSystem.Needs :=
  [ ("hunger", Need.mk hunger 100 (1 - hunger / 100));
    ("thirst", Need.mk thirst 100 (1 - thirst / 100));
    ("sleep", Need.mk sleep 100 (1 - sleep / 100));
    ("happiness", Need.mk happiness 100 (1 - happiness / 100));
    ("social", Need.mk social 100 (1 - social / 100)) ]%string.

(** An agent at the item at reference 2, using it for [needType]. *)
Definition user (needType : string) (needs : NeedsSystem.Needs) : NPC.t :=
  NPC.set_usingItem true
    (NPC.set_targetItem (Some 2%positive)
       (NPC.set_currentGoal (Some (Goal.mk "satisfy_need" needType 2))
          (NPC.set_needs (Some needs) (agent 3 0)))).

(** One agent, at reference 1, placed on tile (0, 0) and added to a
    fresh index, then sent to tile (1, 0) with [moveTo].  [walker_heap]
    is its state 39 frames later: each frame moved it 0.8 pixels to the
    right, it stands at pixel 31.2, still on tile (0, 0). *)
Definition walker : NPC.t :=
  let n := NPC.moveTo (env 0) (agent 0 0) 1 0 in
  NPC.set_ent (Entity.set_pixelX (156#5) (NPC.ent n)) n.

Definition walker_heap : Heap.t := {[ 1%positive := Heap.Npc walker ]}.

Definition walker_index : EntityManager.t :=
  EntityManager.add {[ 1%positive := Heap.Npc (agent 0 0) ]}
    EntityManager.new 1.

(** Frames of 16 ms: the index is updated once per frame. *)
Fixpoint frames (ai : EntityManager.t -> positive -> Heap.t -> Heap.t)
    (n : nat) (now : Z) (h : Heap.t) (index : EntityManager.t)
    : Heap.t * EntityManager.t :=
  match n with
  | O => (h, index)
  | S n =>
      let '(h, index) := EntityManager.update (env now) ai h index 16 in
      frames ai n (now + 16)%Z h index
  end.

End Sample.

(** ** Invariants of the needs set, the catalogue and the entity index *)

(** What holds of every entry of the catalogue. *)
Definition sound_definition (def : ItemDef.t) : Prop :=
  0 < ItemDef.useTime def /\
  Exists (fun e => 0 < e.2) (ItemDef.satisfies def) /\
  Forall (fun e => is_Some (JsObject.get
                              (NeedsSystem.needTypes NeedsSystem.new) e.1))
         (ItemDef.satisfies def) /\
  NoDup (JsObject.keys (ItemDef.satisfies def)).

(** The index holds no key twice, no entity twice in a bucket and no
    empty position bucket. *)
Definition index_wf (index : EntityManager.t) : Prop :=
  NoDup (map fst (EntityManager.entities index)) /\
  NoDup (map fst (EntityManager.entitiesByType index)) /\
  NoDup (map fst (EntityManager.entitiesByPosition index)) /\
  Forall (fun b => NoDup b.2) (EntityManager.entitiesByType index) /\
  Forall (fun b => NoDup b.2 /\ b.2 <> []) (EntityManager.entitiesByPosition index).

(** Every entry of the identity map leads to an entity that carries the
    key as its [id]. *)
Definition index_registered (h : Heap.t) (index : EntityManager.t) : Prop :=
  Forall (fun kr => exists e, Heap.entity h kr.2 = Some e /\ Entity.id e = kr.1)
         (EntityManager.entities index).

(** No entity of the index is an agent that is active. *)
Definition no_active_agent (h : Heap.t) (index : EntityManager.t) : Prop :=
  Forall (fun r => forall n, h !! r = Some (Heap.Npc n) ->
                             Entity.active (NPC.ent n) = false)
         (EntityManager.getAll index).

(** The [id]s [update] collects from the entities that are marked. *)
Definition marked_ids (h : Heap.t) (rs : list positive) : list string :=
  omap (fun r => match Heap.entity h r with
                 | Some e => if Entity.markedForRemoval e
                             then Some (Entity.id e) else None
                 | None => None
                 end) rs.

(** Every entity listed under a position stands on that tile, and every
    registered entity carries its key as [id] and is listed under its
    own tile and its own type. *)
Definition index_consistent (h : Heap.t) (index : EntityManager.t) : Prop :=
  (forall x y r, r ∈ EntityManager.getAtPosition index x y ->
     exists e, Heap.entity h r = Some e /\
               Entity.tileX e = x /\ Entity.tileY e = y) /\
  (forall id r, EntityManager.get index id = Some r ->
     exists e, Heap.entity h r = Some e /\ Entity.id e = id /\
               r ∈ EntityManager.getAtPosition index
                     (Entity.tileX e) (Entity.tileY e) /\
               r ∈ EntityManager.getByType index (Entity.type e)).

(** An item the agent could take for [needType]. *)
Definition qualifies (h : Heap.t) (needType : string) (r : positive) : bool :=
  match Heap.item h r with
  | Some f => FunctionalItem.canSatisfy f needType && FunctionalItem.isAvailable f
  | None => false
  end.

(** The distance [findItemForNeed] measures to the item at [r]. *)
Definition item_distance (env : Env.t) (h : Heap.t) (this : Entity.t)
    (r : positive) : Q :=
  match Heap.item h r with
  | Some f => AgentAI.getDistance env this (FunctionalItem.ent f)
  | None => 0
  end.

(** What [findItemForNeed] returns on the items [rs]. *)
Definition nearest_of (env : Env.t) (h : Heap.t) (this : Entity.t)
    (needType : string) (rs : list positive) (result : option positive) : Prop :=
  match result with
  | Some r =>
      r ∈ rs /\ qualifies h needType r = true /\
      forall r', r' ∈ rs -> qualifies h needType r' = true ->
                 item_distance env h this r <= item_distance env h this r'
  | None => Forall (fun r => qualifies h needType r = false) rs
  end.

(** What a talk, a need update or an animation step leaves alone: where
    the agent stands, whether it uses an item, what it is after and
    whether it walks. *)
Definition same_state (n n' : NPC.t) : Prop :=
  NPC.ent n' = NPC.ent n /\ NPC.usingItem n' = NPC.usingItem n /\
  NPC.targetItem n' = NPC.targetItem n /\
  NPC.currentGoal n' = NPC.currentGoal n /\
  NPC.isMoving n' = NPC.isMoving n.

(** What a decision of the agent at [self] leaves alone: every object
    that is not an agent, of every agent the entity fields and
    [usingItem], and of every other agent its goal and its movement as
    well. *)
Definition decision_frame (self : positive) (h h' : Heap.t) : Prop :=
  (forall r, Heap.npc h r = None -> h' !! r = h !! r) /\
  (forall r n, Heap.npc h r = Some n ->
     exists n', Heap.npc h' r = Some n' /\
                NPC.ent n' = NPC.ent n /\
                NPC.usingItem n' = NPC.usingItem n /\
                (r <> self -> same_state n n')).

(** An agent that is using an item holds the item it is after: the item
    is in use, by this agent. *)
Definition holds_item (h : Heap.t) (n : NPC.t) : Prop :=
  NPC.usingItem n = true ->
  exists t f, NPC.targetItem n = Some t /\ Heap.item h t = Some f /\
              FunctionalItem.inUse f = true /\
              FunctionalItem.usedBy f = Some (Entity.id (NPC.ent n)).

(** Every agent that uses an item holds it, and no two agents carry the
    same [id]. *)
Definition exclusive_use (h : Heap.t) : Prop :=
  (forall r n, Heap.npc h r = Some n -> holds_item h n) /\
  (forall r1 r2 n1 n2,
     Heap.npc h r1 = Some n1 -> Heap.npc h r2 = Some n2 ->
     Entity.id (NPC.ent n1) = Entity.id (NPC.ent n2) -> r1 = r2).

(** A small map for the decision methods. *)
Module Town.
(** An agent on tile (0, 0), a meal three tiles and an apple one tile to
    its right, on a map of 10 by 10 tiles. *)
Definition heap : Heap.t :=
  {[ 1%positive := Heap.Npc (Sample.agent 0 0);
     2%positive := Heap.Functional (Sample.item "meal" 3 0);
     3%positive :=
       Heap.Functional
         (FunctionalItem.new "entity_3" 1 0 "Apple"
            (JsObject.get ItemDefinitions.getDefinitions "apple")) ]}.

Definition index : EntityManager.t :=
  EntityManager.add heap
    (EntityManager.add heap (EntityManager.add heap EntityManager.new 1) 2) 3.

Definition renderer : MapRenderer.t := MapRenderer.mk 10 10 index None None.

End Town.

(** The frame, at 6 s, in which Ann's meal is over, and Bob and Cid,
    both sent to the apple on tile (1, 0) and both within one step of it,
    arrive there, Bob first. *)
Module Rush.

Definition apple : FunctionalItem.t :=
  FunctionalItem.new "entity_3" 1 0 "Apple"
    (JsObject.get ItemDefinitions.getDefinitions "apple").

(** An agent sent to the apple at reference 3 by [goToItem], now at
    pixel [pixelX] of the row of tile [x]. *)
Definition walker (id name : string) (x : Z) (pixelX : Q) : NPC.t :=
  let n := NPC.new id (Some NeedsSystem.new)
             (Personality.mk (1#2) (1#2) (1#2)) x 0 name in
  let n := NPC.set_currentGoal (Some (Goal.mk "satisfy_need" "hunger" 3)) n in
  let n := NPC.set_targetItem (Some 3%positive) n in
  let n := NPC.moveTo (Sample.env 0) n 1 0 in
  NPC.set_ent (Entity.set_pixelX pixelX (NPC.ent n)) n.

Definition heap : Heap.t :=
  {[ 1%positive := Heap.Npc (Sample.user "hunger" (Sample.needs 40 80 80 80 80));
     2%positive :=
       Heap.Functional
         (FunctionalItem.startUse (Sample.item "meal" 3 0) "entity_1").1;
     3%positive := Heap.Functional apple;
     4%positive := Heap.Npc (walker "entity_4" "Bob" 0 (157#5));
     5%positive := Heap.Npc (walker "entity_5" "Cid" 2 (163#5)) ]}.

Definition index : EntityManager.t :=
  fold_left (EntityManager.add heap) [1; 2; 3; 4; 5]%positive EntityManager.new.

(** The agents decide by [wander], trying the directions in the order
    they are listed in. *)
Definition ai (index : EntityManager.t) (self : positive) (h : Heap.t)
    : Heap.t :=
  AgentAI.wander (Sample.env 6000)
    (Some (MapRenderer.mk 10 10 index None None)) AgentAI.directions h self.

End Rush.

(** * Properties *)

(** ** Numbers and tables *)

Lemma Qltb_lt (x y : Q) : Qltb x y = true <-> x < y.
Proof.
  unfold Qltb. rewrite negb_true_iff. split.
  - intros H. apply Qnot_le_lt. intros Hle.
    apply Qle_bool_iff in Hle. congruence.
  - intros H. destruct (Qle_bool y x) eqn:E; [|reflexivity].
    apply Qle_bool_iff in E. exfalso. apply (Qlt_not_le _ _ H E).
Qed.

Lemma Qltb_ge (x y : Q) : Qltb x y = false <-> y <= x.
Proof.
  unfold Qltb. rewrite negb_false_iff. apply Qle_bool_iff.
Qed.

Lemma Qleb_le (x y : Q) : Qleb x y = true <-> x <= y.
Proof. apply Qle_bool_iff. Qed.

Lemma Qleb_gt (x y : Q) : Qleb x y = false <-> y < x.
Proof.
  unfold Qleb. split.
  - intros H. apply Qnot_le_lt. intros Hle.
    apply Qle_bool_iff in Hle. congruence.
  - intros H. destruct (Qle_bool x y) eqn:E; [|reflexivity].
    apply Qle_bool_iff in E. exfalso. apply (Qlt_not_le _ _ H E).
Qed.

Lemma Qmin_cases (x y : Q) :
  (x <= y /\ Qmin x y == x) \/ (y <= x /\ Qmin x y == y).
Proof. apply Q.min_spec_le. Qed.

Lemma Qmax_cases (x y : Q) :
  (x <= y /\ Qmax x y == y) \/ (y <= x /\ Qmax x y == x).
Proof. apply Q.max_spec_le. Qed.

Section JsObject_facts.
Context {V : Type}.
Implicit Types (o : JsObject.t V) (k : string) (f : V -> V).

Lemma get_alter_eq o k f :
  JsObject.get (JsObject.alter f k o) k = f <$> JsObject.get o k.
Proof.
  induction o as [|[k' v] o IH]; simpl; [reflexivity|].
  destruct (String.eqb k' k) eqn:E; simpl; rewrite E; auto.
Qed.

Lemma get_alter_ne o k k' f :
  k <> k' -> JsObject.get (JsObject.alter f k o) k' = JsObject.get o k'.
Proof.
  intros Hne. induction o as [|[k0 v] o IH]; simpl; [reflexivity|].
  destruct (String.eqb k0 k) eqn:E; simpl.
  - apply String.eqb_eq in E. subst k0.
    destruct (String.eqb k k') eqn:E'; [|reflexivity].
    apply String.eqb_eq in E'. contradiction.
  - destruct (String.eqb k0 k'); auto.
Qed.

Lemma alter_absent o k f : JsObject.get o k = None -> JsObject.alter f k o = o.
Proof.
  induction o as [|[k' v] o IH]; simpl; [reflexivity|].
  destruct (String.eqb k' k); [discriminate|].
  intros H. rewrite IH; auto.
Qed.

Lemma keys_alter o k f : JsObject.keys (JsObject.alter f k o) = JsObject.keys o.
Proof.
  unfold JsObject.keys.
  induction o as [|[k' v] o IH]; simpl; [reflexivity|].
  destruct (String.eqb k' k); simpl; congruence.
Qed.

Lemma get_Some_split o k v :
  JsObject.get o k = Some v ->
  exists pre post, o = pre ++ (k, v) :: post /\ JsObject.get pre k = None.
Proof.
  induction o as [|[k' v'] o IH]; simpl; [discriminate|].
  destruct (String.eqb k' k) eqn:E.
  - intros [= ->]. apply String.eqb_eq in E. subst k'.
    exists [], o. auto.
  - intros H. destruct (IH H) as (pre & post & -> & Hpre).
    exists ((k', v') :: pre), post. simpl. rewrite E. auto.
Qed.

End JsObject_facts.

(** ** Needs model *)

(** What [satisfyNeed] does to a kind that is present: the new value is
    [min(max, value + amount)], nothing else changes, and the value never
    exceeds [max]. *)
Lemma satisfyNeed_present sys needs needType amount need :
  JsObject.get needs needType = Some need ->
  JsObject.get (NeedsSystem.satisfyNeed sys needs needType amount) needType
  = Some (Need.mk (Qmin (Need.max need) (Need.value need + amount))
                  (Need.max need) (Need.priority need)).
Proof.
  intros H. unfold NeedsSystem.satisfyNeed. rewrite H.
  rewrite get_alter_eq, H. reflexivity.
Qed.

Lemma satisfyNeed_other sys needs needType amount k :
  needType <> k ->
  JsObject.get (NeedsSystem.satisfyNeed sys needs needType amount) k
  = JsObject.get needs k.
Proof.
  intros Hne. unfold NeedsSystem.satisfyNeed.
  destruct (JsObject.get needs needType); [|reflexivity].
  apply get_alter_ne; assumption.
Qed.

Lemma satisfyNeed_le_max sys needs needType amount need need' :
  JsObject.get needs needType = Some need ->
  JsObject.get (NeedsSystem.satisfyNeed sys needs needType amount) needType
  = Some need' ->
  Need.value need' <= Need.max need' /\ Need.max need' = Need.max need.
Proof.
  intros H H'. rewrite (satisfyNeed_present _ _ _ _ _ H) in H'.
  injection H' as <-. simpl. split; [apply Q.le_min_l | reflexivity].
Qed.

(** The value stays at or above 0 only when the amount does not exceed
    what is left. *)
Lemma satisfyNeed_nonneg sys needs needType amount need need' :
  JsObject.get needs needType = Some need ->
  0 <= Need.max need -> 0 <= Need.value need + amount ->
  JsObject.get (NeedsSystem.satisfyNeed sys needs needType amount) needType
  = Some need' ->
  0 <= Need.value need'.
Proof.
  intros H Hmax Hsum H'. rewrite (satisfyNeed_present _ _ _ _ _ H) in H'.
  injection H' as <-. simpl. apply Q.min_glb; assumption.
Qed.

(** C1, at the input where the code departs from it: an agent whose
    sleep is at 5 of 100 finishes a coffee, whose table lists sleep at
    -10.  [satisfyNeed] stores [min(100, 5 - 10)]: the sleep value
    becomes -5, below 0.  The cap at [max] is there; the floor at 0,
    which [updateNeeds] applies, is missing. *)
Theorem satisfyNeed_negative_amount_below_zero :
  let needs := [("sleep"%string, Need.mk 5 100 (19#20))] in
  let needs' := NeedsSystem.satisfyNeed NeedsSystem.new needs "sleep" (-10) in
  exists need',
    JsObject.get needs' "sleep" = Some need' /\
    Need.value need' == -5 /\
    Need.value need' < 0 /\
    ~ (0 <= Need.value need' <= Need.max need').
Proof.
  simpl. eexists. split; [reflexivity|]. simpl.
  split; [reflexivity|]. split; [reflexivity|].
  intros [H _]. apply (Qlt_not_le _ _ (eq_refl : (-5 < 0)%Q)). exact H.
Qed.

(** C10, at an input where the code departs from it: ['__proto__'] is
    not a kind a needs set holds, yet [needs['__proto__']] finds
    [Object.prototype], the guard of [satisfyNeed] passes, and the call
    writes [value = NaN] to [Object.prototype]; the needs set itself is
    left as it was.  For every kind the needs set does not hold the set
    is unchanged, and the call writes nothing anywhere exactly when the
    kind is not the name of an inherited member. *)
Theorem satisfyNeed_unknown_kind_writes_prototype :
  let needs := NeedsSystem.initializeNeeds NeedsSystem.new in
  JsObject.get needs "__proto__" = None /\
  NeedsSystem.satisfyNeed NeedsSystem.new needs "__proto__" 10 = needs /\
  NeedsSystem.satisfyNeed_stray needs "__proto__" = Some "__proto__"%string /\
  forall (sys : NeedsSystem.t) (needs : NeedsSystem.Needs)
         (needType : string) (amount : Q),
    JsObject.get needs needType = None ->
    NeedsSystem.satisfyNeed sys needs needType amount = needs /\
    (NeedsSystem.satisfyNeed_stray needs needType = None <->
     needType ∉ JsObject.inherited) /\
    (needType ∈ JsObject.inherited ->
     NeedsSystem.satisfyNeed_stray needs needType = Some needType).
Proof.
  cbv zeta. split; [reflexivity|]. split; [reflexivity|].
  split; [reflexivity|].
  intros sys needs needType amount H.
  unfold NeedsSystem.satisfyNeed, NeedsSystem.satisfyNeed_stray, JsObject.read.
  rewrite H. split; [reflexivity|].
  destruct (bool_decide (needType ∈ JsObject.inherited)) eqn:E.
  - apply bool_decide_eq_true in E. split; [|reflexivity].
    split; [discriminate | contradiction].
  - apply bool_decide_eq_false in E. split; [|contradiction].
    split; [intros _; exact E | reflexivity].
Qed.

(** *** The most urgent need *)

(** The loop either never replaces its running maximum, because no entry
    exceeds it, or ends on the first entry that carries the greatest
    priority. *)
Lemma urgentLoop_spec (entries : NeedsSystem.Needs) (m : Q) (u : option string) :
  (NeedsSystem.urgentLoop entries m u = (m, u) /\
   Forall (fun e => Need.priority e.2 <= m) entries)
  \/
  (exists pre k n post,
     entries = pre ++ (k, n) :: post /\
     NeedsSystem.urgentLoop entries m u = (Need.priority n, Some k) /\
     m < Need.priority n /\
     Forall (fun e => Need.priority e.2 < Need.priority n) pre /\
     Forall (fun e => Need.priority e.2 <= Need.priority n) post).
Proof.
  revert m u. induction entries as [|[k n] rest IH]; intros m u; simpl.
  - left. split; [reflexivity | constructor].
  - destruct (Qltb m (Need.priority n)) eqn:E.
    + apply Qltb_lt in E. right.
      destruct (IH (Need.priority n) (Some k)) as [[Heq Hall] | Hex].
      * exists [], k, n, rest. simpl.
        split; [reflexivity|]. split; [exact Heq|]. split; [exact E|].
        split; [constructor | exact Hall].
      * destruct Hex as (pre & k' & n' & post & -> & Heq & Hlt & Hpre & Hpost).
        exists ((k, n) :: pre), k', n', post. simpl.
        split; [reflexivity|]. split; [exact Heq|].
        split; [eapply Qlt_trans; eassumption|].
        split; [|exact Hpost].
        constructor; [exact Hlt | exact Hpre].
    + apply Qltb_ge in E.
      destruct (IH m u) as [[Heq Hall] | Hex].
      * left. split; [exact Heq|]. constructor; [exact E | exact Hall].
      * right.
        destruct Hex as (pre & k' & n' & post & -> & Heq & Hlt & Hpre & Hpost).
        exists ((k, n) :: pre), k', n', post. simpl.
        split; [reflexivity|]. split; [exact Heq|]. split; [exact Hlt|].
        split; [|exact Hpost].
        constructor; [|exact Hpre]. simpl.
        eapply Qle_lt_trans; eassumption.
Qed.


(** Two entries that both carry the greatest priority and have only
    strictly smaller ones before them are the same entry. *)
Lemma first_greatest_unique (pre pre' post post' : NeedsSystem.Needs)
    (k k' : string) (n n' : Need.t) :
  pre ++ (k, n) :: post = pre' ++ (k', n') :: post' ->
  Forall (fun e => Need.priority e.2 < Need.priority n) pre ->
  Forall (fun e => Need.priority e.2 <= Need.priority n) post ->
  Forall (fun e => Need.priority e.2 < Need.priority n') pre' ->
  Forall (fun e => Need.priority e.2 <= Need.priority n') post' ->
  k = k'.
Proof.
  revert pre'. induction pre as [|e pre IH]; intros [|e' pre'] Heq Hpre Hpost Hpre' Hpost';
    simpl in Heq.
  - congruence.
  - injection Heq as <- Hrest. subst post.
    apply Forall_cons in Hpre' as [He' _]. simpl in He'.
    apply Forall_app in Hpost as [_ Hpost].
    apply Forall_cons in Hpost as [Hn' _]. simpl in Hn'.
    exfalso. apply (Qlt_not_le _ _ He' Hn').
  - injection Heq as -> Hrest. subst post'.
    apply Forall_cons in Hpre as [He _]. simpl in He.
    apply Forall_app in Hpost' as [_ Hpost'].
    apply Forall_cons in Hpost' as [Hn _]. simpl in Hn.
    exfalso. apply (Qlt_not_le _ _ He Hn).
  - injection Heq as <- Hrest.
    apply Forall_cons in Hpre as [_ Hpre].
    apply Forall_cons in Hpre' as [_ Hpre'].
    eapply IH; eauto.
Qed.

(** C3: [getMostUrgentNeed] returns [null] exactly when no need has a
    priority above 0.3; otherwise it returns the key of an entry whose
    priority is the greatest of all, and every entry enumerated before it
    has a strictly smaller priority, so among equals the first wins.
    Being a function of the needs set, the answer is the same for the
    same snapshot. *)
Theorem getMostUrgentNeed_spec (sys : NeedsSystem.t) (needs : NeedsSystem.Needs) :
  (NeedsSystem.getMostUrgentNeed sys needs = None <->
   Forall (fun e => Need.priority e.2 <= 3#10) needs)
  /\
  (forall k, NeedsSystem.getMostUrgentNeed sys needs = Some k <->
     exists pre n post,
       needs = pre ++ (k, n) :: post /\
       3#10 < Need.priority n /\
       Forall (fun e => Need.priority e.2 < Need.priority n) pre /\
       Forall (fun e => Need.priority e.2 <= Need.priority n) post).
Proof.
  unfold NeedsSystem.getMostUrgentNeed.
  destruct (urgentLoop_spec needs 0 None) as [[Heq Hall] | Hex].
  - rewrite Heq. simpl. split.
    + split; [|reflexivity]. intros _.
      eapply Forall_impl; [exact Hall|]. simpl. intros e He.
      eapply Qle_trans; [exact He|]. discriminate.
    + intros k. split; [discriminate|].
      intros (pre & n & post & -> & Hgt & _).
      apply Forall_app in Hall as [_ Hall].
      apply Forall_cons in Hall as [Hn _]. simpl in Hn.
      exfalso. apply (Qlt_not_le _ _ Hgt).
      eapply Qle_trans; [exact Hn|]. discriminate.
  - destruct Hex as (pre & k & n & post & Hsplit & Heq & Hlt & Hpre & Hpost).
    rewrite Heq.
    destruct (Qltb (3#10) (Need.priority n)) eqn:E.
    + apply Qltb_lt in E. split.
      * split; [discriminate|]. intros Hall. subst needs.
        apply Forall_app in Hall as [_ Hall].
        apply Forall_cons in Hall as [Hn _]. simpl in Hn.
        exfalso. apply (Qlt_not_le _ _ E Hn).
      * intros k'. split.
        -- intros [= <-]. exists pre, n, post. auto.
        -- intros (pre' & n' & post' & Hsplit' & Hgt' & Hpre' & Hpost').
           f_equal. subst needs.
           eapply first_greatest_unique; eassumption.
    + apply Qltb_ge in E. split.
      * split; [|reflexivity]. intros _. subst needs.
        apply Forall_app. split.
        -- eapply Forall_impl; [exact Hpre|]. simpl. intros e He.
           apply Qlt_le_weak. eapply Qlt_le_trans; eassumption.
        -- constructor; [exact E|].
           eapply Forall_impl; [exact Hpost|]. simpl. intros e He.
           eapply Qle_trans; eassumption.
      * intros k'. split; [discriminate|].
        intros (pre' & n' & post' & Hsplit' & Hgt' & Hpre' & Hpost').
        exfalso. subst needs.
        assert (Hin : In (k', n') (pre ++ (k, n) :: post)).
        { rewrite Hsplit'. apply in_or_app. right. left. reflexivity. }
        assert (Hle : Need.priority n' <= Need.priority n).
        { apply in_app_or in Hin as [Hin | [Hin | Hin]].
          - rewrite Forall_forall in Hpre.
            apply Qlt_le_weak.
            apply (Hpre (k', n')). apply list_elem_of_In. exact Hin.
          - injection Hin as _ <-. apply Qle_refl.
          - rewrite Forall_forall in Hpost.
            apply (Hpost (k', n')). apply list_elem_of_In. exact Hin. }
        apply (Qlt_not_le _ _ Hgt').
        eapply Qle_trans; eassumption.
Qed.

Lemma getMostUrgentNeed_spec_witness :
  let needs := [("hunger"%string, Need.mk 100 100 0);
                ("thirst"%string, Need.mk 40 100 (3#5));
                ("sleep"%string, Need.mk 40 100 (3#5));
                ("social"%string, Need.mk 80 100 (1#5))] in
  NeedsSystem.getMostUrgentNeed NeedsSystem.new needs = Some "thirst"%string /\
  exists pre n post,
    needs = pre ++ ("thirst"%string, n) :: post /\
    3#10 < Need.priority n /\
    Forall (fun e => Need.priority e.2 < Need.priority n) pre /\
    Forall (fun e => Need.priority e.2 <= Need.priority n) post.
Proof.
  split; [reflexivity|].
  apply (proj2 (getMostUrgentNeed_spec NeedsSystem.new _) "thirst"%string).
  reflexivity.
Defined.

(** ** Time clock *)

Lemma getNeedDecayModifier_pos (ts : TimeSystem.t) (needType : string) :
  0 < TimeSystem.getNeedDecayModifier ts needType.
Proof.
  unfold TimeSystem.getNeedDecayModifier.
  repeat match goal with |- context [if ?b then _ else _] => destruct b end;
    reflexivity.
Qed.

(** At every clock state [isNighttime] holds exactly when the time is
    at or past the night threshold or before the dawn threshold: the
    first test of [getTimeOfDay] answers ['night'] there, and past it
    the cascade ends at ['dawn'] at the latest. *)
Lemma isNighttime_clock (ts : TimeSystem.t) :
  TimeSystem.isNighttime ts = true <->
  TimeSystem.night ts <= TimeSystem.currentTime ts \/
  TimeSystem.currentTime ts < TimeSystem.dawn ts.
Proof.
  unfold TimeSystem.isNighttime, TimeSystem.getTimeOfDay.
  destruct (Qleb (TimeSystem.night ts) (TimeSystem.currentTime ts)) eqn:E1.
  { apply Qleb_le in E1. cbn [orb]. split; [left; exact E1 | reflexivity]. }
  destruct (Qltb (TimeSystem.currentTime ts) (TimeSystem.dawn ts)) eqn:E2.
  { apply Qltb_lt in E2. cbn [orb]. split; [right; exact E2 | reflexivity]. }
  apply Qleb_gt in E1. apply Qltb_ge in E2. cbn [orb].
  assert (Hday : ~ (TimeSystem.night ts <= TimeSystem.currentTime ts \/
                    TimeSystem.currentTime ts < TimeSystem.dawn ts)).
  { intros [H|H]; [apply (Qlt_not_le _ _ E1 H) | apply (Qlt_not_le _ _ H E2)]. }
  destruct (Qleb (TimeSystem.evening ts) _);
    [split; [discriminate | contradiction]|].
  destruct (Qleb (TimeSystem.afternoon ts) _);
    [split; [discriminate | contradiction]|].
  destruct (Qleb (TimeSystem.noon ts) _);
    [split; [discriminate | contradiction]|].
  destruct (Qleb (TimeSystem.morning ts) _);
    [split; [discriminate | contradiction]|].
  destruct (Qleb (TimeSystem.dawn ts) _) eqn:E3;
    [split; [discriminate | contradiction]|].
  apply Qleb_gt in E3. exfalso. apply (Qlt_not_le _ _ E3 E2).
Qed.

(** C8: at every clock state, with night meaning that the time is at
    or past the night threshold or before the dawn threshold,
    [getNeedDecayModifier] returns 0.3 for sleep at night and 1.5
    otherwise, 0.7 for happiness and for social at night and 1
    otherwise, and 1 for hunger, for thirst and for any other kind at
    every time; [isNighttime] is that test on the clock. *)
Theorem getNeedDecayModifier_table (ts : TimeSystem.t) :
  let time := TimeSystem.currentTime ts in
  (TimeSystem.night ts <= time \/ time < TimeSystem.dawn ts ->
   TimeSystem.getNeedDecayModifier ts "sleep" = 3#10 /\
   TimeSystem.getNeedDecayModifier ts "happiness" = 7#10 /\
   TimeSystem.getNeedDecayModifier ts "social" = 7#10) /\
  (TimeSystem.dawn ts <= time < TimeSystem.night ts ->
   TimeSystem.getNeedDecayModifier ts "sleep" = 3#2 /\
   TimeSystem.getNeedDecayModifier ts "happiness" = 1 /\
   TimeSystem.getNeedDecayModifier ts "social" = 1) /\
  TimeSystem.getNeedDecayModifier ts "hunger" = 1 /\
  TimeSystem.getNeedDecayModifier ts "thirst" = 1 /\
  (forall kind : string,
     kind <> "sleep"%string -> kind <> "happiness"%string ->
     kind <> "social"%string ->
     TimeSystem.getNeedDecayModifier ts kind = 1) /\
  (TimeSystem.isNighttime ts = true <->
   TimeSystem.night ts <= time \/ time < TimeSystem.dawn ts) /\
  TimeSystem.getNeedDecayModifier ts "sleep"
    = (if TimeSystem.isNighttime ts then 3#10 else 3#2) /\
  TimeSystem.getNeedDecayModifier ts "happiness"
    = (if TimeSystem.isNighttime ts then 7#10 else 1) /\
  TimeSystem.getNeedDecayModifier ts "social"
    = (if TimeSystem.isNighttime ts then 7#10 else 1).
Proof.
  intros time. subst time.
  pose proof (isNighttime_clock ts) as Hnight.
  assert (Htable :
            TimeSystem.getNeedDecayModifier ts "sleep"
              = (if TimeSystem.isNighttime ts then 3#10 else 3#2) /\
            TimeSystem.getNeedDecayModifier ts "happiness"
              = (if TimeSystem.isNighttime ts then 7#10 else 1) /\
            TimeSystem.getNeedDecayModifier ts "social"
              = (if TimeSystem.isNighttime ts then 7#10 else 1)).
  { unfold TimeSystem.getNeedDecayModifier. simpl. repeat split. }
  destruct Htable as (Hs & Hh & Hc).
  split; [|split; [|split; [|split; [|split; [|split]]]]].
  - intros H. apply Hnight in H. rewrite Hs, Hh, Hc, H. repeat split.
  - intros [Hd Hn].
    assert (H : TimeSystem.isNighttime ts = false).
    { destruct (TimeSystem.isNighttime ts) eqn:E; [|reflexivity].
      exfalso. destruct (proj1 Hnight eq_refl) as [H|H];
        [apply (Qlt_not_le _ _ Hn H) | apply (Qlt_not_le _ _ H Hd)]. }
    rewrite Hs, Hh, Hc, H. repeat split.
  - reflexivity.
  - reflexivity.
  - intros kind H1 H2 H3. unfold TimeSystem.getNeedDecayModifier.
    apply String.eqb_neq in H1, H2, H3. rewrite H1, H2, H3.
    destruct (_ || _); reflexivity.
  - exact Hnight.
  - split; [exact Hs|]. split; [exact Hh | exact Hc].
Qed.

(** Night, as the clock of the constructor's thresholds tells it: from
    21:00 up to 6:00. *)
Lemma isNighttime_new_thresholds (time : Q) :
  TimeSystem.isNighttime (TimeSystem.set_currentTime time TimeSystem.new) = true
  <-> (21 * 60 <= time \/ time < 6 * 60).
Proof.
  unfold TimeSystem.isNighttime, TimeSystem.getTimeOfDay. simpl.
  destruct (Qleb (21 * 60) time) eqn:E1; simpl.
  - apply Qleb_le in E1. split; auto.
  - apply Qleb_gt in E1.
    destruct (Qltb time (6 * 60)) eqn:E2; simpl.
    + apply Qltb_lt in E2. split; auto.
    + apply Qltb_ge in E2.
      assert (Hno : ~ (21 * 60 <= time \/ time < 6 * 60)).
      { intros [H | H].
        - apply (Qlt_not_le _ _ E1 H).
        - apply (Qlt_not_le _ _ H E2). }
      repeat match goal with
             | |- context [if ?b then _ else _] =>
                 let E := fresh "E" in destruct b eqn:E
             end;
        split; try discriminate; try (intros H; contradiction).
      intros _. exfalso.
      match goal with
      | H : Qleb _ time = false |- _ =>
          apply Qleb_gt in H; apply (Qlt_not_le _ _ H E2)
      end.
Qed.

(** ** Functional items: the reservation contract *)

Lemma startUse_inUse (item : FunctionalItem.t) (entityId : string) :
  FunctionalItem.inUse item = true ->
  FunctionalItem.startUse item entityId = (item, false).
Proof. intros H. unfold FunctionalItem.startUse. rewrite H. reflexivity. Qed.

Lemma startUse_available (item : FunctionalItem.t) (entityId : string) :
  FunctionalItem.inUse item = false ->
  exists item',
    FunctionalItem.startUse item entityId = (item', true) /\
    FunctionalItem.inUse item' = true /\
    FunctionalItem.usedBy item' = Some entityId /\
    FunctionalItem.useTime item' = 0 /\
    FunctionalItem.itemDef item' = FunctionalItem.itemDef item /\
    FunctionalItem.maxUseTime item' = FunctionalItem.maxUseTime item.
Proof.
  intros H. unfold FunctionalItem.startUse. rewrite H.
  eexists. split; [reflexivity|]. simpl. repeat split.
Qed.

Lemma updateUse_complete (item : FunctionalItem.t) (deltaTime : Q) :
  snd (FunctionalItem.updateUse item deltaTime) = true <->
  FunctionalItem.inUse item = true /\
  FunctionalItem.maxUseTime item <= FunctionalItem.useTime item + deltaTime.
Proof.
  unfold FunctionalItem.updateUse.
  destruct (FunctionalItem.inUse item); simpl.
  - destruct (Qleb _ _) eqn:E; simpl.
    + apply Qleb_le in E. split; auto.
    + apply Qleb_gt in E. split; [discriminate|].
      intros [_ H]. exfalso. apply (Qlt_not_le _ _ E H).
  - split; [discriminate|]. intros [H _]. discriminate.
Qed.

Lemma updateUse_released (item : FunctionalItem.t) (deltaTime : Q) :
  snd (FunctionalItem.updateUse item deltaTime) = true ->
  FunctionalItem.inUse (fst (FunctionalItem.updateUse item deltaTime)) = false /\
  FunctionalItem.usedBy (fst (FunctionalItem.updateUse item deltaTime)) = None.
Proof.
  unfold FunctionalItem.updateUse.
  destruct (FunctionalItem.inUse item); simpl; [|discriminate].
  destruct (Qleb _ _); simpl; [auto | discriminate].
Qed.

(** C2: while an item is in use, [startUse] returns [false] and leaves
    the item as it was, occupant and elapsed time included; on an
    available item it returns [true] and the item is in use by the caller
    with elapsed time 0, so that a second [startUse], by whomever,
    fails and the occupant stays the first caller; after [stopUse], and
    after an [updateUse] that reached [maxUseTime] (which it reports
    exactly when the accumulated time is at least [maxUseTime]) the item
    is released and [startUse] succeeds for any caller. *)
Theorem startUse_exclusive (item : FunctionalItem.t) (a b : string)
    (deltaTime : Q) :
  (FunctionalItem.inUse item = true ->
   FunctionalItem.startUse item b = (item, false))
  /\
  (FunctionalItem.inUse item = false ->
   exists item',
     FunctionalItem.startUse item a = (item', true) /\
     FunctionalItem.isAvailable item' = false /\
     FunctionalItem.usedBy item' = Some a /\
     FunctionalItem.useTime item' = 0 /\
     FunctionalItem.startUse item' b = (item', false))
  /\
  (FunctionalItem.isAvailable (FunctionalItem.stopUse item) = true /\
   snd (FunctionalItem.startUse (FunctionalItem.stopUse item) b) = true)
  /\
  (FunctionalItem.inUse item = true ->
   FunctionalItem.maxUseTime item <= FunctionalItem.useTime item + deltaTime ->
   let '(item', complete) := FunctionalItem.updateUse item deltaTime in
   complete = true /\
   FunctionalItem.isAvailable item' = true /\
   snd (FunctionalItem.startUse item' b) = true).
Proof.
  split; [apply startUse_inUse|].
  split.
  { intros H. destruct (startUse_available item a H)
      as (item' & Hs & Hin & Hby & Ht & _).
    exists item'. split; [exact Hs|].
    unfold FunctionalItem.isAvailable. rewrite Hin.
    split; [reflexivity|]. split; [exact Hby|]. split; [exact Ht|].
    apply startUse_inUse. exact Hin. }
  split.
  { split; reflexivity. }
  intros Hin Hmax.
  pose proof (proj2 (updateUse_complete item deltaTime) (conj Hin Hmax)) as Hc.
  pose proof (updateUse_released item deltaTime Hc) as [Hrel _].
  destruct (FunctionalItem.updateUse item deltaTime) as [item' complete].
  simpl in *. split; [exact Hc|].
  unfold FunctionalItem.isAvailable, FunctionalItem.startUse.
  rewrite Hrel. split; reflexivity.
Qed.

Lemma itemCall_consistent (item : FunctionalItem.t) (call : ItemCall.t) :
  occupancy_consistent item -> occupancy_consistent (itemCall item call).
Proof.
  intros Hc. destruct call as [entityId | deltaTime |]; simpl.
  - unfold FunctionalItem.startUse.
    destruct (FunctionalItem.inUse item) eqn:E; simpl; [exact Hc|].
    left. split; [reflexivity | eexists; reflexivity].
  - unfold FunctionalItem.updateUse.
    destruct (FunctionalItem.inUse item) eqn:E; simpl; [|exact Hc].
    destruct (Qleb _ _); simpl.
    + right. repeat split.
    + left. destruct Hc as [[_ Hby] | [Hin _]]; [|congruence].
      split; [exact E | exact Hby].
  - right. repeat split.
Qed.

(** X15: From its construction on, after any sequence of startUse, updateUse and
    stopUse calls with any arguments, a functional item is either in use
    with a recorded occupant, or available with no occupant and useTime 0. *)
Lemma itemCalls_consistent (id : string) (x y : Z) (name : string)
    (itemDef : option ItemDef.t) (calls : list ItemCall.t) :
  occupancy_consistent (itemCalls (FunctionalItem.new id x y name itemDef) calls).
Proof.
  unfold itemCalls.
  assert (H0 : occupancy_consistent (FunctionalItem.new id x y name itemDef)).
  { right. repeat split. }
  revert H0. generalize (FunctionalItem.new id x y name itemDef).
  induction calls as [|call calls IH]; intros item Hc; simpl; [exact Hc|].
  apply IH. apply itemCall_consistent. exact Hc.
Qed.

(** The occupant changes only by a [startUse] on an available item. *)
Lemma itemCall_occupant (item : FunctionalItem.t) (call : ItemCall.t)
    (a : string) :
  FunctionalItem.usedBy item = Some a ->
  FunctionalItem.inUse item = true ->
  FunctionalItem.usedBy (itemCall item call) = Some a \/
  FunctionalItem.usedBy (itemCall item call) = None.
Proof.
  intros Hby Hin. destruct call as [entityId | deltaTime |]; simpl.
  - rewrite startUse_inUse by exact Hin. left. exact Hby.
  - unfold FunctionalItem.updateUse. rewrite Hin. simpl.
    destruct (Qleb _ _); simpl; [right; reflexivity | left; exact Hby].
  - right. reflexivity.
Qed.

Lemma startUse_exclusive_witness :
  let item := Sample.item "meal" 3 0 in
  exists item',
    FunctionalItem.startUse item "entity_1" = (item', true) /\
    FunctionalItem.usedBy item' = Some "entity_1"%string /\
    FunctionalItem.startUse item' "entity_5" = (item', false) /\
    (let '(item'', complete) := FunctionalItem.updateUse item' 5 in
     complete = true /\
     FunctionalItem.isAvailable item'' = true /\
     snd (FunctionalItem.startUse item'' "entity_5") = true).
Proof.
  intros item.
  destruct (proj1 (proj2 (startUse_exclusive item "entity_1" "entity_5" 5))
              eq_refl) as (item' & Hs & _ & Hby & _ & Hb).
  exists item'. split; [exact Hs|]. split; [exact Hby|]. split; [exact Hb|].
  injection Hs as <-.
  apply (proj2 (proj2 (proj2
           (startUse_exclusive _ "entity_1" "entity_5" 5))));
    [reflexivity | discriminate].
Defined.

(** ** Relationships *)

Lemma clampRelationship_bounds (v : Q) :
  -100 <= NPC.clampRelationship v <= 100.
Proof.
  unfold NPC.clampRelationship. split.
  - apply Q.le_max_l.
  - apply Q.max_lub; [discriminate | apply Q.le_min_l].
Qed.

(** The record of [other] after one update, and the records of all the
    others. *)
Lemma updateRelationship_lookup (env : Env.t) (self : NPC.t)
    (other id : string) (change : Q) :
  NPC.relationships (NPC.updateRelationship env self other change) !! id =
  if decide (other = id) then
    let old := default (Relationship.mk 0 0 (Env.now env))
                       (NPC.relationships self !! other) in
    Some (Relationship.mk
            (NPC.clampRelationship (Relationship.value old + change))
            (Relationship.interactions old + 1)
            (Env.now env))
  else NPC.relationships self !! id.
Proof.
  unfold NPC.updateRelationship.
  destruct (NPC.relationships self !! other) as [rel|] eqn:E.
  - rewrite E. simpl. rewrite lookup_insert. reflexivity.
  - rewrite lookup_insert_eq. simpl. rewrite lookup_insert.
    destruct (decide (other = id)); [reflexivity|].
    rewrite lookup_insert_ne by assumption. reflexivity.
Qed.

Lemma updateRelationship_bounded (env : Env.t) (self : NPC.t)
    (other : string) (change : Q) :
  relationships_bounded self ->
  relationships_bounded (NPC.updateRelationship env self other change).
Proof.
  intros Hb id rel. rewrite updateRelationship_lookup.
  destruct (decide (other = id)).
  - intros [= <-]. simpl. apply clampRelationship_bounds.
  - apply Hb.
Qed.

Lemma updateRelationships_bounded (updates : list (Env.t * string * Q)) :
  forall self, relationships_bounded self ->
    relationships_bounded (updateRelationships self updates).
Proof.
  induction updates as [|[[env other] change] updates IH]; intros self Hb.
  - exact Hb.
  - simpl. apply IH. apply updateRelationship_bounded. exact Hb.
Qed.

(** C9: a new agent has no relationship record; after any sequence of
    [updateRelationship] calls, with whatever changes, every record it
    holds has a value within [-100, 100]; and a call for an entity that
    has no record yet leaves one that was created at value 0 and then
    moved by the change, clamped, with one interaction counted. *)
Theorem updateRelationship_within_bounds
    (id : string) (sys : option NeedsSystem.t) (personality : Personality.t)
    (x y : Z) (name : string) (updates : list (Env.t * string * Q))
    (env : Env.t) (other : string) (change : Q) :
  let fresh := NPC.new id sys personality x y name in
  let self := updateRelationships fresh updates in
  NPC.relationships fresh = ∅
  /\
  (forall id rel, NPC.relationships self !! id = Some rel ->
     -100 <= Relationship.value rel <= 100)
  /\
  (NPC.relationships self !! other = None ->
   NPC.relationships (NPC.updateRelationship env self other change) !! other
   = Some (Relationship.mk (NPC.clampRelationship (0 + change)) (0 + 1)
                           (Env.now env))).
Proof.
  intros fresh self. split.
  { subst fresh. unfold NPC.new, NPC.initializeNeeds.
    destruct sys; reflexivity. }
  split.
  { apply updateRelationships_bounded. intros k rel.
    subst fresh. unfold NPC.new, NPC.initializeNeeds.
    destruct sys; simpl; rewrite lookup_empty; discriminate. }
  intros Hnone. rewrite updateRelationship_lookup.
  rewrite decide_True by reflexivity. rewrite Hnone. reflexivity.
Qed.





(** ** Saving and loading an agent *)

Lemma new_transient_state (id : string) (sys : option NeedsSystem.t)
    (personality : Personality.t) (x y : Z) (name : string) :
  let fresh := NPC.new id sys personality x y name in
  NPC.currentGoal fresh = None /\ NPC.targetItem fresh = None /\
  NPC.usingItem fresh = false /\ NPC.isMoving fresh = false.
Proof.
  unfold NPC.new, NPC.initializeNeeds. destruct sys; simpl; repeat split.
Qed.

Lemma new_has_needs (id : string) (sys : option NeedsSystem.t)
    (personality : Personality.t) (x y : Z) (name : string) :
  NPC.needs (NPC.new id sys personality x y name)
  = Some (NeedsSystem.initializeNeeds (default NeedsSystem.new sys)).
Proof.
  unfold NPC.new, NPC.initializeNeeds. destruct sys; reflexivity.
Qed.

Lemma deserialize_transient_state (self : NPC.t) (data : Data.t) :
  NPC.currentGoal (NPC.deserialize self data) = NPC.currentGoal self /\
  NPC.targetItem (NPC.deserialize self data) = NPC.targetItem self /\
  NPC.usingItem (NPC.deserialize self data) = NPC.usingItem self /\
  NPC.isMoving (NPC.deserialize self data) = NPC.isMoving self.
Proof.
  unfold NPC.deserialize. destruct (Data.needs data); simpl; repeat split.
Qed.

(** C7: an agent that holds a needs set, serialized and deserialized
    into a newly constructed agent: the new agent holds the very same
    needs set, so every kind (the five of them) has the same value, and
    its goal, target item, use flag and movement flag are those of the
    constructor: none, none, [false], [false]. *)
Theorem serialize_deserialize_needs (agent : NPC.t)
    (needs : NeedsSystem.Needs)
    (id : string) (sys : option NeedsSystem.t) (personality : Personality.t)
    (x y : Z) (name : string) :
  NPC.needs agent = Some needs ->
  let fresh := NPC.new id sys personality x y name in
  let loaded := NPC.deserialize fresh (NPC.serialize agent) in
  NPC.needs loaded = Some needs /\
  (forall kind, (NPC.needs loaded ≫= fun ns => JsObject.get ns kind)
                = JsObject.get needs kind) /\
  NPC.currentGoal loaded = None /\
  NPC.targetItem loaded = None /\
  NPC.usingItem loaded = false /\
  NPC.isMoving loaded = false.
Proof.
  intros Hneeds fresh loaded.
  assert (Hn : NPC.needs loaded = Some needs).
  { subst loaded. unfold NPC.deserialize, NPC.serialize. simpl.
    rewrite Hneeds. reflexivity. }
  split; [exact Hn|]. split.
  { intros kind. rewrite Hn. reflexivity. }
  destruct (deserialize_transient_state fresh (NPC.serialize agent))
    as (Hg & Ht & Hu & Hm).
  destruct (new_transient_state id sys personality x y name)
    as (Hg' & Ht' & Hu' & Hm').
  subst loaded fresh.
  rewrite Hg, Ht, Hu, Hm. auto.
Qed.

Lemma serialize_deserialize_needs_witness :
  let needs := Sample.needs 42 100 80 55 10 in
  let agent := Sample.user "hunger" needs in
  let loaded := NPC.deserialize
                  (NPC.new "entity_9" None (Personality.mk 0 0 0) 0 0 "NPC")
                  (NPC.serialize agent) in
  NPC.needs agent = Some needs /\
  (NPC.needs loaded ≫= fun ns => Need.value <$> JsObject.get ns "hunger")
    = Some 42 /\
  NPC.currentGoal agent <> None /\
  NPC.currentGoal loaded = None.
Proof.
  split; [reflexivity|].
  pose proof (serialize_deserialize_needs
                (Sample.user "hunger" (Sample.needs 42 100 80 55 10))
                (Sample.needs 42 100 80 55 10)
                "entity_9" None (Personality.mk 0 0 0) 0 0 "NPC" eq_refl)
    as (Hn & _ & Hg & _).
  split; [|split; [discriminate | exact Hg]].
  cbv zeta. rewrite Hn. reflexivity.
Defined.

(** ** Completing the use of an item *)

Lemma satisfyNeed_get sys needs needType amount kind :
  JsObject.get (NeedsSystem.satisfyNeed sys needs needType amount) kind
  = if String.eqb needType kind
    then NeedsSystem.satisfied amount <$> JsObject.get needs kind
    else JsObject.get needs kind.
Proof.
  destruct (String.eqb needType kind) eqn:E.
  - apply String.eqb_eq in E. subst kind.
    unfold NeedsSystem.satisfyNeed.
    destruct (JsObject.get needs needType) eqn:G.
    + rewrite get_alter_eq, G. reflexivity.
    + rewrite G. reflexivity.
  - apply String.eqb_neq in E. apply satisfyNeed_other. exact E.
Qed.

Lemma get_not_key {V} (o : JsObject.t V) (k : string) :
  k ∉ JsObject.keys o -> JsObject.get o k = None.
Proof.
  induction o as [|[k' v] o IH]; simpl; [reflexivity|].
  intros Hnot. destruct (String.eqb k' k) eqn:E.
  - apply String.eqb_eq in E. subst k'. exfalso. apply Hnot. left.
  - apply IH. intros Hin. apply Hnot. right. exact Hin.
Qed.

(** The loop over the table reaches every listed kind but the goal's
    once, with the listed amount, whatever its sign. *)
Lemma satisfyOthers_get sys goalNeed (table : JsObject.t Q) :
  NoDup (JsObject.keys table) ->
  forall needs kind,
    JsObject.get (NPC.satisfyOthers sys goalNeed table needs) kind
    = match JsObject.get table kind with
      | Some amount =>
          if String.eqb kind goalNeed then JsObject.get needs kind
          else NeedsSystem.satisfied amount <$> JsObject.get needs kind
      | None => JsObject.get needs kind
      end.
Proof.
  unfold NPC.satisfyOthers.
  induction table as [|[k0 a0] table IH]; intros Hnd needs kind; simpl.
  - reflexivity.
  - unfold JsObject.keys in Hnd. simpl in Hnd.
    apply NoDup_cons in Hnd as [Hnot Hnd]. rewrite (IH Hnd).
    destruct (String.eqb k0 kind) eqn:E.
    + apply String.eqb_eq in E. subst kind.
      rewrite (get_not_key _ _ Hnot).
      destruct (String.eqb k0 goalNeed); simpl; [reflexivity|].
      rewrite satisfyNeed_get, String.eqb_refl. reflexivity.
    + destruct (String.eqb k0 goalNeed); simpl; [reflexivity|].
      rewrite !satisfyNeed_get, E. reflexivity.
Qed.

(** C5, as the code has it: when an agent with a needs set and a goal
    completes the use of an item whose table lists the goal's kind (as
    the table of every item an agent is sent to does), the goal's need
    is passed through [satisfyNeed] with the item's table amount for
    it, and every other kind the table lists is passed through
    [satisfyNeed] with its table amount whatever the sign of the
    amount: a need the agent holds ends at [min(max, value + amount)]
    in both cases.  The kinds the table does not list keep their needs
    as they were; the agent is left with no goal, no target and not
    using.  A negative entry therefore lowers its need. *)
Theorem completeItemUse_needs (item : FunctionalItem.t) (agent : NPC.t)
    (goal : Goal.t) (needs : NeedsSystem.Needs) (sys : NeedsSystem.t) :
  NPC.currentGoal agent = Some goal ->
  NPC.needs agent = Some needs ->
  NPC.needsSystem agent = Some sys ->
  NoDup (JsObject.keys (ItemDef.satisfies (FunctionalItem.itemDef item))) ->
  is_Some (JsObject.get (ItemDef.satisfies (FunctionalItem.itemDef item))
                        (Goal.needType goal)) ->
  let table := ItemDef.satisfies (FunctionalItem.itemDef item) in
  let done := NPC.completeItemUse (Some item) agent in
  exists needs',
    NPC.needs done = Some needs' /\
    (forall kind,
       JsObject.get needs' kind
       = if String.eqb kind (Goal.needType goal) then
           NeedsSystem.satisfied (FunctionalItem.getSatisfactionAmount item kind)
             <$> JsObject.get needs kind
         else
           match JsObject.get table kind with
           | Some amount => NeedsSystem.satisfied amount <$> JsObject.get needs kind
           | None => JsObject.get needs kind
           end) /\
    NPC.usingItem done = false /\ NPC.targetItem done = None /\
    NPC.currentGoal done = None.
Proof.
  intros Hgoal Hneeds Hsys Hnd _ table done.
  subst done. unfold NPC.completeItemUse.
  rewrite Hgoal, Hneeds, Hsys. simpl.
  eexists. split; [reflexivity|]. split; [|repeat split].
  intros kind. rewrite (satisfyOthers_get _ _ _ Hnd).
  rewrite satisfyNeed_get.
  destruct (String.eqb kind (Goal.needType goal)) eqn:E.
  - apply String.eqb_eq in E. subst kind. rewrite String.eqb_refl.
    destruct (JsObject.get (ItemDef.satisfies _) (Goal.needType goal));
      reflexivity.
  - rewrite String.eqb_sym, E. reflexivity.
Qed.

Lemma completeItemUse_needs_witness :
  let item := Sample.item "coffee" 3 0 in
  let needs := Sample.needs 90 20 50 60 70 in
  let agent := Sample.user "thirst" needs in
  let done := NPC.completeItemUse (Some item) agent in
  exists needs',
    NPC.needs done = Some needs' /\
    JsObject.get needs' "thirst"
      = NeedsSystem.satisfied 30 <$> JsObject.get needs "thirst" /\
    JsObject.get needs' "sleep"
      = NeedsSystem.satisfied (-10) <$> JsObject.get needs "sleep" /\
    JsObject.get needs' "hunger" = JsObject.get needs "hunger".
Proof.
  intros item needs agent done.
  assert (Hnd : NoDup (JsObject.keys
                         (ItemDef.satisfies (FunctionalItem.itemDef item)))).
  { subst item. vm_compute.
    repeat (apply NoDup_cons_2;
            [ intros H;
              repeat (apply elem_of_cons in H as [H|H]; [discriminate H|]);
              by apply elem_of_nil in H | ]).
    apply NoDup_nil_2. }
  assert (Hlisted : is_Some (JsObject.get
                               (ItemDef.satisfies (FunctionalItem.itemDef item))
                               "thirst")).
  { subst item. exists 30. vm_compute. reflexivity. }
  destruct (completeItemUse_needs item agent
              (Goal.mk "satisfy_need" "thirst" 2) needs NeedsSystem.new
              eq_refl eq_refl eq_refl Hnd Hlisted)
    as (needs' & Hn & Hget & _).
  exists needs'. split; [exact Hn|].
  split; [exact (Hget "thirst"%string)|].
  split; [exact (Hget "sleep"%string) | exact (Hget "hunger"%string)].
Defined.

(** C5 as stated fails: coffee lists sleep at -10, not a positive amount; an agent that
    drinks one for its thirst ends with its sleep at 40, down from 50. *)
Lemma completeItemUse_coffee_lowers_sleep :
  let item := Sample.item "coffee" 3 0 in
  let agent := Sample.user "thirst" (Sample.needs 90 20 50 60 70) in
  let done := NPC.completeItemUse (Some item) agent in
  let sleep (n : NPC.t) :=
    NPC.needs n ≫= fun ns => Need.value <$> JsObject.get ns "sleep" in
  JsObject.get (ItemDef.satisfies (FunctionalItem.itemDef item)) "sleep"
    = Some (-10) /\
  FunctionalItem.canSatisfy item "sleep" = false /\
  sleep agent = Some 50 /\
  (exists v, sleep done = Some v /\ v == 40) /\
  ~ (exists v, sleep done = Some v /\ v == 50).
Proof.
  cbv zeta. split; [reflexivity|]. split; [reflexivity|].
  split; [reflexivity|]. split.
  - eexists. split; [vm_compute; reflexivity|]. reflexivity.
  - intros (v & Hv & Heq). vm_compute in Hv. injection Hv as <-.
    discriminate Heq.
Qed.

(** ** Decay *)

Lemma new_decayRate_pos (key : string) (config : NeedConfig.t) :
  JsObject.get (NeedsSystem.needTypes NeedsSystem.new) key = Some config ->
  0 < NeedConfig.decayRate config.
Proof.
  simpl.
  repeat match goal with
         | |- context [if ?b then _ else _] => destruct b
         end; intros [= <-] || discriminate; reflexivity.
Qed.

Lemma num_or_nonneg (a b : Q) : 0 <= a -> 0 <= b -> 0 <= num_or a b.
Proof. intros Ha Hb. unfold num_or. destruct (Qeq_bool a 0); assumption. Qed.

Lemma baseDecay_nonneg (key : string) :
  0 <= match JsObject.get (NeedsSystem.needTypes NeedsSystem.new) key with
       | Some config => num_or (NeedConfig.decayRate config) (1#2)
       | None => 1#2
       end.
Proof.
  destruct (JsObject.get _ key) as [config|] eqn:E; [|discriminate].
  apply num_or_nonneg; [|discriminate].
  apply Qlt_le_weak. eapply new_decayRate_pos. exact E.
Qed.

Lemma decayNeed_entry (amount : Q) (key : string) (need : Need.t)
    (elapsed : Q) :
  0 <= amount -> (elapsed == 0 -> amount == 0) ->
  decayed_entry elapsed (key, need) (key, NeedsSystem.decayNeed amount need).
Proof.
  intros Ha Hz. unfold decayed_entry, priority_recomputed.
  cbn [fst snd NeedsSystem.decayNeed Need.value Need.max Need.priority].
  split; [reflexivity|]. split; [reflexivity|].
  split; [apply Q.le_max_l|]. split; [intros _; reflexivity|]. split.
  - intros Hv. split; [apply Q.max_lub; lra|].
    intros H0. specialize (Hz H0). rewrite Q.max_r; lra.
  - intros Hv. rewrite Q.max_l; [reflexivity | lra].
Qed.

(** C4, as the code has it: for every needs set and every elapsed time
    of at least 0, the loop of [NPC.update] with the clock's modifiers
    decays every need, and [updateNeeds] every need whose kind the needs
    system configures, leaving the others as they are (kinds named like
    an inherited member apart).  A decayed need keeps its key and
    [max], its value ends at or above 0 and, its [max] not being 0, its
    priority is [1 - value / max].  A value that was at or above 0 ends
    at or below what it was, and stays as it was when the elapsed time
    is 0; a value that was below 0 is lifted to 0, also when the elapsed
    time is 0. *)
Theorem decay_monotone (needs : NeedsSystem.Needs) (elapsed : Q)
    (timeSystem : TimeSystem.t) :
  0 <= elapsed ->
  Forall2 (fun before after =>
             match JsObject.get (NeedsSystem.needTypes NeedsSystem.new)
                                before.1 with
             | Some _ => decayed_entry elapsed before after
             | None => before.1 ∉ JsObject.inherited -> after = before
             end)
          needs (NeedsSystem.updateNeeds NeedsSystem.new needs elapsed)
  /\
  Forall2 (decayed_entry elapsed)
          needs (NPC.decayLoop timeSystem NeedsSystem.new needs elapsed).
Proof.
  intros Hel. split.
  - unfold NeedsSystem.updateNeeds.
    induction needs as [|[key need] needs IH];
      [constructor | rewrite map_cons; constructor; [|exact IH]].
    cbv beta iota. cbn [fst].
    destruct (JsObject.get _ key) as [config|] eqn:E; [|reflexivity].
    apply decayNeed_entry.
    + apply Qmult_le_0_compat; [|exact Hel].
      apply Qlt_le_weak. eapply new_decayRate_pos. exact E.
    + intros Hz. rewrite Hz. ring.
  - unfold NPC.decayLoop.
    induction needs as [|[key need] needs IH];
      [constructor | rewrite map_cons; constructor; [|exact IH]].
    cbv beta iota. apply decayNeed_entry.
    + apply Qmult_le_0_compat; [|exact Hel].
      apply Qmult_le_0_compat; [apply baseDecay_nonneg|].
      apply Qlt_le_weak. apply getNeedDecayModifier_pos.
    + intros Hz. rewrite Hz. ring.
Qed.

Lemma decay_monotone_witness :
  let needs := Sample.needs 42 100 80 55 10 in
  0 <= 1#2 /\
  Forall2 (decayed_entry (1#2))
          needs (NPC.decayLoop TimeSystem.new NeedsSystem.new needs (1#2)).
Proof.
  assert (Hel : 0 <= 1#2) by discriminate.
  split; [exact Hel|].
  exact (proj2 (decay_monotone (Sample.needs 42 100 80 55 10) (1#2)
                  TimeSystem.new Hel)).
Defined.

(** C4 as stated fails on a needs set that holds a value below 0, which
    is what [satisfyNeed] leaves when a coffee takes 10 off a sleep
    value of 5: both decay loops lift the value from -5 to 0, so it
    ends above what it was, and they do so at an elapsed time of 0,
    where they are not the identity. *)
Lemma decay_lifts_negative_value :
  let needs :=
    NeedsSystem.satisfyNeed NeedsSystem.new
      [("sleep"%string, Need.mk 5 100 (19#20))] "sleep" (-10) in
  let value (ns : NeedsSystem.Needs) := Need.value <$> JsObject.get ns "sleep" in
  (exists v, value needs = Some v /\ v == -5) /\
  (exists v, value (NeedsSystem.updateNeeds NeedsSystem.new needs 0) = Some v /\
             v == 0 /\ ~ v <= -5) /\
  (exists v, value (NPC.decayLoop TimeSystem.new NeedsSystem.new needs 0)
             = Some v /\ v == 0 /\ ~ v <= -5).
Proof.
  cbv zeta. split; [|split].
  - eexists. split; [vm_compute; reflexivity|]. reflexivity.
  - eexists. split; [vm_compute; reflexivity|]. split; [reflexivity|].
    intros H. apply H. reflexivity.
  - eexists. split; [vm_compute; reflexivity|]. split; [reflexivity|].
    intros H. apply H. reflexivity.
Qed.

(** ** The entity index *)


Section JsMap_facts.
Context {K V : Type} `{EqDecision K}.
Implicit Types (m : JsMap.t K V) (k : K) (v : V).

Lemma JsMap_get_set_ne m k k' v :
  k <> k' -> JsMap.get (JsMap.set m k v) k' = JsMap.get m k'.
Proof.
  intros Hne. induction m as [|[k0 v0] m IH]; simpl.
  - rewrite decide_False by assumption. reflexivity.
  - destruct (decide (k0 = k)) as [->|]; simpl.
    + rewrite !decide_False by assumption. reflexivity.
    + destruct (decide (k0 = k')); [reflexivity | exact IH].
Qed.

Lemma JsMap_get_delete_ne m k k' :
  k <> k' -> JsMap.get (JsMap.delete m k) k' = JsMap.get m k'.
Proof.
  intros Hne. induction m as [|[k0 v0] m IH]; simpl; [reflexivity|].
  destruct (decide (k0 = k)) as [->|]; simpl.
  - rewrite decide_False by assumption. reflexivity.
  - destruct (decide (k0 = k')); [reflexivity | exact IH].
Qed.

End JsMap_facts.

(** [indexEntityPosition] and [unindexEntityPosition] both work on the
    bucket of the entity's tile fields and on no other. *)
Lemma indexEntityPosition_other (index : EntityManager.t) (e : Entity.t)
    (r : positive) (key : Z * Z) :
  (Entity.tileX e, Entity.tileY e) <> key ->
  JsMap.get (EntityManager.entitiesByPosition
               (EntityManager.indexEntityPosition index e r)) key
  = JsMap.get (EntityManager.entitiesByPosition index) key.
Proof.
  intros Hne. unfold EntityManager.indexEntityPosition. simpl.
  apply JsMap_get_set_ne. exact Hne.
Qed.

Lemma unindexEntityPosition_other (index : EntityManager.t) (e : Entity.t)
    (r : positive) (key : Z * Z) :
  (Entity.tileX e, Entity.tileY e) <> key ->
  JsMap.get (EntityManager.entitiesByPosition
               (EntityManager.unindexEntityPosition index e r)) key
  = JsMap.get (EntityManager.entitiesByPosition index) key.
Proof.
  intros Hne. unfold EntityManager.unindexEntityPosition.
  destruct (JsMap.get _ (Entity.tileX e, Entity.tileY e)); [|reflexivity].
  destruct (_ =? _)%nat; simpl.
  - apply JsMap_get_delete_ne. exact Hne.
  - apply JsMap_get_set_ne. exact Hne.
Qed.

(** So [updateEntityPosition] never touches the bucket of a tile other
    than the one the entity is on now: it cannot take an entity out of
    the bucket of the tile it has left. *)
Lemma updateEntityPosition_other (index : EntityManager.t) (e : Entity.t)
    (r : positive) (key : Z * Z) :
  (Entity.tileX e, Entity.tileY e) <> key ->
  EntityManager.getAtPosition (EntityManager.updateEntityPosition index e r)
    key.1 key.2
  = EntityManager.getAtPosition index key.1 key.2.
Proof.
  intros Hne. unfold EntityManager.getAtPosition.
  destruct key as [x y]. cbn [fst snd]. f_equal.
  unfold EntityManager.updateEntityPosition.
  destruct (bool_decide _); [|reflexivity].
  rewrite indexEntityPosition_other by exact Hne.
  apply unindexEntityPosition_other. exact Hne.
Qed.

(** An agent that arrives has its tile fields set from its pixel
    position, so the two keys [updateEntityPosition] compares agree and
    the index is left as it was. *)
Lemma moveStep_arrived_keys (env : Env.t) (n n' : NPC.t) :
  NPC.moveStep env n = (n', true) ->
  Qfloor (Entity.pixelX (NPC.ent n') / 32) = Entity.tileX (NPC.ent n') /\
  Qfloor (Entity.pixelY (NPC.ent n') / 32) = Entity.tileY (NPC.ent n').
Proof.
  unfold NPC.moveStep. destruct (Qltb _ _); [|discriminate].
  intros [= <-]. simpl. split; reflexivity.
Qed.

Lemma updateEntityPosition_arrived (env : Env.t) (n n' : NPC.t)
    (index : EntityManager.t) (r : positive) :
  NPC.moveStep env n = (n', true) ->
  EntityManager.updateEntityPosition index (NPC.ent n') r = index.
Proof.
  intros Hstep. destruct (moveStep_arrived_keys _ _ _ Hstep) as [Hx Hy].
  unfold EntityManager.updateEntityPosition. rewrite Hx, Hy.
  rewrite bool_decide_eq_false_2; [reflexivity|].
  intros Hne. apply Hne. reflexivity.
Qed.

(** C6, at an input where the code departs from it: an agent placed on
    tile (0, 0) walks to tile (1, 0).  In the frame that brings it to
    pixel 32 and in the frame that snaps it onto tile (1, 0), the index
    is updated after the agent; at the end the agent is on tile (1, 0)
    and still listed under (0, 0), and nothing is listed under (1, 0).
    [updateEntityPosition] compares the tile of the pixel position with
    the tile fields, which agree once the agent has arrived, and when
    they differ it unindexes under the new key, not the old one. *)
Theorem update_keeps_arrived_agent_in_old_bucket
    (ai : EntityManager.t -> positive -> Heap.t -> Heap.t) :
  let '(h, index) :=
    Sample.frames ai 2 640 Sample.walker_heap Sample.walker_index in
  EntityManager.getAtPosition Sample.walker_index 0 0 = [1%positive] /\
  (Entity.tileX <$> Heap.entity h 1) = Some 1%Z /\
  (Entity.tileY <$> Heap.entity h 1) = Some 0%Z /\
  (NPC.isMoving <$> Heap.npc h 1) = Some false /\
  EntityManager.getAtPosition index 0 0 = [1%positive] /\
  EntityManager.getAtPosition index 1 0 = [].
Proof.
  vm_compute. repeat split.
Qed.

(** ** Worked examples *)

(** A new needs set starts every kind at its maximum. *)
Example initializeNeeds_full :
  Forall (fun e => Need.value e.2 = Need.max e.2 /\ Need.max e.2 = 100)
         (NeedsSystem.initializeNeeds NeedsSystem.new)
  /\ JsObject.keys (NeedsSystem.initializeNeeds NeedsSystem.new)
     = ["hunger"; "thirst"; "sleep"; "happiness"; "social"]%string.
Proof. split; [repeat constructor | reflexivity]. Qed.

(** An agent at hunger 15 finishes a meal: hunger 75, happiness up by 10
    and capped at 100. *)
Example meal_scenario :
  let agent := Sample.user "hunger" (Sample.needs 15 90 80 95 70) in
  let done := NPC.completeItemUse (Some (Sample.item "meal" 3 0)) agent in
  let value kind :=
    NPC.needs done ≫= fun ns => (Qred ∘ Need.value) <$> JsObject.get ns kind in
  value "hunger"%string = Some 75 /\ value "happiness"%string = Some 100 /\
  value "thirst"%string = Some 90.
Proof. vm_compute. repeat split. Qed.

(** Twenty-five friendly talks of +5 each saturate a relationship at
    100. *)
Example relationship_saturates :
  let agent := updateRelationships (Sample.agent 0 0)
                 (repeat (Sample.env 0, "entity_7"%string, 5) 25) in
  (Qred ∘ Relationship.value) <$> NPC.relationships agent !! "entity_7"%string
  = Some 100.
Proof. vm_compute. reflexivity. Qed.

(** With the agent's sleep at 20 the tie between thirst and sleep goes
    to thirst, which is enumerated first. *)
Example mostUrgent_tie :
  NeedsSystem.getMostUrgentNeed NeedsSystem.new (Sample.needs 90 20 20 60 70)
  = Some "thirst"%string.
Proof. reflexivity. Qed.

(** ** Further properties of the needs model *)

(** The loop of [getMostUrgentNeed] reads the keys and the priorities
    and nothing else. *)
Lemma urgentLoop_ext (a b : NeedsSystem.Needs) (m : Q) (u : option string) :
  map (fun e => (e.1, Need.priority e.2)) a
  = map (fun e => (e.1, Need.priority e.2)) b ->
  NeedsSystem.urgentLoop a m u = NeedsSystem.urgentLoop b m u.
Proof.
  revert b m u. induction a as [|[k n] a IH]; intros [|[k' n'] b] m u H;
    simpl in H; try discriminate; [reflexivity|].
  injection H as -> Hp Hrest. simpl. rewrite Hp.
  destruct (Qltb m (Need.priority n')); apply IH; exact Hrest.
Qed.

Lemma alter_satisfied_priorities (needs : NeedsSystem.Needs)
    (needType : string) (amount : Q) :
  map (fun e => (e.1, Need.priority e.2))
      (JsObject.alter (NeedsSystem.satisfied amount) needType needs)
  = map (fun e => (e.1, Need.priority e.2)) needs.
Proof.
  induction needs as [|[k n] needs IH]; simpl; [reflexivity|].
  destruct (String.eqb k needType); simpl; [reflexivity|].
  rewrite IH. reflexivity.
Qed.

(** X2: satisfyNeed writes no priority: the needs set holds the same kinds with
    the same priorities afterwards, so getMostUrgentNeed returns the same
    answer right after a need was satisfied as before; the priority follows
    the value only at the next decay update. *)
Theorem satisfyNeed_keeps_urgency (sys : NeedsSystem.t)
    (needs : NeedsSystem.Needs) (needType : string) (amount : Q) :
  let needs' := NeedsSystem.satisfyNeed sys needs needType amount in
  map (fun e => (e.1, Need.priority e.2)) needs'
  = map (fun e => (e.1, Need.priority e.2)) needs /\
  NeedsSystem.getMostUrgentNeed sys needs'
  = NeedsSystem.getMostUrgentNeed sys needs.
Proof.
  assert (H : map (fun e => (e.1, Need.priority e.2))
                  (NeedsSystem.satisfyNeed sys needs needType amount)
              = map (fun e => (e.1, Need.priority e.2)) needs).
  { unfold NeedsSystem.satisfyNeed.
    destruct (JsObject.get needs needType); [|reflexivity].
    apply alter_satisfied_priorities. }
  split; [exact H|].
  unfold NeedsSystem.getMostUrgentNeed.
  rewrite (urgentLoop_ext _ _ 0 None H). reflexivity.
Qed.

Lemma urgent_of_high_priority (sys : NeedsSystem.t) (needs : NeedsSystem.Needs)
    (k : string) (n : Need.t) :
  In (k, n) needs -> 3#10 < Need.priority n ->
  NeedsSystem.getMostUrgentNeed sys needs <> None.
Proof.
  intros Hin Hgt. unfold NeedsSystem.getMostUrgentNeed.
  destruct (urgentLoop_spec needs 0 None) as [[Heq Hall] | Hex].
  - rewrite Forall_forall in Hall.
    specialize (Hall (k, n) (proj2 (list_elem_of_In _ _) Hin)). simpl in Hall.
    exfalso. apply (Qlt_not_le _ _ Hgt). eapply Qle_trans; [exact Hall|].
    discriminate.
  - destruct Hex as (pre & k' & n' & post & Hsplit & Heq & Hlt & Hpre & Hpost).
    rewrite Heq.
    assert (Hle : Need.priority n <= Need.priority n').
    { subst needs. apply in_app_or in Hin as [Hin | [Hin | Hin]].
      - rewrite Forall_forall in Hpre. apply Qlt_le_weak.
        apply (Hpre (k, n)). apply list_elem_of_In. exact Hin.
      - injection Hin as _ <-. apply Qle_refl.
      - rewrite Forall_forall in Hpost.
        apply (Hpost (k, n)). apply list_elem_of_In. exact Hin. }
    assert (Hn' : 3#10 < Need.priority n') by (eapply Qlt_le_trans; eassumption).
    apply Qltb_lt in Hn'. rewrite Hn'. discriminate.
Qed.

(** X3: If every need's priority equals, as a number, the one the decay
    update computes from its value (priority = 1 - value / max) and
    isCritical reports true, then getMostUrgentNeed returns a kind: a
    critical needs set always has an urgent need. *)
Theorem critical_needs_are_urgent (sys : NeedsSystem.t)
    (needs : NeedsSystem.Needs) :
  Forall (fun e => priority_recomputed e.2) needs ->
  NeedsSystem.isCritical sys needs = true ->
  exists kind, NeedsSystem.getMostUrgentNeed sys needs = Some kind.
Proof.
  intros Hp Hc. unfold NeedsSystem.isCritical in Hc.
  apply existsb_exists in Hc as [[k n] [Hin Hlow]].
  apply Qltb_lt in Hlow.
  rewrite Forall_forall in Hp.
  pose proof (Hp (k, n) (proj2 (list_elem_of_In _ _) Hin)) as Hpr.
  unfold priority_recomputed in Hpr. simpl in Hpr.
  assert (Hgt : 3#10 < Need.priority n).
  { rewrite Hpr. lra. }
  pose proof (urgent_of_high_priority sys needs k n Hin Hgt) as Hne.
  destruct (NeedsSystem.getMostUrgentNeed sys needs) as [kind|];
    [exists kind; reflexivity | contradiction].
Qed.

Lemma critical_needs_are_urgent_witness :
  let needs := [ ("hunger"%string, Need.mk 90 100 (1#10));
                 ("thirst"%string, Need.mk 15 100 (17#20)) ] in
  NeedsSystem.isCritical NeedsSystem.new needs = true /\
  exists kind, NeedsSystem.getMostUrgentNeed NeedsSystem.new needs = Some kind.
Proof.
  intros needs.
  assert (Hp : Forall (fun e => priority_recomputed e.2) needs).
  { repeat constructor. }
  split; [reflexivity|].
  exact (critical_needs_are_urgent NeedsSystem.new needs Hp eq_refl).
Defined.

Lemma get_initializeNeeds (sys : NeedsSystem.t) (kind : string) :
  JsObject.get (NeedsSystem.initializeNeeds sys) kind
  = (fun config => Need.mk (NeedConfig.max config) (NeedConfig.max config) 0)
      <$> JsObject.get (NeedsSystem.needTypes sys) kind.
Proof.
  unfold NeedsSystem.initializeNeeds.
  induction (NeedsSystem.needTypes sys) as [|[k c] l IH]; simpl; [reflexivity|].
  destruct (String.eqb k kind); [reflexivity | exact IH].
Qed.

(** X4: For a configuration whose every max is positive, the needs set
    initializeNeeds returns holds exactly the configured kinds in their
    order, is not critical and has no urgent need; getNeedPercentage reads
    100 for every configured kind, 0 for a kind that is neither configured
    nor the name of an inherited member, and NaN for an unconfigured kind
    that is such a name. *)
Theorem initializeNeeds_satisfied (sys : NeedsSystem.t) :
  Forall (fun e => 0 < NeedConfig.max e.2) (NeedsSystem.needTypes sys) ->
  let needs := NeedsSystem.initializeNeeds sys in
  JsObject.keys needs = JsObject.keys (NeedsSystem.needTypes sys) /\
  NeedsSystem.isCritical sys needs = false /\
  NeedsSystem.getMostUrgentNeed sys needs = None /\
  (forall kind, is_Some (JsObject.get (NeedsSystem.needTypes sys) kind) ->
     exists p, NeedsSystem.getNeedPercentage sys needs kind = Some p /\
               p == 100) /\
  (forall kind, JsObject.get (NeedsSystem.needTypes sys) kind = None ->
     NeedsSystem.getNeedPercentage sys needs kind
     = if bool_decide (kind ∈ JsObject.inherited) then None else Some 0).
Proof.
  intros Hmax needs. split; [|split; [|split; [|split]]].
  - subst needs. clear Hmax.
    unfold NeedsSystem.initializeNeeds, JsObject.keys.
    induction (NeedsSystem.needTypes sys) as [|[k c] l IH]; simpl;
      [reflexivity | rewrite IH; reflexivity].
  - subst needs. unfold NeedsSystem.isCritical, NeedsSystem.initializeNeeds.
    induction Hmax as [|[k c] l Hc _ IH]; simpl; [reflexivity|].
    rewrite IH, orb_false_r. apply Qltb_ge. simpl in Hc.
    apply Qle_shift_div_l; [exact Hc | lra].
  - subst needs. unfold NeedsSystem.getMostUrgentNeed.
    assert (H : forall l : JsObject.t NeedConfig.t,
              NeedsSystem.urgentLoop
                (map (fun '(key, config) =>
                        (key, Need.mk (NeedConfig.max config)
                                      (NeedConfig.max config) 0)) l) 0 None
              = (0, None)).
    { induction l as [|[k c] l IH]; simpl; [reflexivity | exact IH]. }
    unfold NeedsSystem.initializeNeeds. rewrite H. reflexivity.
  - intros kind [config Hc].
    unfold NeedsSystem.getNeedPercentage, JsObject.read.
    subst needs. rewrite get_initializeNeeds, Hc. simpl.
    eexists. split; [reflexivity|].
    assert (Hpos : 0 < NeedConfig.max config).
    { rewrite Forall_forall in Hmax.
      destruct (get_Some_split _ _ _ Hc) as (pre & post & Hsplit & _).
      apply (Hmax (kind, config)). rewrite Hsplit.
      apply elem_of_app. right. left. }
    field. lra.
  - intros kind Hc. unfold NeedsSystem.getNeedPercentage, JsObject.read.
    subst needs. rewrite get_initializeNeeds, Hc. simpl.
    destruct (bool_decide (kind ∈ JsObject.inherited)); reflexivity.
Qed.

Lemma initializeNeeds_satisfied_witness :
  let needs := NeedsSystem.initializeNeeds NeedsSystem.new in
  NeedsSystem.isCritical NeedsSystem.new needs = false /\
  NeedsSystem.getMostUrgentNeed NeedsSystem.new needs = None /\
  NeedsSystem.getNeedPercentage NeedsSystem.new needs "fun" = Some 0 /\
  NeedsSystem.getNeedPercentage NeedsSystem.new needs "constructor" = None.
Proof.
  assert (H : Forall (fun e => 0 < NeedConfig.max e.2)
                     (NeedsSystem.needTypes NeedsSystem.new)).
  { repeat constructor. }
  pose proof (initializeNeeds_satisfied NeedsSystem.new H)
    as (_ & Hc & Hu & _ & Hother).
  split; [exact Hc|]. split; [exact Hu|].
  split; [exact (Hother "fun"%string eq_refl)
         |exact (Hother "constructor"%string eq_refl)].
Defined.

(** X5: For a kind the needs set holds with max > 0 and 0 <= value <= max,
    getNeedPercentage returns a number within [0, 100]. *)
Theorem getNeedPercentage_range (sys : NeedsSystem.t)
    (needs : NeedsSystem.Needs) (kind : string) (need : Need.t) :
  JsObject.get needs kind = Some need ->
  0 < Need.max need ->
  0 <= Need.value need <= Need.max need ->
  exists p, NeedsSystem.getNeedPercentage sys needs kind = Some p /\
            0 <= p <= 100.
Proof.
  intros Hget Hmax [Hv0 Hv1].
  unfold NeedsSystem.getNeedPercentage, JsObject.read.
  rewrite Hget. eexists. split; [reflexivity|].
  assert (Hq0 : 0 <= Need.value need / Need.max need).
  { apply Qle_shift_div_l; [exact Hmax | lra]. }
  assert (Hq1 : Need.value need / Need.max need <= 1).
  { apply Qle_shift_div_r; [exact Hmax | lra]. }
  split; lra.
Qed.

Lemma getNeedPercentage_range_witness :
  let needs := Sample.needs 42 100 80 55 10 in
  exists p, NeedsSystem.getNeedPercentage NeedsSystem.new needs "hunger"
            = Some p /\ 0 <= p <= 100.
Proof.
  assert (Hget : JsObject.get (Sample.needs 42 100 80 55 10) "hunger"
                 = Some (Need.mk 42 100 (58 # 100))).
  { vm_compute. reflexivity. }
  assert (Hmax : 0 < Need.max (Need.mk 42 100 (58 # 100))).
  { vm_compute. reflexivity. }
  assert (Hv : 0 <= Need.value (Need.mk 42 100 (58 # 100))
               <= Need.max (Need.mk 42 100 (58 # 100))).
  { split; discriminate. }
  exact (getNeedPercentage_range NeedsSystem.new
           (Sample.needs 42 100 80 55 10) "hunger"
           (Need.mk 42 100 (58 # 100)) Hget Hmax Hv).
Defined.

(** X6: For a kind the needs set holds, satisfyNeed keeps the set's keys and
    their order, every other kind's need, and the max and the priority of
    the need it writes; the new value is at most max, equals value + amount
    when that is at most max, and equals max when value + amount is at least
    max. *)
Theorem satisfyNeed_capped (sys : NeedsSystem.t) (needs : NeedsSystem.Needs)
    (needType : string) (amount : Q) (need : Need.t) :
  JsObject.get needs needType = Some need ->
  let needs' := NeedsSystem.satisfyNeed sys needs needType amount in
  JsObject.keys needs' = JsObject.keys needs /\
  (forall kind, kind <> needType ->
     JsObject.get needs' kind = JsObject.get needs kind) /\
  exists need',
    JsObject.get needs' needType = Some need' /\
    Need.max need' = Need.max need /\
    Need.priority need' = Need.priority need /\
    Need.value need' <= Need.max need /\
    (Need.value need + amount <= Need.max need ->
     Need.value need' == Need.value need + amount) /\
    (Need.max need <= Need.value need + amount ->
     Need.value need' == Need.max need).
Proof.
  intros Hget needs'. split; [|split].
  - subst needs'. unfold NeedsSystem.satisfyNeed. rewrite Hget.
    apply keys_alter.
  - intros kind Hne. apply satisfyNeed_other. congruence.
  - exists (NeedsSystem.satisfied amount need).
    split; [exact (satisfyNeed_present sys needs needType amount need Hget)|].
    simpl. split; [reflexivity|]. split; [reflexivity|].
    split; [apply Q.le_min_l|]. split; intros H.
    + apply Q.min_r. exact H.
    + apply Q.min_l. exact H.
Qed.

Lemma satisfyNeed_capped_witness :
  let needs := Sample.needs 42 100 80 95 10 in
  exists need',
    JsObject.get (NeedsSystem.satisfyNeed NeedsSystem.new needs "happiness" 10)
                 "happiness" = Some need' /\
    Need.value need' <= 100.
Proof.
  assert (Hget : JsObject.get (Sample.needs 42 100 80 95 10) "happiness"
                 = Some (Need.mk 95 100 (5 # 100))).
  { vm_compute. reflexivity. }
  destruct (satisfyNeed_capped NeedsSystem.new (Sample.needs 42 100 80 95 10)
              "happiness" 10 (Need.mk 95 100 (5 # 100)) Hget)
    as (_ & _ & need' & Hg & _ & _ & Hle & _).
  exists need'. split; [exact Hg | exact Hle].
Defined.

(** ** Further properties of the clock *)

Lemma Qfloor_unique (x : Q) (z : Z) :
  inject_Z z <= x -> x < inject_Z (z + 1) -> Qfloor x = z.
Proof.
  intros Hle Hlt.
  pose proof (Qfloor_le x) as H1. pose proof (Qlt_floor x) as H2.
  assert (Ha : (Qfloor x < z + 1)%Z).
  { rewrite Zlt_Qlt. eapply Qle_lt_trans; eassumption. }
  assert (Hb : (z < Qfloor x + 1)%Z).
  { rewrite Zlt_Qlt. eapply Qle_lt_trans; eassumption. }
  lia.
Qed.

Lemma Qdiv_bounds (a b : Q) (k : Z) :
  0 < b ->
  (inject_Z k <= a / b <-> b * inject_Z k <= a) /\
  (a / b < inject_Z (k + 1) <-> a < b * inject_Z k + b).
Proof.
  intros Hb. assert (Hne : ~ b == 0) by lra.
  assert (E : (a / b) * b == a) by (field; exact Hne).
  assert (E1 : inject_Z (k + 1) == inject_Z k + 1).
  { rewrite inject_Z_plus. reflexivity. }
  split; split; intros H.
  - apply Qle_trans with ((a / b) * b); [|rewrite E; apply Qle_refl].
    rewrite (Qmult_comm b). apply Qmult_le_compat_r; lra.
  - apply Qle_shift_div_l; [exact Hb|]. lra.
  - apply Qle_lt_trans with ((a / b) * b); [rewrite E; apply Qle_refl|].
    apply Qlt_le_trans with (inject_Z (k + 1) * b).
    + apply Qmult_lt_compat_r; assumption.
    + rewrite E1. lra.
  - apply Qlt_shift_div_r; [exact Hb|]. rewrite E1. lra.
Qed.

(** [a % b] for [a >= 0] and [b > 0]: what is left of [a] after taking
    out [b] a whole number of times. *)
Lemma num_rem_range (a b : Q) :
  0 < b -> 0 <= a ->
  exists k : Z, (0 <= k)%Z /\ num_rem a b == a - b * inject_Z k /\
                0 <= num_rem a b /\ num_rem a b < b.
Proof.
  intros Hb Ha. unfold num_rem, num_trunc.
  assert (Hq : 0 <= a / b).
  { apply Qle_shift_div_l; [exact Hb | lra]. }
  apply Qleb_le in Hq as Hq'. rewrite Hq'.
  exists (Qfloor (a / b)).
  pose proof (Qfloor_le (a / b)) as H1. pose proof (Qlt_floor (a / b)) as H2.
  apply (Qdiv_bounds a b _ Hb) in H1. apply (Qdiv_bounds a b _ Hb) in H2.
  split.
  { change 0%Z with (Qfloor 0). apply Qfloor_resp_le. exact Hq. }
  split; [reflexivity|]. split; lra.
Qed.

(** X7: When the clock is not paused, with dayLength > 0, timeScale >= 0,
    deltaTime >= 0 and the current time within [0, dayLength), update leaves
    the time within [0, dayLength) and the day length as it was, and the new
    time is the old time plus (deltaTime / 1000) * (timeScale / 60) minutes
    minus a whole number k >= 0 of day lengths. *)
Theorem update_wraps (self : TimeSystem.t) (deltaTime : Q) :
  TimeSystem.isPaused self = false ->
  0 < TimeSystem.dayLength self ->
  0 <= TimeSystem.timeScale self ->
  0 <= deltaTime ->
  0 <= TimeSystem.currentTime self < TimeSystem.dayLength self ->
  let self' := TimeSystem.update self deltaTime in
  let deltaMinutes := (deltaTime / 1000) * (TimeSystem.timeScale self / 60) in
  0 <= TimeSystem.currentTime self' < TimeSystem.dayLength self' /\
  TimeSystem.dayLength self' = TimeSystem.dayLength self /\
  exists k : Z,
    (0 <= k)%Z /\
    TimeSystem.currentTime self'
    == TimeSystem.currentTime self + deltaMinutes
       - inject_Z k * TimeSystem.dayLength self.
Proof.
  intros Hp Hday Hscale Hdt [Ht0 Ht1]. cbv zeta.
  unfold TimeSystem.update. rewrite Hp.
  set (deltaMinutes := (deltaTime / 1000) * (TimeSystem.timeScale self / 60)).
  assert (Hdm : 0 <= deltaMinutes).
  { subst deltaMinutes. apply Qmult_le_0_compat.
    - apply Qle_shift_div_l; [reflexivity | lra].
    - apply Qle_shift_div_l; [reflexivity | lra]. }
  destruct (Qleb (TimeSystem.dayLength self)
                 (TimeSystem.currentTime self + deltaMinutes)) eqn:E; simpl.
  - destruct (num_rem_range (TimeSystem.currentTime self + deltaMinutes)
                (TimeSystem.dayLength self) Hday ltac:(lra))
      as (k & Hk & Heq & H0 & H1).
    split; [split; assumption|]. split; [reflexivity|].
    exists k. split; [exact Hk|]. rewrite Heq. ring.
  - apply Qleb_gt in E.
    split; [split; [lra | exact E]|]. split; [reflexivity|].
    exists 0%Z. split; [lia|]. simpl. ring.
Qed.

Lemma update_wraps_witness :
  let self := TimeSystem.set_currentTime (23 * 60 + 59) TimeSystem.new in
  let self' := TimeSystem.update self 5000 in
  0 <= TimeSystem.currentTime self' < TimeSystem.dayLength self' /\
  TimeSystem.currentTime self' == 4.
Proof.
  assert (H1 : 0 <= TimeSystem.timeScale
                      (TimeSystem.set_currentTime (23 * 60 + 59) TimeSystem.new))
    by discriminate.
  assert (H2 : 0 <= 5000) by discriminate.
  assert (H3 : 0 <= TimeSystem.currentTime
                      (TimeSystem.set_currentTime (23 * 60 + 59) TimeSystem.new)
               < TimeSystem.dayLength
                   (TimeSystem.set_currentTime (23 * 60 + 59) TimeSystem.new)).
  { split; [discriminate | reflexivity]. }
  pose proof (update_wraps
                (TimeSystem.set_currentTime (23 * 60 + 59) TimeSystem.new) 5000
                eq_refl eq_refl H1 H2 H3) as H.
  split; [exact (proj1 H) | vm_compute; reflexivity].
Defined.

(** X8: setTimeScale stores the scale clamped to [1, 3600]: the stored scale is
    always within [1, 3600], it is the argument when the argument is within
    that range, 1 when the argument is at most 1 and 3600 when it is at
    least 3600; the current time is not touched. *)
Theorem setTimeScale_clamps (self : TimeSystem.t) (scale : Q) :
  let self' := TimeSystem.setTimeScale self scale in
  1 <= TimeSystem.timeScale self' <= 3600 /\
  (1 <= scale <= 3600 -> TimeSystem.timeScale self' == scale) /\
  (scale <= 1 -> TimeSystem.timeScale self' == 1) /\
  (3600 <= scale -> TimeSystem.timeScale self' == 3600) /\
  TimeSystem.currentTime self' = TimeSystem.currentTime self.
Proof.
  simpl. split.
  { split; [apply Q.le_max_l|].
    apply Q.max_lub; [discriminate | apply Q.le_min_l]. }
  split.
  { intros [H1 H2]. rewrite Q.min_r by exact H2. apply Q.max_r. exact H1. }
  split.
  { intros H. apply Q.max_l. eapply Qle_trans; [apply Q.le_min_r | exact H]. }
  split.
  { intros H. rewrite Q.min_l by exact H. apply Q.max_r. discriminate. }
  reflexivity.
Qed.

(** One comparison of a cascade of tests, settled either way. *)
Ltac time_case :=
  match goal with
  | |- context [Qleb ?a ?b] =>
      let E := fresh "E" in
      destruct (Qleb a b) eqn:E;
      [apply Qleb_le in E | apply Qleb_gt in E]
  | |- context [Qltb ?a ?b] =>
      let E := fresh "E" in
      destruct (Qltb a b) eqn:E;
      [apply Qltb_lt in E | apply Qltb_ge in E]
  end; cbn [orb]; cbv iota.

Ltac time_segment :=
  repeat split; intros; try discriminate; try lra;
  try match goal with
      | H : _ \/ _ |- _ => destruct H; exfalso; lra
      | |- _ \/ _ => first [left; lra | right; lra]
      end.

(** X9: With the thresholds in ascending order (dawn <= morning <= noon <=
    afternoon <= evening <= night), getTimeOfDay returns night exactly when
    time >= night or time < dawn, and each of evening, afternoon, noon,
    morning, dawn exactly on the half-open interval from its threshold to
    the next; it never returns 'midnight'; and isNighttime holds exactly
    when the segment is night. *)
Theorem getTimeOfDay_segments (self : TimeSystem.t) :
  TimeSystem.dawn self <= TimeSystem.morning self ->
  TimeSystem.morning self <= TimeSystem.noon self ->
  TimeSystem.noon self <= TimeSystem.afternoon self ->
  TimeSystem.afternoon self <= TimeSystem.evening self ->
  TimeSystem.evening self <= TimeSystem.night self ->
  let time := TimeSystem.currentTime self in
  let segment := TimeSystem.getTimeOfDay self in
  (segment = TimeOfDay.night <->
   TimeSystem.night self <= time \/ time < TimeSystem.dawn self) /\
  (segment = TimeOfDay.evening <->
   TimeSystem.evening self <= time < TimeSystem.night self) /\
  (segment = TimeOfDay.afternoon <->
   TimeSystem.afternoon self <= time < TimeSystem.evening self) /\
  (segment = TimeOfDay.noon <->
   TimeSystem.noon self <= time < TimeSystem.afternoon self) /\
  (segment = TimeOfDay.morning <->
   TimeSystem.morning self <= time < TimeSystem.noon self) /\
  (segment = TimeOfDay.dawn <->
   TimeSystem.dawn self <= time < TimeSystem.morning self) /\
  segment <> TimeOfDay.midnight /\
  (TimeSystem.isNighttime self = true <-> segment = TimeOfDay.night).
Proof.
  intros H1 H2 H3 H4 H5. cbv zeta.
  unfold TimeSystem.isNighttime, TimeSystem.getTimeOfDay.
  repeat time_case; time_segment.
Qed.

Lemma getTimeOfDay_segments_witness :
  let self := TimeSystem.set_currentTime (13 * 60 + 30) TimeSystem.new in
  TimeSystem.getTimeOfDay self = TimeOfDay.noon /\
  TimeSystem.noon self <= TimeSystem.currentTime self < TimeSystem.afternoon self.
Proof.
  split; [reflexivity|].
  apply (proj1 (proj1 (proj2 (proj2 (proj2
           (getTimeOfDay_segments
              (TimeSystem.set_currentTime (13 * 60 + 30) TimeSystem.new)
              ltac:(discriminate) ltac:(discriminate) ltac:(discriminate)
              ltac:(discriminate) ltac:(discriminate)))))));
    reflexivity.
Defined.

Lemma setTime_in_day (self : TimeSystem.t) (h m : Z) :
  inject_Z (h * 60 + m) < TimeSystem.dayLength self ->
  TimeSystem.currentTime
    (TimeSystem.setTime self (inject_Z h) (inject_Z m))
  == inject_Z (h * 60 + m).
Proof.
  intros Hlt. unfold TimeSystem.setTime.
  assert (E : inject_Z h * 60 + inject_Z m == inject_Z (h * 60 + m)).
  { rewrite inject_Z_plus, inject_Z_mult. reflexivity. }
  destruct (Qleb _ _) eqn:G.
  - apply Qleb_le in G. rewrite E in G. exfalso. apply (Qlt_not_le _ _ Hlt G).
  - simpl. exact E.
Qed.

Lemma clock_parts (self : TimeSystem.t) (h m : Z) :
  (0 <= h)%Z -> (0 <= m < 60)%Z ->
  TimeSystem.currentTime self == inject_Z (h * 60 + m) ->
  TimeSystem.formattedHours self = h /\ TimeSystem.formattedMinutes self = m.
Proof.
  intros Hh [Hm0 Hm1] Ht.
  rewrite inject_Z_plus, inject_Z_mult in Ht.
  change (inject_Z 60) with 60 in Ht.
  rewrite Zle_Qle in Hh, Hm0. rewrite Zlt_Qlt in Hm1.
  change (inject_Z 0) with 0 in Hh, Hm0. change (inject_Z 60) with 60 in Hm1.
  assert (H60 : (0 : Q) < 60) by reflexivity.
  assert (Hfl : Qfloor (TimeSystem.currentTime self / 60) = h).
  { apply Qfloor_unique; apply (Qdiv_bounds _ 60 h H60); lra. }
  split; [exact Hfl|].
  unfold TimeSystem.formattedMinutes, num_rem, num_trunc.
  assert (Hq : 0 <= TimeSystem.currentTime self / 60).
  { apply Qle_shift_div_l; [exact H60 | lra]. }
  apply Qleb_le in Hq. rewrite Hq, Hfl.
  assert (E : TimeSystem.currentTime self - 60 * inject_Z h == inject_Z m)
    by lra.
  rewrite E. apply Qfloor_Z.
Qed.

(** X10: For whole hours h >= 0 and whole minutes 0 <= m < 60 with h * 60 + m
    below the day length, setTime(h, m) sets the clock to h * 60 + m, and
    getFormattedTime then returns the 12-hour text: the hour (12 when h mod
    12 is 0, h mod 12 otherwise) and the minute, each padded to two digits,
    separated by ':' and followed by ' AM' when h < 12 and ' PM' otherwise. *)
Theorem setTime_getFormattedTime (self : TimeSystem.t) (h m : Z) :
  (0 <= h)%Z -> (0 <= m < 60)%Z ->
  inject_Z (h * 60 + m) < TimeSystem.dayLength self ->
  let self' := TimeSystem.setTime self (inject_Z h) (inject_Z m) in
  TimeSystem.currentTime self' == inject_Z (h * 60 + m) /\
  TimeSystem.getFormattedTime self'
  = TimeSystem.padStart2
      (pretty (if (h mod 12 =? 0)%Z then 12%Z else (h mod 12)%Z))
    +:+ ":" +:+ TimeSystem.padStart2 (pretty m) +:+ " " +:+
    (if (h <? 12)%Z then "AM" else "PM").
Proof.
  intros Hh Hm Hlt self'.
  pose proof (setTime_in_day self h m Hlt) as Ht.
  destruct (clock_parts self' h m Hh Hm Ht) as [Hhours Hmin].
  split; [exact Ht|].
  unfold TimeSystem.getFormattedTime, TimeSystem.formattedHour12,
    TimeSystem.formattedAmPm.
  rewrite Hhours, Hmin. rewrite Z.rem_mod_nonneg by lia. reflexivity.
Qed.

Lemma setTime_getFormattedTime_witness :
  TimeSystem.getFormattedTime (TimeSystem.setTime TimeSystem.new 13 5)
  = "01:05 PM"%string.
Proof.
  exact (proj2 (setTime_getFormattedTime TimeSystem.new 13 5
                  ltac:(lia) ltac:(lia) eq_refl)).
Defined.

(** ** Items and entities: tables, saving and loading *)

Lemma num_or_eq (a b : Q) : ~ a == 0 -> num_or a b = a.
Proof.
  intros H. unfold num_or. destruct (Qeq_bool a 0) eqn:E; [|reflexivity].
  apply Qeq_bool_iff in E. contradiction.
Qed.

Lemma num_or_Qeq (a : Q) : num_or a 0 == a.
Proof.
  unfold num_or. destruct (Qeq_bool a 0) eqn:E; [|reflexivity].
  apply Qeq_bool_iff in E. symmetry. exact E.
Qed.

(** X11: For a kind the item's satisfaction table lists,
    getSatisfactionAmount(needType) is the listed amount and
    canSatisfy(needType) is true exactly when that amount is positive; for
    a kind the table does not list, canSatisfy is false, and
    getSatisfactionAmount is 0 unless the kind is the name of an inherited
    member. *)
Theorem canSatisfy_iff_amount (item : FunctionalItem.t) (needType : string) :
  match JsObject.get (ItemDef.satisfies (FunctionalItem.itemDef item))
                     needType with
  | Some amount =>
      (FunctionalItem.canSatisfy item needType = true <->
       0 < FunctionalItem.getSatisfactionAmount item needType) /\
      FunctionalItem.getSatisfactionAmount item needType == amount
  | None =>
      FunctionalItem.canSatisfy item needType = false /\
      (needType ∉ JsObject.inherited ->
       FunctionalItem.getSatisfactionAmount item needType = 0)
  end.
Proof.
  unfold FunctionalItem.canSatisfy, FunctionalItem.getSatisfactionAmount.
  destruct (JsObject.get _ needType) as [amount|].
  - split; [rewrite Qltb_lt, num_or_Qeq; reflexivity | apply num_or_Qeq].
  - split; reflexivity.
Qed.

Lemma get_In {V} (o : JsObject.t V) (k : string) (v : V) :
  JsObject.get o k = Some v -> In (k, v) o.
Proof.
  intros H. destruct (get_Some_split _ _ _ H) as (pre & post & -> & _).
  apply in_or_app. right. left. reflexivity.
Qed.

Lemma getDefinitions_sound :
  Forall (fun e => sound_definition e.2) ItemDefinitions.getDefinitions.
Proof.
  unfold ItemDefinitions.getDefinitions.
  repeat (apply Forall_cons; split;
          [ unfold sound_definition; cbn [snd ItemDef.useTime ItemDef.satisfies];
            split; [reflexivity|];
            split; [apply Exists_cons_hd; reflexivity|];
            split; [repeat (apply Forall_cons; split;
                            [eexists; reflexivity|]); apply List.Forall_nil|];
            unfold JsObject.keys; cbn [map fst];
            repeat (apply NoDup_cons_2;
                    [ intros H;
                      repeat (apply elem_of_cons in H as [H|H];
                              [discriminate H|]);
                      by apply elem_of_nil in H | ]);
            apply NoDup_nil_2
          | ]).
  apply List.Forall_nil.
Qed.

Lemma In_get {V} (o : JsObject.t V) (k : string) (v : V) :
  NoDup (JsObject.keys o) -> In (k, v) o -> JsObject.get o k = Some v.
Proof.
  unfold JsObject.keys.
  induction o as [|[k' v'] o IH]; simpl; intros Hnd Hin; [contradiction|].
  apply NoDup_cons in Hnd as [Hnot Hnd].
  destruct Hin as [[= -> ->] | Hin].
  - rewrite String.eqb_refl. reflexivity.
  - destruct (String.eqb k' k) eqn:E; [|apply IH; assumption].
    apply String.eqb_eq in E. subst k'. exfalso. apply Hnot.
    apply list_elem_of_In. apply (in_map fst) in Hin. exact Hin.
Qed.

(** X12: createItem returns null for a key that the catalogue does not hold
    and that is not the name of an inherited member, and fails with a
    TypeError for an inherited name; for a catalogue key it returns a
    functional item on the given tile that carries the catalogue entry, is
    available, has maxUseTime equal to the entry's useTime, which is
    positive, can satisfy at least one kind, and can satisfy only kinds
    the needs system configures. *)
Theorem createItem_spec (id defKey : string) (x y : Z) :
  match JsObject.get ItemDefinitions.getDefinitions defKey with
  | None =>
      ItemDefinitions.createItem id defKey x y
      = if bool_decide (defKey ∈ JsObject.inherited) then None else Some None
  | Some def =>
      exists item,
        ItemDefinitions.createItem id defKey x y = Some (Some item) /\
        FunctionalItem.itemDef item = def /\
        Entity.type (FunctionalItem.ent item) = "functional"%string /\
        Entity.tileX (FunctionalItem.ent item) = x /\
        Entity.tileY (FunctionalItem.ent item) = y /\
        FunctionalItem.isAvailable item = true /\
        FunctionalItem.maxUseTime item = ItemDef.useTime def /\
        0 < FunctionalItem.maxUseTime item /\
        (exists kind, FunctionalItem.canSatisfy item kind = true) /\
        (forall kind, FunctionalItem.canSatisfy item kind = true ->
           is_Some (JsObject.get (NeedsSystem.needTypes NeedsSystem.new) kind))
  end.
Proof.
  unfold ItemDefinitions.createItem, JsObject.read.
  destruct (JsObject.get ItemDefinitions.getDefinitions defKey) as [def|] eqn:E;
    [|destruct (bool_decide (defKey ∈ JsObject.inherited)); reflexivity].
  pose proof getDefinitions_sound as Hall. rewrite Forall_forall in Hall.
  destruct (Hall (defKey, def) (proj2 (list_elem_of_In _ _) (get_In _ _ _ E)))
    as (Htime & Hex & Hkinds & Hnd).
  cbn [snd] in *.
  assert (Hmax : num_or (ItemDef.useTime def) 5 = ItemDef.useTime def).
  { apply num_or_eq. lra. }
  eexists. split; [reflexivity|]. cbn.
  split; [reflexivity|]. split; [reflexivity|]. split; [reflexivity|].
  split; [reflexivity|]. split; [reflexivity|].
  split; [exact Hmax|]. split; [rewrite Hmax; exact Htime|]. split.
  - apply Exists_exists in Hex as [[kind amount] [Hin Hpos]].
    exists kind. unfold FunctionalItem.canSatisfy. cbn.
    rewrite (In_get _ kind amount Hnd (proj1 (list_elem_of_In _ _) Hin)).
    apply Qltb_lt. exact Hpos.
  - intros kind. unfold FunctionalItem.canSatisfy. cbn.
    destruct (JsObject.get (ItemDef.satisfies def) kind) as [amount|] eqn:G;
      [|discriminate].
    intros _. rewrite Forall_forall in Hkinds.
    apply (Hkinds (kind, amount)). apply list_elem_of_In.
    apply get_In. exact G.
Qed.

(** X13: Deserializing the serialized form of an entity e into any entity gives
    e's tile, e's interactable flag, pixel coordinates equal to tile * 32
    (not e's pixel position), e's id, type and name when they are not the
    empty string (an empty one leaves the receiving entity's id), e's sprite
    when it has one and the receiver's otherwise; active and
    markedForRemoval are not saved and stay the receiver's. *)
Theorem entity_serialize_deserialize (e fresh : Entity.t) :
  let loaded := Entity.deserialize fresh (Entity.serialize e) in
  (Entity.id e <> ""%string -> Entity.id loaded = Entity.id e) /\
  (Entity.id e = ""%string -> Entity.id loaded = Entity.id fresh) /\
  (Entity.type e <> ""%string -> Entity.type loaded = Entity.type e) /\
  (Entity.name e <> ""%string -> Entity.name loaded = Entity.name e) /\
  Entity.tileX loaded = Entity.tileX e /\
  Entity.tileY loaded = Entity.tileY e /\
  Entity.pixelX loaded = inject_Z (Entity.tileX e * 32) /\
  Entity.pixelY loaded = inject_Z (Entity.tileY e * 32) /\
  Entity.interactable loaded = Entity.interactable e /\
  Entity.sprite loaded = opt_or (Entity.sprite e) (Entity.sprite fresh) /\
  Entity.active loaded = Entity.active fresh /\
  Entity.markedForRemoval loaded = Entity.markedForRemoval fresh.
Proof.
  cbv zeta. unfold Entity.deserialize, Entity.serialize, str_or. cbn.
  repeat split; try reflexivity; intros H;
    try (apply String.eqb_neq in H; rewrite H; reflexivity);
    try (rewrite H; reflexivity).
Qed.

(** X14: A functional item with a non-empty id and name, serialized and loaded
    back through the entity factory of loadMap, comes back as a functional
    item with the same definition, id, name, tile, sprite and interactable
    flag and type 'functional'; its maxUseTime is recomputed from the
    definition (useTime, or 5 when that is 0), and the use state is not
    saved: the loaded item is available, with no occupant and useTime 0. *)
Theorem functional_serialize_deserialize
    (ids : nat -> string) (personalities : nat -> Personality.t)
    (sys : option NeedsSystem.t) (i : nat) (item : FunctionalItem.t) :
  Entity.id (FunctionalItem.ent item) <> ""%string ->
  Entity.name (FunctionalItem.ent item) <> ""%string ->
  let data := FunctionalItem.serialize item in
  exists fresh,
    MapRenderer.entityFactory ids personalities sys i data
    = Some (Heap.Functional fresh) /\
    let loaded := FunctionalItem.deserialize fresh data in
    FunctionalItem.itemDef loaded = FunctionalItem.itemDef item /\
    FunctionalItem.maxUseTime loaded
    = num_or (ItemDef.useTime (FunctionalItem.itemDef item)) 5 /\
    FunctionalItem.isAvailable loaded = true /\
    FunctionalItem.usedBy loaded = None /\
    FunctionalItem.useTime loaded = 0 /\
    Entity.id (FunctionalItem.ent loaded) = Entity.id (FunctionalItem.ent item) /\
    Entity.name (FunctionalItem.ent loaded)
    = Entity.name (FunctionalItem.ent item) /\
    Entity.type (FunctionalItem.ent loaded) = "functional"%string /\
    Entity.tileX (FunctionalItem.ent loaded)
    = Entity.tileX (FunctionalItem.ent item) /\
    Entity.tileY (FunctionalItem.ent loaded)
    = Entity.tileY (FunctionalItem.ent item) /\
    Entity.sprite (FunctionalItem.ent loaded)
    = Entity.sprite (FunctionalItem.ent item) /\
    Entity.interactable (FunctionalItem.ent loaded)
    = Entity.interactable (FunctionalItem.ent item).
Proof.
  intros Hid Hname data.
  apply String.eqb_neq in Hid. apply String.eqb_neq in Hname.
  eexists. split; [reflexivity|].
  cbv zeta. subst data.
  unfold FunctionalItem.deserialize, FunctionalItem.serialize,
    Entity.deserialize, Entity.serialize, str_or. cbn.
  rewrite ?Hid, ?Hname. cbn.
  repeat split; try reflexivity.
  destruct (Entity.sprite (FunctionalItem.ent item)); reflexivity.
Qed.

Lemma functional_serialize_deserialize_witness :
  let item := fst (FunctionalItem.startUse (Sample.item "bed" 4 2) "entity_1") in
  let data := FunctionalItem.serialize item in
  exists fresh,
    MapRenderer.entityFactory (fun _ => "entity_3"%string)
      (fun _ => Personality.mk 0 0 0) None 0 data
    = Some (Heap.Functional fresh) /\
    FunctionalItem.isAvailable item = false /\
    FunctionalItem.isAvailable (FunctionalItem.deserialize fresh data) = true.
Proof.
  destruct (functional_serialize_deserialize (fun _ => "entity_3"%string)
              (fun _ => Personality.mk 0 0 0) None 0
              (fst (FunctionalItem.startUse (Sample.item "bed" 4 2) "entity_1"))
              ltac:(discriminate) ltac:(discriminate))
    as (fresh & Hf & _ & _ & Hav & _).
  exists fresh. split; [exact Hf|]. split; [reflexivity | exact Hav].
Defined.

(** ** The entity index: insertion, lookup, removal *)

Section JsMap_more.
Context {K V : Type} `{EqDecision K}.
Implicit Types (m : JsMap.t K V) (k : K) (v : V).

Lemma JsMap_get_set_eq m k v : JsMap.get (JsMap.set m k v) k = Some v.
Proof.
  induction m as [|[k0 v0] m IH]; simpl.
  - rewrite decide_True by reflexivity. reflexivity.
  - destruct (decide (k0 = k)) as [->|Hne]; simpl.
    + rewrite decide_True by reflexivity. reflexivity.
    + rewrite decide_False by exact Hne. exact IH.
Qed.

Lemma JsMap_set_set m k v v' : JsMap.set (JsMap.set m k v) k v' = JsMap.set m k v'.
Proof.
  induction m as [|[k0 v0] m IH]; simpl.
  - rewrite decide_True by reflexivity. reflexivity.
  - destruct (decide (k0 = k)) as [->|Hne]; simpl.
    + rewrite decide_True by reflexivity. reflexivity.
    + rewrite decide_False by exact Hne. rewrite IH. reflexivity.
Qed.

Lemma JsMap_keys_set m k v :
  map fst (JsMap.set m k v)
  = if JsMap.get m k is Some _ then map fst m else map fst m ++ [k].
Proof.
  induction m as [|[k0 v0] m IH]; simpl; [reflexivity|].
  destruct (decide (k0 = k)) as [->|Hne]; simpl; [reflexivity|].
  rewrite IH. destruct (JsMap.get m k); reflexivity.
Qed.

Lemma JsMap_get_None_keys m k : JsMap.get m k = None -> k ∉ map fst m.
Proof.
  induction m as [|[k0 v0] m IH]; simpl; intros H Hin.
  - by apply elem_of_nil in Hin.
  - destruct (decide (k0 = k)) as [->|Hne]; [discriminate|].
    apply elem_of_cons in Hin as [->|Hin]; [contradiction|].
    exact (IH H Hin).
Qed.

Lemma JsMap_set_NoDup m k v : NoDup (map fst m) -> NoDup (map fst (JsMap.set m k v)).
Proof.
  intros Hnd. rewrite JsMap_keys_set.
  destruct (JsMap.get m k) eqn:E; [exact Hnd|].
  apply NoDup_app. split; [exact Hnd|]. split.
  - intros x Hx Hk. apply list_elem_of_singleton in Hk. subst x.
    exact (JsMap_get_None_keys m k E Hx).
  - apply NoDup_singleton.
Qed.

Lemma JsMap_keys_delete m k : sublist (map fst (JsMap.delete m k)) (map fst m).
Proof.
  induction m as [|[k0 v0] m IH]; simpl; [constructor|].
  destruct (decide (k0 = k)); simpl.
  - apply sublist_cons. reflexivity.
  - apply sublist_skip. exact IH.
Qed.

Lemma JsMap_delete_NoDup m k : NoDup (map fst m) -> NoDup (map fst (JsMap.delete m k)).
Proof. intros Hnd. eapply sublist_NoDup; [exact Hnd | apply JsMap_keys_delete]. Qed.

Lemma JsMap_get_delete_eq m k : NoDup (map fst m) -> JsMap.get (JsMap.delete m k) k = None.
Proof.
  induction m as [|[k0 v0] m IH]; simpl; intros Hnd; [reflexivity|].
  apply NoDup_cons in Hnd as [Hnot Hnd].
  destruct (decide (k0 = k)) as [->|Hne]; simpl.
  - destruct (JsMap.get m k) eqn:E; [|reflexivity].
    exfalso. apply Hnot. clear -E.
    induction m as [|[k1 v1] m IH]; simpl in *; [discriminate|].
    destruct (decide (k1 = k)) as [->|]; [left | right; auto].
  - rewrite decide_False by exact Hne. apply IH. exact Hnd.
Qed.

Lemma JsMap_Forall_set (P : K * V -> Prop) m k v :
  Forall P m -> (forall k', P (k', v)) -> Forall P (JsMap.set m k v).
Proof.
  intros Hm Hv. induction Hm as [|[k0 v0] m H0 Hm IH]; simpl.
  - constructor; [apply Hv | constructor].
  - destruct (decide (k0 = k)); constructor; auto.
Qed.

Lemma JsMap_Forall_delete (P : K * V -> Prop) m k :
  Forall P m -> Forall P (JsMap.delete m k).
Proof.
  intros Hm. induction Hm as [|[k0 v0] m H0 Hm IH]; simpl; [constructor|].
  destruct (decide (k0 = k)); [exact Hm | constructor; auto].
Qed.

Lemma JsMap_get_Forall (P : K * V -> Prop) m k v :
  Forall P m -> JsMap.get m k = Some v -> P (k, v).
Proof.
  intros Hm. induction Hm as [|[k0 v0] m H0 Hm IH]; simpl; [discriminate|].
  destruct (decide (k0 = k)) as [->|]; [intros [= <-]; exact H0 | exact IH].
Qed.

End JsMap_more.

Lemma JsSet_add_elem (s : JsSet.t) (r : positive) : r ∈ JsSet.add s r.
Proof.
  unfold JsSet.add. destruct (bool_decide (r ∈ s)) eqn:E.
  - apply bool_decide_eq_true in E. exact E.
  - apply elem_of_app. right. apply list_elem_of_singleton. reflexivity.
Qed.

Lemma JsSet_add_add (s : JsSet.t) (r : positive) :
  JsSet.add (JsSet.add s r) r = JsSet.add s r.
Proof.
  unfold JsSet.add at 1. rewrite bool_decide_eq_true_2; [reflexivity|].
  apply JsSet_add_elem.
Qed.

Lemma JsSet_add_NoDup (s : JsSet.t) (r : positive) : NoDup s -> NoDup (JsSet.add s r).
Proof.
  intros Hnd. unfold JsSet.add. destruct (bool_decide (r ∈ s)) eqn:E; [exact Hnd|].
  apply bool_decide_eq_false in E.
  apply NoDup_app. split; [exact Hnd|]. split; [|apply NoDup_singleton].
  intros x Hx Hr. apply list_elem_of_singleton in Hr. subst x. contradiction.
Qed.

Lemma JsSet_add_nonempty (s : JsSet.t) (r : positive) : JsSet.add s r <> [].
Proof.
  intros H. pose proof (JsSet_add_elem s r) as Hin. rewrite H in Hin.
  by apply elem_of_nil in Hin.
Qed.

Lemma JsSet_delete_elem (s : JsSet.t) (r r' : positive) :
  r' ∈ JsSet.delete s r <-> r' ∈ s /\ r' <> r.
Proof. unfold JsSet.delete. rewrite list_elem_of_filter. tauto. Qed.


Lemma indexEntityPosition_wf (index : EntityManager.t) (e : Entity.t) (r : positive) :
  index_wf index -> index_wf (EntityManager.indexEntityPosition index e r).
Proof.
  intros (H1 & H2 & H3 & H4 & H5).
  unfold index_wf, EntityManager.indexEntityPosition. simpl.
  split; [exact H1|]. split; [exact H2|].
  split; [apply JsMap_set_NoDup; exact H3|]. split; [exact H4|].
  apply JsMap_Forall_set; [exact H5|]. intros k'. simpl.
  split; [|apply JsSet_add_nonempty].
  apply JsSet_add_NoDup.
  destruct (JsMap.get _ _) as [b|] eqn:E; simpl; [|apply NoDup_nil_2].
  exact (proj1 (JsMap_get_Forall _ _ _ _ H5 E)).
Qed.



Lemma add_wf (h : Heap.t) (index : EntityManager.t) (r : positive) :
  index_wf index -> index_wf (EntityManager.add h index r).
Proof.
  intros H. unfold EntityManager.add.
  destruct (Heap.entity h r) as [e|]; [|exact H].
  apply indexEntityPosition_wf.
  destruct H as (H1 & H2 & H3 & H4 & H5). unfold index_wf. simpl.
  split; [apply JsMap_set_NoDup; exact H1|].
  split; [apply JsMap_set_NoDup; exact H2|]. split; [exact H3|].
  split; [|exact H5].
  apply JsMap_Forall_set; [exact H4|]. intros k'. simpl.
  apply JsSet_add_NoDup.
  destruct (JsMap.get _ _) as [b|] eqn:E; simpl; [|apply NoDup_nil_2].
  exact (JsMap_get_Forall _ _ _ _ H4 E).
Qed.





Lemma index_wf_new : index_wf EntityManager.new.
Proof. unfold index_wf. simpl. repeat split; constructor. Qed.


Lemma add_get (h : Heap.t) (index : EntityManager.t) (r : positive)
    (e : Entity.t) (id : string) :
  Heap.entity h r = Some e ->
  EntityManager.get (EntityManager.add h index r) id
  = if decide (id = Entity.id e) then Some r else EntityManager.get index id.
Proof.
  intros He.
  unfold EntityManager.add, EntityManager.get, EntityManager.indexEntityPosition.
  rewrite He. cbn [EntityManager.entities].
  destruct (decide (id = Entity.id e)) as [->|Hne].
  - apply JsMap_get_set_eq.
  - apply JsMap_get_set_ne. congruence.
Qed.

(** X17: After add(entity), get(entity.id) returns the entity and it is listed by
    getByType(entity.type) and by getAtPosition(entity.tileX, entity.tileY);
    get for every other id, getByType for every other type and getAtPosition
    for every other tile answer as before; and adding the same entity again
    changes nothing. *)
Theorem add_lookup (h : Heap.t) (index : EntityManager.t) (r : positive)
    (e : Entity.t) :
  Heap.entity h r = Some e ->
  let index' := EntityManager.add h index r in
  EntityManager.get index' (Entity.id e) = Some r /\
  r ∈ EntityManager.getByType index' (Entity.type e) /\
  r ∈ EntityManager.getAtPosition index' (Entity.tileX e) (Entity.tileY e) /\
  (forall id, id <> Entity.id e ->
     EntityManager.get index' id = EntityManager.get index id) /\
  (forall type, type <> Entity.type e ->
     EntityManager.getByType index' type = EntityManager.getByType index type) /\
  (forall x y, (x, y) <> (Entity.tileX e, Entity.tileY e) ->
     EntityManager.getAtPosition index' x y
     = EntityManager.getAtPosition index x y) /\
  EntityManager.add h index' r = index'.
Proof.
  intros He index'. subst index'.
  unfold EntityManager.add, EntityManager.get, EntityManager.getByType,
    EntityManager.getAtPosition, EntityManager.indexEntityPosition.
  rewrite He. simpl.
  rewrite !JsMap_get_set_eq. simpl.
  split; [reflexivity|].
  split; [apply JsSet_add_elem|]. split; [apply JsSet_add_elem|].
  split; [intros id Hne; rewrite JsMap_get_set_ne by congruence; reflexivity|].
  split; [intros t Hne; rewrite JsMap_get_set_ne by congruence; reflexivity|].
  split; [intros x y Hne; rewrite JsMap_get_set_ne by congruence; reflexivity|].
  rewrite !JsMap_set_set, !JsSet_add_add. reflexivity.
Qed.

Lemma add_lookup_witness :
  let h : Heap.t := {[ 1%positive := Heap.Npc (Sample.agent 2 3) ]} in
  let index := EntityManager.add h EntityManager.new 1 in
  EntityManager.get index "entity_1" = Some 1%positive /\
  EntityManager.getAtPosition index 2 3 = [1%positive].
Proof.
  pose proof (add_lookup {[ 1%positive := Heap.Npc (Sample.agent 2 3) ]}
                EntityManager.new 1 (NPC.ent (Sample.agent 2 3)) eq_refl)
    as (Hg & _).
  split; [exact Hg | reflexivity].
Defined.

Lemma unindexEntityPosition_entities index e r :
  EntityManager.entities (EntityManager.unindexEntityPosition index e r)
  = EntityManager.entities index.
Proof.
  unfold EntityManager.unindexEntityPosition.
  destruct (JsMap.get _ _); [|reflexivity].
  destruct (_ =? _)%nat; reflexivity.
Qed.

Lemma updateEntityPosition_entities index e r :
  EntityManager.entities (EntityManager.updateEntityPosition index e r)
  = EntityManager.entities index.
Proof.
  unfold EntityManager.updateEntityPosition.
  destruct (bool_decide _); [|reflexivity].
  unfold EntityManager.indexEntityPosition. simpl.
  apply unindexEntityPosition_entities.
Qed.

Lemma unindexEntityPosition_byType index e r :
  EntityManager.entitiesByType (EntityManager.unindexEntityPosition index e r)
  = EntityManager.entitiesByType index.
Proof.
  unfold EntityManager.unindexEntityPosition.
  destruct (JsMap.get _ _); [|reflexivity].
  destruct (_ =? _)%nat; reflexivity.
Qed.

Lemma unindexEntityPosition_gone index e r :
  NoDup (map fst (EntityManager.entitiesByPosition index)) ->
  r ∉ EntityManager.getAtPosition
        (EntityManager.unindexEntityPosition index e r)
        (Entity.tileX e) (Entity.tileY e).
Proof.
  intros Hnd.
  unfold EntityManager.getAtPosition, EntityManager.unindexEntityPosition.
  destruct (JsMap.get (EntityManager.entitiesByPosition index)
                      (Entity.tileX e, Entity.tileY e)) as [b|] eqn:E.
  - destruct (_ =? _)%nat; simpl.
    + rewrite JsMap_get_delete_eq by exact Hnd. apply not_elem_of_nil.
    + rewrite JsMap_get_set_eq. simpl. rewrite JsSet_delete_elem. tauto.
  - rewrite E. apply not_elem_of_nil.
Qed.

(** X18: In a well-formed index, after remove(id) of a registered entity get(id)
    returns null, the entity is listed neither under its type nor under its
    current tile, and get for every other id and getAtPosition for every
    other tile answer as before; remove of an id that is not registered
    changes nothing. *)
Theorem remove_lookup (h : Heap.t) (index : EntityManager.t) (id : string)
    (r : positive) (e : Entity.t) :
  index_wf index ->
  EntityManager.get index id = Some r ->
  Heap.entity h r = Some e ->
  let index' := EntityManager.remove h index id in
  EntityManager.get index' id = None /\
  (r ∉ EntityManager.getByType index' (Entity.type e)) /\
  (r ∉ EntityManager.getAtPosition index' (Entity.tileX e) (Entity.tileY e)) /\
  (forall id', id' <> id ->
     EntityManager.get index' id' = EntityManager.get index id') /\
  (forall x y, (x, y) <> (Entity.tileX e, Entity.tileY e) ->
     EntityManager.getAtPosition index' x y
     = EntityManager.getAtPosition index x y) /\
  (forall id', EntityManager.get index id' = None ->
     EntityManager.remove h index id' = index).
Proof.
  intros (H1 & H2 & H3 & H4 & H5) Hget He index'. subst index'.
  assert (Hrem : EntityManager.remove h index id
          = EntityManager.unindexEntityPosition
              (match JsMap.get
                       (EntityManager.entitiesByType
                          (EntityManager.set_entities
                             (JsMap.delete (EntityManager.entities index) id)
                             index))
                       (Entity.type e) with
               | Some typeSet =>
                   EntityManager.set_entitiesByType
                     (JsMap.set
                        (EntityManager.entitiesByType
                           (EntityManager.set_entities
                              (JsMap.delete (EntityManager.entities index) id)
                              index))
                        (Entity.type e) (JsSet.delete typeSet r))
                     (EntityManager.set_entities
                        (JsMap.delete (EntityManager.entities index) id) index)
               | None =>
                   EntityManager.set_entities
                     (JsMap.delete (EntityManager.entities index) id) index
               end) e r).
  { unfold EntityManager.remove. unfold EntityManager.get in Hget.
    rewrite Hget, He. reflexivity. }
  rewrite Hrem. clear Hrem. cbn [EntityManager.entitiesByType
                                 EntityManager.set_entities].
  set (mid := match JsMap.get (EntityManager.entitiesByType index)
                      (Entity.type e) with
              | Some typeSet => _
              | None => _
              end).
  assert (Hmid_e : EntityManager.entities mid
                   = JsMap.delete (EntityManager.entities index) id).
  { subst mid. destruct (JsMap.get _ (Entity.type e)); reflexivity. }
  assert (Hmid_p : EntityManager.entitiesByPosition mid
                   = EntityManager.entitiesByPosition index).
  { subst mid. destruct (JsMap.get _ (Entity.type e)); reflexivity. }
  split; [|split; [|split; [|split; [|split]]]].
  - unfold EntityManager.get.
    rewrite unindexEntityPosition_entities, Hmid_e.
    apply JsMap_get_delete_eq. exact H1.
  - unfold EntityManager.getByType. rewrite unindexEntityPosition_byType.
    subst mid.
    destruct (JsMap.get (EntityManager.entitiesByType index) (Entity.type e))
      as [b|] eqn:E; simpl.
    + rewrite JsMap_get_set_eq. simpl. rewrite JsSet_delete_elem. tauto.
    + rewrite E. simpl. apply not_elem_of_nil.
  - apply unindexEntityPosition_gone. rewrite Hmid_p. exact H3.
  - intros id' Hne. unfold EntityManager.get.
    rewrite unindexEntityPosition_entities, Hmid_e.
    apply JsMap_get_delete_ne. congruence.
  - intros x y Hne. unfold EntityManager.getAtPosition. f_equal.
    rewrite unindexEntityPosition_other by congruence.
    rewrite Hmid_p. reflexivity.
  - intros id' Hnone. unfold EntityManager.remove.
    unfold EntityManager.get in Hnone. rewrite Hnone. reflexivity.
Qed.

Lemma remove_lookup_witness :
  let h : Heap.t := {[ 1%positive := Heap.Npc (Sample.agent 2 3) ]} in
  let index := EntityManager.add h EntityManager.new 1 in
  EntityManager.get (EntityManager.remove h index "entity_1") "entity_1" = None.
Proof.
  assert (Hwf : index_wf
                  (EntityManager.add
                     {[ 1%positive := Heap.Npc (Sample.agent 2 3) ]}
                     EntityManager.new 1)).
  { apply add_wf, index_wf_new. }
  exact (proj1 (remove_lookup {[ 1%positive := Heap.Npc (Sample.agent 2 3) ]}
                  _ "entity_1" 1 (NPC.ent (Sample.agent 2 3))
                  Hwf eq_refl eq_refl)).
Defined.

Lemma entityUpdate_no_agent env ai h r deltaTime :
  (forall n, h !! r = Some (Heap.Npc n) -> Entity.active (NPC.ent n) = false) ->
  EntityManager.entityUpdate env ai h r deltaTime = h.
Proof.
  intros H. unfold EntityManager.entityUpdate.
  destruct (h !! r) as [[n| |]|] eqn:E; try reflexivity.
  unfold Agent.update, Heap.npc. rewrite E, (H n eq_refl). reflexivity.
Qed.

Lemma updateLoop_no_agent env ai deltaTime h (rs : list positive) :
  Forall (fun r => forall n, h !! r = Some (Heap.Npc n) ->
                             Entity.active (NPC.ent n) = false) rs ->
  forall index toRemove,
    exists index',
      EntityManager.updateLoop env ai deltaTime rs h index toRemove
      = (h, index', toRemove ++ marked_ids h rs) /\
      EntityManager.entities index' = EntityManager.entities index.
Proof.
  induction 1 as [|r rs Hr _ IH]; intros index toRemove; simpl.
  - exists index. rewrite app_nil_r. auto.
  - unfold marked_ids. simpl.
    destruct (Heap.entity h r) as [e|] eqn:E; [|apply IH].
    destruct (Entity.markedForRemoval e).
    + destruct (IH index (toRemove ++ [Entity.id e])) as (index' & Heq & He).
      exists index'. rewrite Heq, <- app_assoc. auto.
    + destruct (Entity.active e); [|apply IH].
      rewrite (entityUpdate_no_agent _ _ _ _ _ Hr), E.
      destruct (IH (EntityManager.updateEntityPosition index e r) toRemove)
        as (index' & Heq & He).
      exists index'. rewrite Heq, He, updateEntityPosition_entities. auto.
Qed.

Lemma remove_entities h index id :
  index_registered h index ->
  EntityManager.entities (EntityManager.remove h index id)
  = JsMap.delete (EntityManager.entities index) id.
Proof.
  intros Hreg. unfold EntityManager.remove.
  destruct (JsMap.get (EntityManager.entities index) id) as [r|] eqn:G.
  - unfold index_registered in Hreg.
    destruct (JsMap_get_Forall _ _ _ _ Hreg G) as (e & He & _). simpl in He.
    rewrite He, unindexEntityPosition_entities.
    destruct (JsMap.get _ (Entity.type e)); reflexivity.
  - clear Hreg. induction (EntityManager.entities index) as [|[k v] m IH];
      simpl in *; [reflexivity|].
    destruct (decide (k = id)); [discriminate|]. rewrite <- IH; auto.
Qed.

Lemma fold_remove_entities h (ids : list string) :
  forall index,
    index_registered h index ->
    EntityManager.entities (fold_left (EntityManager.remove h) ids index)
    = fold_left JsMap.delete ids (EntityManager.entities index).
Proof.
  induction ids as [|id ids IH]; intros index Hreg; simpl; [reflexivity|].
  rewrite IH, remove_entities by
    (try exact Hreg; unfold index_registered;
     rewrite remove_entities by exact Hreg;
     apply JsMap_Forall_delete; exact Hreg).
  reflexivity.
Qed.

Lemma get_fold_delete (ids : list string) :
  forall (m : JsMap.t string positive) (id : string),
    NoDup (map fst m) ->
    JsMap.get (fold_left JsMap.delete ids m) id
    = if bool_decide (id ∈ ids) then None else JsMap.get m id.
Proof.
  induction ids as [|id0 ids IH]; intros m id Hnd; simpl; [reflexivity|].
  rewrite IH by (apply JsMap_delete_NoDup; exact Hnd).
  destruct (decide (id = id0)) as [->|Hne].
  - rewrite (bool_decide_eq_true_2 (id0 ∈ id0 :: ids)) by left.
    rewrite JsMap_get_delete_eq by exact Hnd.
    destruct (bool_decide _); reflexivity.
  - rewrite JsMap_get_delete_ne by congruence.
    destruct (bool_decide (id ∈ ids)) eqn:B.
    + apply bool_decide_eq_true in B.
      rewrite bool_decide_eq_true_2 by (right; exact B). reflexivity.
    + apply bool_decide_eq_false in B.
      rewrite bool_decide_eq_false_2; [reflexivity|].
      intros Hin. apply elem_of_cons in Hin as [?|?]; contradiction.
Qed.

Lemma marked_ids_elem h (m : JsMap.t string positive) (id : string)
    (r : positive) (e : Entity.t) :
  NoDup (map fst m) ->
  Forall (fun kr => exists e, Heap.entity h kr.2 = Some e /\ Entity.id e = kr.1) m ->
  JsMap.get m id = Some r -> Heap.entity h r = Some e ->
  id ∈ marked_ids h (JsMap.values m) <-> Entity.markedForRemoval e = true.
Proof.
  unfold marked_ids, JsMap.values.
  induction m as [|[k v] m IH]; simpl; intros Hnd Hreg Hget He; [discriminate|].
  apply NoDup_cons in Hnd as [Hnot Hnd].
  apply Forall_cons in Hreg as [(e0 & He0 & Hid0) Hreg]. simpl in *.
  rewrite He0.
  destruct (decide (k = id)) as [->|Hne].
  - injection Hget as ->. rewrite He in He0. injection He0 as <-.
    destruct (Entity.markedForRemoval e) eqn:M.
    + split; [reflexivity|]. intros _. rewrite Hid0. left.
    + split; [|discriminate]. intros Hin. exfalso. apply Hnot.
      apply list_elem_of_omap in Hin as (r' & Hr' & Hsome).
      apply list_elem_of_fmap in Hr' as ([k' v'] & -> & Hkv). simpl in Hsome.
      rewrite Forall_forall in Hreg.
      destruct (Hreg _ Hkv) as (e' & He' & Hid'). simpl in *.
      rewrite He' in Hsome. destruct (Entity.markedForRemoval e'); [|discriminate].
      injection Hsome as Heq. apply list_elem_of_fmap.
      exists (k', v'). split; [simpl; congruence | exact Hkv].
  - rewrite <- (IH Hnd Hreg Hget He).
    destruct (Entity.markedForRemoval e0); [|reflexivity].
    rewrite elem_of_cons. split; [intros [?|?]; [congruence | assumption] | auto].
Qed.

(** X19: In a well-formed index whose every entry leads to an entity carrying the
    key as its id, and which holds no active agent, update changes no
    object, and afterwards get(id) returns null for exactly the registered
    entities that were marked for removal and the same entity as before for
    the others. *)
Theorem update_removes_marked (env : Env.t)
    (ai : EntityManager.t -> positive -> Heap.t -> Heap.t)
    (h : Heap.t) (index : EntityManager.t) (deltaTime : Q) :
  index_wf index ->
  index_registered h index ->
  no_active_agent h index ->
  let '(h', index') := EntityManager.update env ai h index deltaTime in
  h' = h /\
  forall id r e,
    EntityManager.get index id = Some r -> Heap.entity h r = Some e ->
    EntityManager.get index' id
    = if Entity.markedForRemoval e then None else Some r.
Proof.
  intros Hwf Hreg Hno. unfold EntityManager.update.
  destruct (updateLoop_no_agent env ai deltaTime h _ Hno index [])
    as (index1 & Heq & Hent).
  rewrite Heq. simpl. split; [reflexivity|].
  intros id r e Hget He. unfold EntityManager.get in *.
  assert (Hreg1 : index_registered h index1).
  { unfold index_registered. rewrite Hent. exact Hreg. }
  rewrite fold_remove_entities by exact Hreg1.
  rewrite Hent, get_fold_delete by exact (proj1 Hwf).
  pose proof (marked_ids_elem h _ id r e (proj1 Hwf) Hreg Hget He) as Hiff.
  unfold EntityManager.getAll.
  destruct (Entity.markedForRemoval e).
  - rewrite bool_decide_eq_true_2 by (apply Hiff; reflexivity). reflexivity.
  - rewrite bool_decide_eq_false_2; [exact Hget|].
    intros Hin. apply Hiff in Hin. discriminate.
Qed.

Lemma JsSet_add_elem_iff (s : JsSet.t) (r r' : positive) :
  r' ∈ JsSet.add s r <-> r' ∈ s \/ r' = r.
Proof.
  unfold JsSet.add. destruct (bool_decide (r ∈ s)) eqn:E.
  - apply bool_decide_eq_true in E. split; [auto|]. intros [?| ->]; assumption.
  - rewrite elem_of_app, list_elem_of_singleton. reflexivity.
Qed.

Lemma add_position_elem h index r e x y r' :
  Heap.entity h r = Some e ->
  r' ∈ EntityManager.getAtPosition (EntityManager.add h index r) x y <->
  r' ∈ EntityManager.getAtPosition index x y \/
  (r' = r /\ Entity.tileX e = x /\ Entity.tileY e = y).
Proof.
  intros He. unfold EntityManager.add, EntityManager.getAtPosition,
    EntityManager.indexEntityPosition. rewrite He. simpl.
  destruct (decide ((Entity.tileX e, Entity.tileY e) = (x, y))) as [Heq|Hne].
  - rewrite Heq, JsMap_get_set_eq. simpl. rewrite JsSet_add_elem_iff.
    injection Heq as -> ->. tauto.
  - rewrite JsMap_get_set_ne by exact Hne.
    split; [auto|]. intros [?|(_ & <- & <-)]; [assumption | contradiction].
Qed.

Lemma add_type_elem h index r e type r' :
  Heap.entity h r = Some e ->
  r' ∈ EntityManager.getByType (EntityManager.add h index r) type <->
  r' ∈ EntityManager.getByType index type \/
  (r' = r /\ Entity.type e = type).
Proof.
  intros He. unfold EntityManager.add, EntityManager.getByType,
    EntityManager.indexEntityPosition. rewrite He. simpl.
  destruct (decide (Entity.type e = type)) as [<-|Hne].
  - rewrite JsMap_get_set_eq. simpl. rewrite JsSet_add_elem_iff. tauto.
  - rewrite JsMap_get_set_ne by exact Hne.
    split; [auto|]. intros [?|(_ & ?)]; [assumption | contradiction].
Qed.

Lemma alloc_fresh (h : Heap.t) (o : Heap.obj) :
  let '(h', r) := Heap.alloc h o in
  h !! r = None /\ h' !! r = Some o /\
  forall r', r' <> r -> h' !! r' = h !! r'.
Proof.
  unfold Heap.alloc. split.
  - apply not_elem_of_dom. apply is_fresh.
  - split; [apply lookup_insert_eq|].
    intros r' Hne. apply lookup_insert_ne. congruence.
Qed.

Lemma add_consistent (h : Heap.t) (index : EntityManager.t) (o : Heap.obj) :
  index_consistent h index ->
  let '(h', r) := Heap.alloc h o in
  index_consistent h' (EntityManager.add h' index r).
Proof.
  intros [Hpos Hreg]. pose proof (alloc_fresh h o) as Hfresh.
  destruct (Heap.alloc h o) as [h' r]. destruct Hfresh as (Hnone & Hsome & Hother).
  assert (He : Heap.entity h' r = Some (Heap.ent o)).
  { unfold Heap.entity. rewrite Hsome. reflexivity. }
  assert (Hold : forall r0 e0, Heap.entity h r0 = Some e0 ->
                               Heap.entity h' r0 = Some e0).
  { intros r0 e0 H0. unfold Heap.entity in *.
    rewrite Hother; [exact H0|]. intros ->. rewrite Hnone in H0. discriminate. }
  split.
  - intros x y r' Hin. apply (add_position_elem _ _ _ _ _ _ _ He) in Hin.
    destruct Hin as [Hin | (-> & Hx & Hy)].
    + destruct (Hpos x y r' Hin) as (e0 & H0 & Hxy). exists e0. split; auto.
    + exists (Heap.ent o). auto.
  - intros id r' Hget.
    rewrite (add_get h' index r (Heap.ent o) id He) in Hget.
    destruct (decide (id = Entity.id (Heap.ent o))) as [->|Hne].
    + injection Hget as <-.
      exists (Heap.ent o).
      pose proof (add_position_elem h' index r (Heap.ent o)
                    (Entity.tileX (Heap.ent o)) (Entity.tileY (Heap.ent o))
                    r He) as Hp.
      pose proof (add_type_elem h' index r (Heap.ent o)
                    (Entity.type (Heap.ent o)) r He) as Ht.
      split; [exact He|]. split; [reflexivity|]. split.
      * apply Hp. right. auto.
      * apply Ht. right. auto.
    + destruct (Hreg id r' Hget) as (e0 & H0 & Hid & Hp0 & Ht0).
      exists e0. split; [apply Hold; exact H0|]. split; [exact Hid|]. split.
      * apply (add_position_elem _ _ _ _ _ _ _ He). left. exact Hp0.
      * apply (add_type_elem _ _ _ _ _ _ He). left. exact Ht0.
Qed.

Lemma deserializeLoop_consistent entityFactory (data : list Data.t) :
  forall i h index,
    index_wf index -> index_consistent h index ->
    let '(h', index') :=
      EntityManager.deserializeLoop entityFactory i data h index in
    index_wf index' /\ index_consistent h' index'.
Proof.
  induction data as [|d data IH]; intros i h index Hwf Hc;
    cbn [EntityManager.deserializeLoop]; [auto|].
  destruct (entityFactory i d) as [o|]; [|apply IH; assumption].
  pose proof (add_consistent h index (EntityManager.deserializeEntity o d) Hc)
    as Hc'.
  destruct (Heap.alloc h _) as [h' r].
  apply IH; [apply add_wf; exact Hwf | exact Hc'].
Qed.

(** X20: Whatever the index held before and whatever the factory returns, after
    deserialize the index is well formed, every entity listed under a tile
    stands on that tile, every registered entity carries its key as id and
    is listed under its own tile and its own type, and every object that
    existed before still exists unchanged. *)
Theorem deserialize_consistent (h : Heap.t) (index : EntityManager.t)
    (data : list Data.t) (entityFactory : nat -> Data.t -> option Heap.obj) :
  let '(h', index') := EntityManager.deserialize h index data entityFactory in
  index_wf index' /\ index_consistent h' index' /\
  (forall r o, h !! r = Some o -> h' !! r = Some o).
Proof.
  unfold EntityManager.deserialize.
  assert (Hc : index_consistent h (EntityManager.clear index)).
  { split.
    - intros x y r Hin. unfold EntityManager.getAtPosition in Hin. simpl in Hin.
      by apply elem_of_nil in Hin.
    - intros id r Hget. discriminate Hget. }
  pose proof (deserializeLoop_consistent entityFactory data 0 h
                (EntityManager.clear index) index_wf_new Hc) as H.
  assert (Hkeep : forall i h0 index0,
            forall r o, h0 !! r = Some o ->
              (EntityManager.deserializeLoop entityFactory i data h0 index0).1
                !! r = Some o).
  { clear. induction data as [|d data IH]; intros i h0 index0 r o Hr;
      cbn [EntityManager.deserializeLoop]; [exact Hr|].
    destruct (entityFactory i d) as [o'|]; [|apply IH; exact Hr].
    pose proof (alloc_fresh h0 (EntityManager.deserializeEntity o' d)) as Hf.
    destruct (Heap.alloc h0 _) as [h1 r1]. destruct Hf as (Hn & _ & Ho).
    apply IH. rewrite Ho; [exact Hr|]. intros ->. congruence. }
  specialize (Hkeep 0%nat h (EntityManager.clear index)).
  destruct (EntityManager.deserializeLoop _ _ _ _ _) as [h' index'].
  destruct H as [Hwf Hcons]. auto.
Qed.

Lemma update_removes_marked_witness :
  let h : Heap.t :=
    {[ 1%positive := Heap.Plain (Entity.new "a" 0 0 "item");
       2%positive := Heap.Plain (Entity.remove (Entity.new "b" 1 0 "item")) ]} in
  let index := EntityManager.add h (EntityManager.add h EntityManager.new 1) 2 in
  let index' :=
    (EntityManager.update (Sample.env 0) (fun _ _ h => h) h index 16).2 in
  EntityManager.get index' "a" = Some 1%positive /\
  EntityManager.get index' "b" = None.
Proof.
  intros h index index'.
  assert (Hwf : index_wf index) by (apply add_wf, add_wf, index_wf_new).
  assert (Hreg : index_registered h index).
  { repeat constructor; eexists; split; reflexivity. }
  assert (Hno : no_active_agent h index).
  { repeat constructor; intros n Hn; vm_compute in Hn; discriminate. }
  pose proof (update_removes_marked (Sample.env 0) (fun _ _ h => h) h index 16
                Hwf Hreg Hno) as H.
  subst index'.
  destruct (EntityManager.update _ _ h index 16) as [h' index'].
  destruct H as [_ H]. split.
  - exact (H "a"%string 1%positive (Entity.new "a" 0 0 "item") eq_refl eq_refl).
  - exact (H "b"%string 2%positive (Entity.remove (Entity.new "b" 1 0 "item"))
             eq_refl eq_refl).
Defined.

(** ** The interaction history, the activity log and the speed button *)



(** X23: If the log holds at most maxEntries entries, then after log(message,
    type) it still holds at most maxEntries; the new entry carries the
    message, the type and Date.now(), it is the last entry when maxEntries >
    0 (with maxEntries = 0 the log stays empty), it is appended without loss
    when there was room, and every listener is called once with it, in
    registration order. *)
Theorem log_bounded (env : Env.t) (self : ActivityLogger.t)
    (message type : string) :
  (length (ActivityLogger.entries self) <= ActivityLogger.maxEntries self)%nat ->
  let self' := ActivityLogger.log env self message type in
  (length (ActivityLogger.entries self') <= ActivityLogger.maxEntries self')%nat /\
  ActivityLogger.maxEntries self' = ActivityLogger.maxEntries self /\
  ActivityLogger.listeners self' = ActivityLogger.listeners self /\
  (exists entry,
     LogEntry.message entry = message /\ LogEntry.type entry = type /\
     LogEntry.timestamp entry = Env.now env /\
     (if (0 <? ActivityLogger.maxEntries self)%nat
      then last (ActivityLogger.entries self') = Some entry
      else ActivityLogger.entries self' = []) /\
     ((length (ActivityLogger.entries self) < ActivityLogger.maxEntries self)%nat ->
      ActivityLogger.entries self' = ActivityLogger.entries self ++ [entry]) /\
     ActivityLogger.calls self'
     = ActivityLogger.calls self
       ++ map (fun listener => (listener, Some entry))
              (ActivityLogger.listeners self)).
Proof.
  intros Hlen self'. subst self'. unfold ActivityLogger.log.
  cbn [ActivityLogger.entries ActivityLogger.maxEntries ActivityLogger.listeners
       ActivityLogger.calls].
  set (entry := LogEntry.mk _ _ message type).
  split.
  - destruct (ActivityLogger.maxEntries self <?
              length (ActivityLogger.entries self ++ [entry]))%nat eqn:T.
    + clear T. destruct (ActivityLogger.entries self) as [|x l];
        simpl in *; rewrite ?length_app; simpl; lia.
    + apply Nat.ltb_ge in T. exact T.
  - split; [reflexivity|]. split; [reflexivity|].
    exists entry. split; [reflexivity|]. split; [reflexivity|].
    split; [reflexivity|]. split; [|split; [|reflexivity]].
    + destruct (ActivityLogger.maxEntries self <?
                length (ActivityLogger.entries self ++ [entry]))%nat eqn:T.
      * apply Nat.ltb_lt in T. rewrite length_app in T. simpl in T.
        destruct (ActivityLogger.entries self) as [|x l] eqn:E.
        -- simpl in *. assert (ActivityLogger.maxEntries self = 0%nat) as -> by lia.
           reflexivity.
        -- simpl in *.
           destruct (0 <? ActivityLogger.maxEntries self)%nat eqn:P.
           ++ apply last_snoc.
           ++ apply Nat.ltb_ge in P. lia.
      * apply Nat.ltb_ge in T. rewrite length_app in T. simpl in T.
        destruct (0 <? ActivityLogger.maxEntries self)%nat eqn:P.
        -- apply last_snoc.
        -- apply Nat.ltb_ge in P. lia.
    + intros Hlt.
      destruct (ActivityLogger.maxEntries self <?
                length (ActivityLogger.entries self ++ [entry]))%nat eqn:T;
        [|reflexivity].
      apply Nat.ltb_lt in T. rewrite length_app in T. simpl in T. lia.
Qed.

Lemma log_bounded_witness :
  length (ActivityLogger.entries
            (ActivityLogger.log (Sample.env 0)
               (ActivityLogger.log (Sample.env 0) (ActivityLogger.new 1)
                  "a" "info") "b" "info")) = 1%nat.
Proof.
  assert (H0 : (length (ActivityLogger.entries (ActivityLogger.new 1))
                <= ActivityLogger.maxEntries (ActivityLogger.new 1))%nat)
    by (simpl; lia).
  pose proof (log_bounded (Sample.env 0) (ActivityLogger.new 1) "a" "info" H0)
    as (H1 & _).
  pose proof (log_bounded (Sample.env 0) _ "b" "info" H1) as (H2 & _).
  reflexivity.
Defined.

(** X24: getRecent(count) returns a suffix of the log: the last min(count,
    length) entries for count > 0, the entries after the first -count for
    count <= 0; in particular getRecent(0) returns the whole log, not an
    empty list. *)
Theorem getRecent_spec (self : ActivityLogger.t) (count : Z) :
  let entries := ActivityLogger.entries self in
  let recent := ActivityLogger.getRecent self count in
  recent `suffix_of` entries /\
  length recent
  = (if (0 <? count)%Z then Nat.min (Z.to_nat count) (length entries)
     else length entries - Z.to_nat (- count))%nat /\
  (count = 0%Z -> recent = entries).
Proof.
  intros entries recent. subst recent. unfold ActivityLogger.getRecent.
  fold entries. split; [apply suffix_drop|]. split.
  - rewrite length_drop. destruct (0 <? count)%Z eqn:P.
    + apply Z.ltb_lt in P. lia.
    + apply Z.ltb_ge in P. lia.
  - intros ->. change (0 <? 0)%Z with false. change (- 0)%Z with 0%Z.
    cbv iota. rewrite Z.min_l by lia. reflexivity.
Qed.

(** X25: cycleTimeSpeed sets the time scale to the speed that follows the first
    listed speed (1, 2, 5, 10, 30, 60) that is at least the current scale: 2
    for a scale up to 1, 5 up to 2, 10 up to 5, 30 up to 10, 60 up to 30,
    and 1 above 30; so an unlisted scale such as 3 goes to 10, skipping 5.
    The current time and the pause flag are not touched. *)
Theorem cycleTimeSpeed_table (timeSystem : TimeSystem.t) :
  let s := TimeSystem.timeScale timeSystem in
  let timeSystem' := MapRenderer.cycleTimeSpeed timeSystem in
  TimeSystem.timeScale timeSystem'
  = (if Qleb s 1 then 2 else if Qleb s 2 then 5 else if Qleb s 5 then 10
     else if Qleb s 10 then 30 else if Qleb s 30 then 60 else 1) /\
  TimeSystem.currentTime timeSystem' = TimeSystem.currentTime timeSystem /\
  TimeSystem.isPaused timeSystem' = TimeSystem.isPaused timeSystem.
Proof.
  intros s timeSystem'. subst timeSystem'. unfold MapRenderer.cycleTimeSpeed.
  unfold TimeSystem.getTimeScale. fold s.
  cbn [list_find].
  destruct (Qleb s 1); [vm_compute; repeat split|].
  destruct (Qleb s 2); [vm_compute; repeat split|].
  destruct (Qleb s 5); [vm_compute; repeat split|].
  destruct (Qleb s 10); [vm_compute; repeat split|].
  destruct (Qleb s 30); [vm_compute; repeat split|].
  destruct (Qleb s 60); vm_compute; repeat split.
Qed.

(** ** The agent's decisions *)

Lemma item_lookup (h : Heap.t) (r : positive) (f : FunctionalItem.t) :
  h !! r = Some (Heap.Functional f) -> Heap.item h r = Some f.
Proof. unfold Heap.item. intros ->. reflexivity. Qed.

Lemma findItemLoop_spec env h this needType (items : list positive) :
  forall seen bestItem bestDistance,
    nearest_of env h this needType seen bestItem ->
    match bestItem, bestDistance with
    | Some r, Some d => d = item_distance env h this r
    | None, None => True
    | _, _ => False
    end ->
    match AgentAI.findItemLoop env h this needType items bestItem bestDistance with
    | Some result =>
        Forall (fun r => is_Some (Heap.item h r)) items /\
        nearest_of env h this needType (seen ++ items) result
    | None => Exists (fun r => Heap.item h r = None) items
    end.
Proof.
  induction items as [|r items IH]; intros seen bestItem bestDistance Hn Hd.
  - simpl. split; [constructor|]. rewrite app_nil_r. exact Hn.
  - cbn [AgentAI.findItemLoop].
    destruct (h !! r) as [[n|f|e]|] eqn:Hr;
      try (apply Exists_cons_hd; unfold Heap.item; rewrite Hr; reflexivity).
    pose proof (item_lookup _ _ _ Hr) as Hitem.
    assert (Hstep : forall bestItem' bestDistance',
              nearest_of env h this needType (seen ++ [r]) bestItem' ->
              match bestItem', bestDistance' with
              | Some r, Some d => d = item_distance env h this r
              | None, None => True
              | _, _ => False
              end ->
              match AgentAI.findItemLoop env h this needType items
                      bestItem' bestDistance' with
              | Some result =>
                  Forall (fun r => is_Some (Heap.item h r)) (r :: items) /\
                  nearest_of env h this needType (seen ++ r :: items) result
              | None => Exists (fun r => Heap.item h r = None) (r :: items)
              end).
    { intros b' d' Hn' Hd'. specialize (IH (seen ++ [r]) b' d' Hn' Hd').
      destruct (AgentAI.findItemLoop _ _ _ _ _ _ _) as [res|].
      - destruct IH as [Hall Hres]. split.
        + constructor; [rewrite Hitem; eexists; reflexivity | exact Hall].
        + rewrite <- app_assoc in Hres. exact Hres.
      - apply Exists_cons_tl. exact IH. }
    assert (Hskip : qualifies h needType r = false \/
                    (exists b, bestItem = Some b /\
                       item_distance env h this b <= item_distance env h this r) ->
                    nearest_of env h this needType (seen ++ [r]) bestItem).
    { intros Hcase. destruct bestItem as [b|]; simpl in *.
      - destruct Hn as (Hin & Hq & Hmin). split; [apply elem_of_app; left; exact Hin|]. split; [exact Hq|].
        intros r' Hr' Hq'. apply elem_of_app in Hr'. destruct Hr' as [Hr'|Hr'].
        + apply Hmin; assumption.
        + apply list_elem_of_singleton in Hr'. subst r'.
          destruct Hcase as [Hf|(b' & Hb & Hle)]; [congruence|].
          injection Hb as <-. exact Hle.
      - apply Forall_app. split; [exact Hn|].
        destruct Hcase as [Hf|(b' & Hb & _)]; [|discriminate].
        constructor; [exact Hf|constructor]. }
    destruct (FunctionalItem.canSatisfy f needType
              && FunctionalItem.isAvailable f) eqn:Hq.
    + assert (Hqr : qualifies h needType r = true).
      { unfold qualifies. rewrite Hitem. exact Hq. }
      assert (Hdr : AgentAI.getDistance env this (FunctionalItem.ent f)
                    = item_distance env h this r).
      { unfold item_distance. rewrite Hitem. reflexivity. }
      destruct bestDistance as [best|].
      * destruct bestItem as [b|]; [|contradiction]. subst best.
        destruct (Qltb _ _) eqn:Hlt.
        -- apply Hstep; [|exact Hdr]. simpl.
           apply Qltb_lt in Hlt. rewrite Hdr in Hlt.
           destruct Hn as (Hin & Hqb & Hmin).
           split; [apply elem_of_app; right; apply list_elem_of_singleton;
                   reflexivity|].
           split; [exact Hqr|].
           intros r' Hr' Hq'. apply elem_of_app in Hr'. destruct Hr' as [Hr'|Hr'].
           ++ apply Qle_trans with (item_distance env h this b);
                [apply Qlt_le_weak; exact Hlt | apply Hmin; assumption].
           ++ apply list_elem_of_singleton in Hr'. subst r'. apply Qle_refl.
        -- apply Hstep; [|reflexivity]. apply Hskip. right. exists b.
           split; [reflexivity|]. apply Qltb_ge in Hlt. rewrite Hdr in Hlt.
           exact Hlt.
      * destruct bestItem as [b|]; [contradiction|].
        apply Hstep; [|exact Hdr]. simpl in *.
        split; [apply elem_of_app; right; apply list_elem_of_singleton;
                reflexivity|].
        split; [exact Hqr|].
        intros r' Hr' Hq'. apply elem_of_app in Hr'. destruct Hr' as [Hr'|Hr'].
        -- rewrite Forall_forall in Hn. specialize (Hn r' Hr'). congruence.
        -- apply list_elem_of_singleton in Hr'. subst r'. apply Qle_refl.
    + apply Hstep; [|exact Hd]. apply Hskip. left.
      unfold qualifies. rewrite Hitem. exact Hq.
Qed.

(** X26: With a map renderer installed, findItemForNeed either fails with a
    TypeError, which happens exactly when some entity indexed under
    'functional' is not a FunctionalItem, or returns: null when no indexed
    item both can satisfy the need and is available, and otherwise one such
    item whose distance to the agent is at most that of every other such
    item. *)
Theorem findItemForNeed_nearest (env : Env.t) (mapRenderer : MapRenderer.t)
    (h : Heap.t) (self : positive) (this : Entity.t) (needType : string) :
  Heap.entity h self = Some this ->
  let items :=
    EntityManager.getByType (MapRenderer.entityManager mapRenderer)
      "functional" in
  match AgentAI.findItemForNeed env (Some mapRenderer) h self needType with
  | Some result =>
      Forall (fun r => is_Some (Heap.item h r)) items /\
      nearest_of env h this needType items result
  | None => Exists (fun r => Heap.item h r = None) items
  end.
Proof.
  intros Hself items. unfold AgentAI.findItemForNeed. rewrite Hself.
  fold items.
  exact (findItemLoop_spec env h this needType items [] None None
           (Forall_nil_2 _) I).
Qed.

Lemma canMoveTo_true (mapRenderer : MapRenderer.t) (h : Heap.t) (x y : Z) :
  AgentAI.canMoveTo (Some mapRenderer) h x y = true <->
  (0 <= x < MapRenderer.mapWidth mapRenderer)%Z /\
  (0 <= y < MapRenderer.mapHeight mapRenderer)%Z /\
  Forall (fun r => AgentAI.blocking h r = false)
         (EntityManager.getAtPosition (MapRenderer.entityManager mapRenderer) x y).
Proof.
  unfold AgentAI.canMoveTo.
  destruct (x <? 0)%Z eqn:E1; [apply Z.ltb_lt in E1; simpl; split;
    [discriminate | lia]|].
  destruct (MapRenderer.mapWidth mapRenderer <=? x)%Z eqn:E2;
    [apply Z.leb_le in E2; simpl; split; [discriminate | lia]|].
  destruct (y <? 0)%Z eqn:E3; [apply Z.ltb_lt in E3; simpl; split;
    [discriminate | lia]|].
  destruct (MapRenderer.mapHeight mapRenderer <=? y)%Z eqn:E4;
    [apply Z.leb_le in E4; simpl; split; [discriminate | lia]|].
  apply Z.ltb_ge in E1, E3. apply Z.leb_gt in E2, E4. cbn [orb].
  set (l := EntityManager.getAtPosition _ x y).
  assert (Hl : List.filter (AgentAI.blocking h) l = [] <->
               Forall (fun r => AgentAI.blocking h r = false) l).
  { induction l as [|r l IH]; simpl.
    - split; [constructor | reflexivity].
    - destruct (AgentAI.blocking h r) eqn:B.
      + split; [intros H; discriminate H|]. intros H. inversion H. congruence.
      + rewrite IH. split.
        * intros H. constructor; [exact B | exact H].
        * intros H. inversion H. assumption. }
  destruct (List.filter (AgentAI.blocking h) l) as [|b bs] eqn:F.
  - simpl. split; [intros _|reflexivity].
    split; [lia|]. split; [lia|]. apply Hl. reflexivity.
  - simpl. split; [discriminate|]. intros (_ & _ & H).
    apply Hl in H. discriminate.
Qed.

Lemma moveTo_fields (env : Env.t) (n : NPC.t) (x y : Z) :
  NPC.isMoving n = false ->
  let n' := NPC.moveTo env n x y in
  NPC.isMoving n' = true /\ NPC.ent n' = NPC.ent n /\
  NPC.targetTileX n' = x /\ NPC.targetTileY n' = y /\
  NPC.targetPixelX n' = inject_Z (x * 32) /\
  NPC.targetPixelY n' = inject_Z (y * 32) /\
  NPC.usingItem n' = NPC.usingItem n /\
  NPC.targetItem n' = NPC.targetItem n /\
  NPC.currentGoal n' = NPC.currentGoal n /\
  NPC.needs n' = NPC.needs n /\
  NPC.relationships n' = NPC.relationships n.
Proof.
  intros Hm n'. subst n'. unfold NPC.moveTo. rewrite Hm.
  destruct (_ <? y)%Z; [repeat split|].
  destruct (x <? _)%Z; [repeat split|].
  destruct (_ <? x)%Z; [repeat split|].
  destruct (y <? _)%Z; repeat split.
Qed.

(** X27: For an agent that is not moving, whatever order the random sort leaves
    the four directions in, wander either changes nothing, and then
    canMoveTo refuses the tile in every tried direction, or only replaces
    the agent by one that is moving to a tile exactly one step away along
    one axis, inside the map and holding no functional item in use, with the
    target pixel at tile * 32 and the same position, goal and target item. *)
Theorem wander_adjacent (env : Env.t) (mapRenderer : MapRenderer.t)
    (shuffled : list (Z * Z)) (h : Heap.t) (self : positive) (n : NPC.t) :
  Heap.npc h self = Some n ->
  NPC.isMoving n = false ->
  Forall (fun dir => dir ∈ AgentAI.directions) shuffled ->
  let x := Entity.tileX (NPC.ent n) in
  let y := Entity.tileY (NPC.ent n) in
  let h' := AgentAI.wander env (Some mapRenderer) shuffled h self in
  (h' = h /\
  Forall (fun dir =>
             AgentAI.canMoveTo (Some mapRenderer) h (x + dir.1) (y + dir.2)
             = false) shuffled) \/
  (exists n',
     h' = <[self := Heap.Npc n']> h /\
     NPC.isMoving n' = true /\ NPC.ent n' = NPC.ent n /\
     (Z.abs (NPC.targetTileX n' - x) + Z.abs (NPC.targetTileY n' - y) = 1)%Z /\
     (0 <= NPC.targetTileX n' < MapRenderer.mapWidth mapRenderer)%Z /\
     (0 <= NPC.targetTileY n' < MapRenderer.mapHeight mapRenderer)%Z /\
     NPC.targetPixelX n' = inject_Z (NPC.targetTileX n' * 32) /\
     NPC.targetPixelY n' = inject_Z (NPC.targetTileY n' * 32) /\
     Forall (fun r => AgentAI.blocking h r = false)
       (EntityManager.getAtPosition (MapRenderer.entityManager mapRenderer)
          (NPC.targetTileX n') (NPC.targetTileY n')) /\
     NPC.currentGoal n' = NPC.currentGoal n /\
     NPC.targetItem n' = NPC.targetItem n).
Proof.
  intros Hself Hm Hdirs x y h'. subst h'. unfold AgentAI.wander.
  rewrite Hself. fold x y.
  destruct (List.find _ shuffled) as [dir|] eqn:F.
  - right. apply find_some in F. destruct F as [Hin Hcan].
    apply canMoveTo_true in Hcan. destruct Hcan as (Hx & Hy & Hfree).
    destruct (moveTo_fields env n (x + dir.1) (y + dir.2) Hm)
      as (H1 & H2 & H3 & H4 & H5 & H6 & _ & H8 & H9 & _).
    exists (NPC.moveTo env n (x + dir.1) (y + dir.2)).
    rewrite H3, H4. split; [reflexivity|]. split; [exact H1|].
    split; [exact H2|]. split.
    + rewrite Forall_forall in Hdirs.
      specialize (Hdirs dir (proj2 (list_elem_of_In _ _) Hin)).
      unfold AgentAI.directions in Hdirs.
      repeat (apply elem_of_cons in Hdirs; destruct Hdirs as [->|Hdirs];
              [simpl; lia|]).
      inversion Hdirs.
    + repeat (split; [assumption|]). assumption.
  - left. split; [reflexivity|]. apply List.Forall_forall. intros dir Hin.
    exact (find_none _ _ F dir Hin).
Qed.

Lemma npc_lookup (h : Heap.t) (r : positive) (n : NPC.t) :
  Heap.npc h r = Some n <-> h !! r = Some (Heap.Npc n).
Proof.
  unfold Heap.npc. destruct (h !! r) as [[n'|f|e]|]; split; intros H;
    try discriminate; congruence.
Qed.

Lemma item_lookup_iff (h : Heap.t) (r : positive) (f : FunctionalItem.t) :
  Heap.item h r = Some f <-> h !! r = Some (Heap.Functional f).
Proof.
  unfold Heap.item. destruct (h !! r) as [[n'|f'|e]|]; split; intros H;
    try discriminate; congruence.
Qed.

Lemma npc_insert_npc (h : Heap.t) (r r' : positive) (n : NPC.t) :
  Heap.npc (<[r := Heap.Npc n]> h) r'
  = if decide (r' = r) then Some n else Heap.npc h r'.
Proof.
  unfold Heap.npc. destruct (decide (r' = r)) as [->|Hne].
  - rewrite lookup_insert_eq. reflexivity.
  - rewrite lookup_insert_ne by congruence. reflexivity.
Qed.

Lemma same_state_refl (n : NPC.t) : same_state n n.
Proof. repeat split. Qed.

Lemma same_state_trans (a b c : NPC.t) :
  same_state a b -> same_state b c -> same_state a c.
Proof.
  intros (A1 & A2 & A3 & A4 & A5) (B1 & B2 & B3 & B4 & B5).
  repeat split; congruence.
Qed.

Lemma frame_refl (self : positive) (h : Heap.t) : decision_frame self h h.
Proof.
  split; [reflexivity|]. intros r n H. exists n.
  split; [exact H|]. split; [reflexivity|]. split; [reflexivity|].
  intros _. apply same_state_refl.
Qed.


Lemma frame_insert (self : positive) (h : Heap.t) (r : positive)
    (n n' : NPC.t) :
  Heap.npc h r = Some n ->
  NPC.ent n' = NPC.ent n -> NPC.usingItem n' = NPC.usingItem n ->
  (r <> self -> same_state n n') ->
  decision_frame self h (<[r := Heap.Npc n']> h).
Proof.
  intros Hr He Hu Hs. split.
  - intros r0 H0. apply lookup_insert_ne. intros <-. congruence.
  - intros r0 n0 H0. rewrite npc_insert_npc.
    destruct (decide (r0 = r)) as [->|Hne].
    + exists n'. assert (n0 = n) as -> by congruence. auto.
    + exists n0. split; [exact H0|]. split; [reflexivity|].
      split; [reflexivity|]. intros _. apply same_state_refl.
Qed.






Lemma moveTo_keeps (env : Env.t) (n : NPC.t) (x y : Z) :
  NPC.ent (NPC.moveTo env n x y) = NPC.ent n /\
  NPC.usingItem (NPC.moveTo env n x y) = NPC.usingItem n /\
  NPC.targetItem (NPC.moveTo env n x y) = NPC.targetItem n /\
  NPC.currentGoal (NPC.moveTo env n x y) = NPC.currentGoal n.
Proof.
  unfold NPC.moveTo. destruct (NPC.isMoving n); [repeat split|].
  destruct (_ <? y)%Z; [repeat split|].
  destruct (x <? _)%Z; [repeat split|].
  destruct (_ <? x)%Z; [repeat split|].
  destruct (y <? _)%Z; repeat split.
Qed.

Lemma frame_move (env : Env.t) (h : Heap.t) (self : positive) (n n0 : NPC.t)
    (x y : Z) :
  Heap.npc h self = Some n ->
  NPC.ent n0 = NPC.ent n -> NPC.usingItem n0 = NPC.usingItem n ->
  decision_frame self h (<[self := Heap.Npc (NPC.moveTo env n0 x y)]> h).
Proof.
  intros Hself He Hu. destruct (moveTo_keeps env n0 x y) as (M1 & M2 & _).
  apply (frame_insert self h self n); [exact Hself|congruence|congruence|].
  intros Hne. contradiction.
Qed.


Lemma frame_wander env renderer shuffled h self :
  decision_frame self h (AgentAI.wander env renderer shuffled h self).
Proof.
  unfold AgentAI.wander.
  destruct (Heap.npc h self) as [n|] eqn:Hself; [|apply frame_refl].
  destruct (List.find _ _) as [dir|]; [|apply frame_refl].
  apply (frame_move env h self n); [exact Hself|reflexivity|reflexivity].
Qed.





(** ** One user per item *)

Lemma item_insert_npc (h : Heap.t) (r t : positive) (n n' : NPC.t) :
  Heap.npc h r = Some n ->
  Heap.item (<[r := Heap.Npc n']> h) t = Heap.item h t.
Proof.
  intros Hr. apply npc_lookup in Hr. unfold Heap.item.
  destruct (decide (t = r)) as [->|Hne].
  - rewrite lookup_insert_eq, Hr. reflexivity.
  - rewrite lookup_insert_ne by congruence. reflexivity.
Qed.

Lemma npc_insert_item (h : Heap.t) (t r : positive) (f f' : FunctionalItem.t) :
  Heap.item h t = Some f ->
  Heap.npc (<[t := Heap.Functional f']> h) r = Heap.npc h r.
Proof.
  intros Ht. apply item_lookup_iff in Ht. unfold Heap.npc.
  destruct (decide (r = t)) as [->|Hne].
  - rewrite lookup_insert_eq, Ht. reflexivity.
  - rewrite lookup_insert_ne by congruence. reflexivity.
Qed.

Lemma item_insert_item (h : Heap.t) (t t' : positive) (f' : FunctionalItem.t) :
  Heap.item (<[t := Heap.Functional f']> h) t'
  = if decide (t' = t) then Some f' else Heap.item h t'.
Proof.
  unfold Heap.item. destruct (decide (t' = t)) as [->|Hne].
  - rewrite lookup_insert_eq. reflexivity.
  - rewrite lookup_insert_ne by congruence. reflexivity.
Qed.

Lemma holds_item_same (h : Heap.t) (n n' : NPC.t) :
  Entity.id (NPC.ent n') = Entity.id (NPC.ent n) ->
  NPC.usingItem n' = NPC.usingItem n ->
  NPC.targetItem n' = NPC.targetItem n ->
  holds_item h n -> holds_item h n'.
Proof.
  intros Hid Hu Ht H Hn'. rewrite Hu in Hn'.
  destruct (H Hn') as (t & f & H1 & H2 & H3 & H4).
  exists t, f. rewrite Ht, Hid. auto.
Qed.

Lemma holds_item_items (h h' : Heap.t) (n : NPC.t) :
  (forall t f, Heap.item h t = Some f -> FunctionalItem.inUse f = true ->
               Heap.item h' t = Some f) ->
  holds_item h n -> holds_item h' n.
Proof.
  intros Hitems H Hn. destruct (H Hn) as (t & f & H1 & H2 & H3 & H4).
  exists t, f. split; [exact H1|]. split; [exact (Hitems t f H2 H3)|]. auto.
Qed.

Lemma exclusive_replace_agent (h : Heap.t) (r : positive) (n n' : NPC.t) :
  exclusive_use h -> Heap.npc h r = Some n ->
  Entity.id (NPC.ent n') = Entity.id (NPC.ent n) ->
  holds_item h n' ->
  exclusive_use (<[r := Heap.Npc n']> h).
Proof.
  intros [Hhold Hids] Hr Hid Hn'.
  assert (Hitems : forall t f, Heap.item h t = Some f ->
                     FunctionalItem.inUse f = true ->
                     Heap.item (<[r := Heap.Npc n']> h) t = Some f).
  { intros t f Ht _. rewrite (item_insert_npc h r t n n' Hr). exact Ht. }
  split.
  - intros r0 n0. rewrite npc_insert_npc.
    destruct (decide (r0 = r)) as [->|Hne].
    + intros [= <-]. exact (holds_item_items _ _ _ Hitems Hn').
    + intros H0. exact (holds_item_items _ _ _ Hitems (Hhold r0 n0 H0)).
  - intros r1 r2 n1 n2. rewrite !npc_insert_npc.
    destruct (decide (r1 = r)) as [->|H1]; destruct (decide (r2 = r)) as [->|H2].
    + reflexivity.
    + intros [= <-] Hn2 E. apply (Hids r r2 n n2 Hr Hn2). congruence.
    + intros Hn1 [= <-] E. apply (Hids r1 r n1 n Hn1 Hr). congruence.
    + apply Hids.
Qed.

Lemma exclusive_replace_item (h : Heap.t) (t : positive)
    (f f' : FunctionalItem.t) :
  exclusive_use h -> Heap.item h t = Some f ->
  FunctionalItem.inUse f' = FunctionalItem.inUse f ->
  FunctionalItem.usedBy f' = FunctionalItem.usedBy f ->
  exclusive_use (<[t := Heap.Functional f']> h).
Proof.
  intros [Hhold Hids] Ht Hin Hby. split.
  - intros r n. rewrite (npc_insert_item h t r f f' Ht). intros Hr Hn.
    destruct (Hhold r n Hr Hn) as (t0 & f0 & H1 & H2 & H3 & H4).
    destruct (decide (t0 = t)) as [->|Hne].
    + exists t, f'. rewrite item_insert_item, decide_True by reflexivity.
      assert (f0 = f) as -> by congruence.
      split; [exact H1|]. split; [reflexivity|]. split; congruence.
    + exists t0, f0. rewrite item_insert_item, decide_False by exact Hne. auto.
  - intros r1 r2 n1 n2.
    rewrite !(fun r => npc_insert_item h t r f f' Ht). apply Hids.
Qed.

Lemma exclusive_same_user (h : Heap.t) (r1 r2 : positive) (n1 n2 : NPC.t)
    (t : positive) :
  exclusive_use h ->
  Heap.npc h r1 = Some n1 -> Heap.npc h r2 = Some n2 ->
  NPC.usingItem n1 = true -> NPC.usingItem n2 = true ->
  NPC.targetItem n1 = Some t -> NPC.targetItem n2 = Some t ->
  r1 = r2.
Proof.
  intros [Hhold Hids] H1 H2 U1 U2 T1 T2.
  destruct (Hhold r1 n1 H1 U1) as (t1 & f1 & A1 & A2 & A3 & A4).
  destruct (Hhold r2 n2 H2 U2) as (t2 & f2 & B1 & B2 & B3 & B4).
  apply (Hids r1 r2 n1 n2 H1 H2). congruence.
Qed.

Lemma exclusive_free_item (h : Heap.t) (t : positive)
    (f f' : FunctionalItem.t) :
  exclusive_use h -> Heap.item h t = Some f ->
  (forall r n, Heap.npc h r = Some n -> NPC.usingItem n = true ->
               NPC.targetItem n <> Some t) ->
  exclusive_use (<[t := Heap.Functional f']> h).
Proof.
  intros [Hhold Hids] Ht Hfree. split.
  - intros r n. rewrite (npc_insert_item h t r f f' Ht). intros Hr Hn.
    destruct (Hhold r n Hr Hn) as (t0 & f0 & H1 & H2 & H3 & H4).
    assert (Hne : t0 <> t).
    { intros ->. exact (Hfree r n Hr Hn H1). }
    exists t0, f0. rewrite item_insert_item, decide_False by exact Hne. auto.
  - intros r1 r2 n1 n2.
    rewrite !(fun r => npc_insert_item h t r f f' Ht). apply Hids.
Qed.

Lemma completeItemUse_fields (item : option FunctionalItem.t) (n : NPC.t) :
  NPC.usingItem (NPC.completeItemUse item n) = false /\
  NPC.ent (NPC.completeItemUse item n) = NPC.ent n.
Proof.
  unfold NPC.completeItemUse.
  destruct item; [|split; reflexivity].
  destruct (NPC.currentGoal n); [|split; reflexivity].
  destruct (NPC.needs n); [|split; reflexivity].
  destruct (NPC.needsSystem n); split; reflexivity.
Qed.

Lemma itemUseBlock_exclusive (env : Env.t) (h : Heap.t) (self : positive) :
  exclusive_use h -> exclusive_use (Agent.itemUseBlock env h self).
Proof.
  intros Hex. unfold Agent.itemUseBlock.
  destruct (Heap.npc h self) as [n|] eqn:Hself; [|exact Hex].
  destruct (NPC.usingItem n) eqn:U; [|exact Hex].
  destruct (NPC.targetItem n) as [target|] eqn:T; [|exact Hex].
  destruct (Heap.item h target) as [f|] eqn:Hf; [|exact Hex].
  destruct (proj1 Hex self n Hself U) as (t0 & f0 & A1 & A2 & A3 & A4).
  assert (t0 = target) as -> by congruence.
  assert (f0 = f) as -> by congruence.
  unfold FunctionalItem.updateUse. rewrite A3. cbn [negb].
  destruct (Qleb _ _).
  - unfold Agent.completeItemUse.
    rewrite (npc_insert_item h target self f _ Hf), Hself.
    assert (Hne : self <> target).
    { intros ->. unfold Heap.npc, Heap.item in *.
      destruct (h !! target) as [[?|?|?]|]; discriminate. }
    rewrite insert_insert_ne by exact Hne.
    set (n' := NPC.completeItemUse _ n).
    destruct (completeItemUse_fields
                (NPC.targetItem n ≫= Heap.item
                   (<[target := Heap.Functional
                        (FunctionalItem.completeUse
                           (FunctionalItem.set_useTime
                              (FunctionalItem.useTime f
                               + inject_Z (Env.now env - NPC.useStartTime n)
                                 / 1000) f))]> h)) n) as [Hu He].
    fold n' in Hu, He.
    assert (Hex1 : exclusive_use (<[self := Heap.Npc n']> h)).
    { apply (exclusive_replace_agent h self n n' Hex Hself).
      - rewrite He. reflexivity.
      - intros Hn'. congruence. }
    apply (exclusive_free_item _ target f); [exact Hex1| |].
    + rewrite (item_insert_npc h self target n n' Hself). exact Hf.
    + intros r0 n0. rewrite npc_insert_npc.
      destruct (decide (r0 = self)) as [->|Hr0].
      * intros [= <-] Hn'. congruence.
      * intros H0 U0 T0. apply Hr0.
        exact (exclusive_same_user h r0 self n0 n target Hex H0 Hself U0 U
                 T0 T).
  - apply (exclusive_replace_item h target f); [exact Hex|exact Hf| |];
      reflexivity.
Qed.

Lemma startUsingItem_exclusive (env : Env.t) (h : Heap.t)
    (self item : positive) (n : NPC.t) :
  exclusive_use h -> Heap.npc h self = Some n ->
  NPC.usingItem n = false -> NPC.targetItem n = Some item ->
  exclusive_use (Agent.startUsingItem env h self item).
Proof.
  intros Hex Hself U T. unfold Agent.startUsingItem. rewrite Hself.
  destruct (Heap.item h item) as [f|] eqn:Hf; [|exact Hex].
  unfold FunctionalItem.startUse.
  destruct (FunctionalItem.inUse f) eqn:Hin; [exact Hex|].
  set (f' := FunctionalItem.set_useTime 0 _).
  assert (Hex1 : exclusive_use (<[item := Heap.Functional f']> h)).
  { apply (exclusive_free_item h item f f' Hex Hf).
    intros r0 n0 H0 U0 T0.
    destruct (proj1 Hex r0 n0 H0 U0) as (t1 & f1 & B1 & B2 & B3 & B4).
    assert (t1 = item) as -> by congruence. congruence. }
  apply (exclusive_replace_agent _ self n).
  - exact Hex1.
  - rewrite (npc_insert_item h item self f f' Hf). exact Hself.
  - reflexivity.
  - intros _. exists item, f'.
    split; [exact T|]. split.
    + rewrite item_insert_item, decide_True by reflexivity. reflexivity.
    + split; reflexivity.
Qed.

Lemma moveStep_fields (env : Env.t) (n : NPC.t) :
  Entity.id (NPC.ent (NPC.moveStep env n).1) = Entity.id (NPC.ent n) /\
  NPC.usingItem (NPC.moveStep env n).1 = NPC.usingItem n /\
  NPC.targetItem (NPC.moveStep env n).1 = NPC.targetItem n.
Proof.
  unfold NPC.moveStep. destruct (Qltb _ _); repeat split.
Qed.

Lemma movementBlock_exclusive (env : Env.t) (h : Heap.t) (self : positive) :
  exclusive_use h -> exclusive_use (Agent.movementBlock env h self).
Proof.
  intros Hex. unfold Agent.movementBlock.
  destruct (Heap.npc h self) as [n|] eqn:Hself; [|exact Hex].
  destruct (NPC.isMoving n); [|exact Hex].
  destruct (NPC.usingItem n) eqn:U; [exact Hex|]. cbn [negb andb].
  destruct (moveStep_fields env n) as (Hid & Hu & Ht).
  destruct (NPC.moveStep env n) as [n1 arrived]. cbn [fst] in *.
  assert (Hex1 : exclusive_use (<[self := Heap.Npc n1]> h)).
  { apply (exclusive_replace_agent h self n n1 Hex Hself Hid).
    intros Hn1. congruence. }
  destruct arrived; [|exact Hex1].
  destruct (NPC.targetItem n1) as [target|] eqn:T1; [|exact Hex1].
  destruct (Heap.entity _ target) as [e|]; [|exact Hex1].
  destruct (Entity.isAtPosition _ _ _); [|exact Hex1].
  apply (startUsingItem_exclusive env _ self target n1 Hex1).
  - rewrite npc_insert_npc, decide_True by reflexivity. reflexivity.
  - congruence.
  - exact T1.
Qed.

Lemma frame_exclusive (self : positive) (h h' : Heap.t) :
  exclusive_use h -> decision_frame self h h' ->
  (forall n, Heap.npc h self = Some n -> NPC.usingItem n = false) ->
  exclusive_use h'.
Proof.
  intros [Hhold Hids] [Hother Hagents] Hidle.
  assert (Hback : forall r n', Heap.npc h' r = Some n' ->
            exists n, Heap.npc h r = Some n /\ NPC.ent n' = NPC.ent n /\
                      NPC.usingItem n' = NPC.usingItem n /\
                      (r <> self -> same_state n n')).
  { intros r n' Hr'. destruct (Heap.npc h r) as [n|] eqn:Hr.
    - destruct (Hagents r n Hr) as (n2 & H2 & E2 & U2 & S2).
      exists n. assert (n2 = n') as -> by congruence. auto.
    - unfold Heap.npc in Hr'. rewrite (Hother r Hr) in Hr'.
      unfold Heap.npc in Hr. congruence. }
  assert (Hitems : forall t f, Heap.item h t = Some f ->
                               Heap.item h' t = Some f).
  { intros t f Ht. unfold Heap.item. rewrite Hother; [exact Ht|].
    unfold Heap.npc, Heap.item in *.
    destruct (h !! t) as [[?|?|?]|]; congruence. }
  split.
  - intros r n' Hr' Hu'.
    destruct (Hback r n' Hr') as (n & Hr & He & Hu & Hs).
    destruct (decide (r = self)) as [->|Hne].
    + rewrite Hu, (Hidle n Hr) in Hu'. discriminate.
    + destruct (Hs Hne) as (_ & _ & S3 & _).
      rewrite Hu in Hu'.
      destruct (Hhold r n Hr Hu') as (t & f & H1 & H2 & H3 & H4).
      exists t, f. rewrite S3, He. split; [exact H1|].
      split; [exact (Hitems t f H2)|]. auto.
  - intros r1 r2 n1 n2 H1 H2 E.
    destruct (Hback r1 n1 H1) as (m1 & G1 & E1 & _).
    destruct (Hback r2 n2 H2) as (m2 & G2 & E2 & _).
    apply (Hids r1 r2 m1 m2 G1 G2). congruence.
Qed.

Lemma aiBlock_exclusive (env : Env.t) (ai : positive -> Heap.t -> Heap.t)
    (h : Heap.t) (self : positive) :
  (forall h0, decision_frame self h0 (ai self h0)) ->
  exclusive_use h -> exclusive_use (Agent.aiBlock env ai h self).
Proof.
  intros Hai Hex. unfold Agent.aiBlock.
  destruct (Heap.npc h self) as [n|] eqn:Hself; [|exact Hex].
  destruct (_ && _) eqn:G; [|exact Hex].
  apply andb_true_iff in G. destruct G as [_ G].
  apply negb_true_iff in G.
  assert (Hex1 : exclusive_use (ai self h)).
  { apply (frame_exclusive self h _ Hex (Hai h)).
    intros n0 H0. congruence. }
  destruct (Heap.npc (ai self h) self) as [n1|] eqn:H1; [|exact Hex1].
  apply (exclusive_replace_agent _ self n1 _ Hex1 H1); [reflexivity|].
  apply (holds_item_same _ n1); try reflexivity.
  exact (proj1 Hex1 self n1 H1).
Qed.

Lemma updateNeedsBlock_same (env : Env.t) (deltaTime : Q) (n : NPC.t) :
  same_state n (NPC.updateNeedsBlock env deltaTime n).
Proof.
  unfold NPC.updateNeedsBlock. destruct (_ <? _)%Z; [|apply same_state_refl].
  destruct (NPC.needs n); [|repeat split].
  destruct (NPC.needsSystem n); [|repeat split].
  destruct (Env.timeSystem env); repeat split.
Qed.

Lemma initializeNeeds_same (sys : option NeedsSystem.t) (n : NPC.t) :
  same_state n (NPC.initializeNeeds sys n).
Proof. unfold NPC.initializeNeeds. destruct sys; repeat split. Qed.

Lemma animationBlock_same (env : Env.t) (n : NPC.t) :
  same_state n (NPC.animationBlock env n).
Proof.
  unfold NPC.animationBlock.
  destruct (_ && _); [destruct (_ <? _)%Z; repeat split|].
  destruct (negb _); repeat split.
Qed.

Lemma exclusive_same_state (h : Heap.t) (r : positive) (n n' : NPC.t) :
  exclusive_use h -> Heap.npc h r = Some n -> same_state n n' ->
  exclusive_use (<[r := Heap.Npc n']> h).
Proof.
  intros Hex Hr (S1 & S2 & S3 & _).
  apply (exclusive_replace_agent h r n n' Hex Hr); [congruence|].
  apply (holds_item_same h n); [congruence|exact S2|exact S3|].
  exact (proj1 Hex r n Hr).
Qed.

Lemma update_exclusive (env : Env.t) (ai : positive -> Heap.t -> Heap.t)
    (h : Heap.t) (self : positive) (deltaTime : Q) :
  (forall h0, decision_frame self h0 (ai self h0)) ->
  exclusive_use h -> exclusive_use (Agent.update env ai h self deltaTime).
Proof.
  intros Hai Hex. unfold Agent.update.
  destruct (Heap.npc h self) as [n|] eqn:Hself; [|exact Hex].
  destruct (negb _); [exact Hex|].
  apply aiBlock_exclusive; [exact Hai|].
  set (n1 := NPC.updateNeedsBlock env deltaTime _).
  assert (S1 : same_state n n1).
  { subst n1. eapply same_state_trans; [|apply updateNeedsBlock_same].
    destruct (NPC.needs n); [destruct (NPC.needsSystem n)|];
      first [apply same_state_refl | apply initializeNeeds_same]. }
  pose proof (exclusive_same_state h self n n1 Hex Hself S1) as Hex1.
  pose proof (movementBlock_exclusive env _ self
                (itemUseBlock_exclusive env _ self Hex1)) as Hex2.
  set (h2 := Agent.movementBlock env _ self) in *.
  destruct (Heap.npc h2 self) as [n2|] eqn:H2; [|exact Hex2].
  exact (exclusive_same_state _ self n2 _ Hex2 H2 (animationBlock_same env n2)).
Qed.

Lemma updateLoop_exclusive (env : Env.t)
    (ai : EntityManager.t -> positive -> Heap.t -> Heap.t) (deltaTime : Q)
    (rs : list positive) :
  (forall index self h0, decision_frame self h0 (ai index self h0)) ->
  forall h index toRemove,
    exclusive_use h ->
    exclusive_use
      (EntityManager.updateLoop env ai deltaTime rs h index toRemove).1.1.
Proof.
  intros Hai. induction rs as [|r rs IH]; intros h index toRemove Hex.
  - exact Hex.
  - cbn [EntityManager.updateLoop].
    destruct (Heap.entity h r) as [e|]; [|apply IH; exact Hex].
    destruct (Entity.markedForRemoval e); [apply IH; exact Hex|].
    destruct (Entity.active e); [|apply IH; exact Hex].
    apply IH. unfold EntityManager.entityUpdate.
    destruct (h !! r) as [[n|f|e0]|]; try exact Hex.
    apply update_exclusive; [apply Hai | exact Hex].
Qed.

(** X29: If agents carry distinct ids and every agent with usingItem set targets
    an item that is in use with usedBy equal to the agent's id, then the
    same holds after EntityManager.update, for any decision procedure that
    leaves items, entity fields, usingItem flags and the other agents' goals
    alone; in particular two agents that use the same item are the same
    agent. *)
Theorem update_one_user_per_item (env : Env.t)
    (ai : EntityManager.t -> positive -> Heap.t -> Heap.t)
    (h : Heap.t) (index : EntityManager.t) (deltaTime : Q) :
  exclusive_use h ->
  (forall index self h0, decision_frame self h0 (ai index self h0)) ->
  let h' := (EntityManager.update env ai h index deltaTime).1 in
  exclusive_use h' /\
  forall r1 r2 n1 n2 t,
    Heap.npc h' r1 = Some n1 -> Heap.npc h' r2 = Some n2 ->
    NPC.usingItem n1 = true -> NPC.usingItem n2 = true ->
    NPC.targetItem n1 = Some t -> NPC.targetItem n2 = Some t ->
    r1 = r2.
Proof.
  intros Hex Hai h'.
  assert (Hex' : exclusive_use h').
  { subst h'. unfold EntityManager.update.
    pose proof (updateLoop_exclusive env ai deltaTime
                  (EntityManager.getAll index) Hai h index [] Hex) as H.
    destruct (EntityManager.updateLoop _ _ _ _ _ _ _) as [[h1 index1] rm].
    exact H. }
  split; [exact Hex'|].
  intros r1 r2 n1 n2 t. apply exclusive_same_user. exact Hex'.
Qed.

Lemma findItemForNeed_nearest_witness :
  nearest_of (Sample.env 0) Town.heap (NPC.ent (Sample.agent 0 0)) "hunger"
    [2%positive; 3%positive] (Some 3%positive).
Proof.
  assert (E : AgentAI.findItemForNeed (Sample.env 0) (Some Town.renderer)
                Town.heap 1 "hunger" = Some (Some 3%positive))
    by (vm_compute; reflexivity).
  pose proof (findItemForNeed_nearest (Sample.env 0) Town.renderer Town.heap 1
                (NPC.ent (Sample.agent 0 0)) "hunger" eq_refl) as H.
  cbv zeta in H. rewrite E in H. exact (proj2 H).
Defined.

Lemma wander_adjacent_witness :
  exists n',
    AgentAI.wander (Sample.env 0) (Some Town.renderer) AgentAI.directions
      Town.heap 1
    = <[1%positive := Heap.Npc n']> Town.heap /\
    NPC.isMoving n' = true.
Proof.
  assert (Hdirs : Forall (fun dir => dir ∈ AgentAI.directions)
                         AgentAI.directions).
  { apply Forall_forall. intros dir H. exact H. }
  destruct (wander_adjacent (Sample.env 0) Town.renderer AgentAI.directions
              Town.heap 1 (Sample.agent 0 0) eq_refl eq_refl Hdirs)
    as [[_ Hall] | (n' & Hh & Hm & _)].
  - inversion Hall as [|dir l Hd _]. vm_compute in Hd. discriminate Hd.
  - exists n'. split; [exact Hh | exact Hm].
Defined.


(** The cases of a lookup of an agent in [Rush.heap]. *)
Ltac heap_cases H :=
  apply npc_lookup in H; unfold Rush.heap in H;
  repeat (apply lookup_insert_Some in H;
          destruct H as [[<- H] | [_ H]];
          [try discriminate H; try (injection H as <-) | ]);
  try (apply lookup_singleton_Some in H; destruct H as [<- H];
       try discriminate H; try (injection H as <-)).

Lemma update_one_user_per_item_witness :
  let h' :=
    (EntityManager.update (Sample.env 6000) Rush.ai Rush.heap Rush.index 16).1 in
  exclusive_use h' /\
  (NPC.usingItem <$> Heap.npc Rush.heap 1) = Some true /\
  (NPC.usingItem <$> Heap.npc h' 1) = Some false /\
  (FunctionalItem.usedBy <$> Heap.item h' 2) = Some None /\
  (NPC.usingItem <$> Heap.npc h' 4) = Some true /\
  (FunctionalItem.usedBy <$> Heap.item h' 3) = Some (Some "entity_4"%string) /\
  (NPC.usingItem <$> Heap.npc h' 5) = Some false /\
  (Entity.tileX <$> Heap.entity h' 5) = Some 1%Z.
Proof.
  intros h'.
  assert (Hex : exclusive_use Rush.heap).
  { split.
    - intros r n Hr Hu. heap_cases Hr; try discriminate Hu.
      eexists 2%positive, _. repeat split.
    - intros r1 r2 n1 n2 H1 H2 E. heap_cases H1; heap_cases H2;
        try reflexivity; vm_compute in E; discriminate E. }
  assert (Hai : forall index self h0,
            decision_frame self h0 (Rush.ai index self h0)).
  { intros index self h0. apply frame_wander. }
  split; [exact (proj1 (update_one_user_per_item (Sample.env 6000) Rush.ai
                          Rush.heap Rush.index 16 Hex Hai))|].
  subst h'. vm_compute. repeat split.
Defined.


(** ** Movement *)

Lemma Qfloor_tile (x : Z) : Qfloor (inject_Z (x * 32) / 32) = x.
Proof.
  assert (E : inject_Z (x * 32) / 32 == inject_Z x).
  { rewrite inject_Z_mult. field. }
  rewrite E. apply Qfloor_Z.
Qed.

(** X30: For an agent whose target pixel is its target tile (x, y) times 32,
    as moveTo sets it, one movement step of update arrives exactly when
    the distance Math.sqrt returns is below moveSpeed, and then it snaps
    the agent onto the target: the agent stands on tile (x, y) at pixel
    (32 x, 32 y) and is no longer moving, whatever its pixel position was;
    otherwise the agent keeps its tile, its target and its isMoving
    flag. *)
Theorem moveStep_progress (env : Env.t) (n : NPC.t) (x y : Z) :
  NPC.targetPixelX n = inject_Z (x * 32) ->
  NPC.targetPixelY n = inject_Z (y * 32) ->
  let dx := NPC.targetPixelX n - Entity.pixelX (NPC.ent n) in
  let dy := NPC.targetPixelY n - Entity.pixelY (NPC.ent n) in
  let distance := Env.Math_sqrt env (dx * dx + dy * dy) in
  let n' := (NPC.moveStep env n).1 in
  if (NPC.moveStep env n).2 then
    distance < NPC.moveSpeed n /\
    Entity.tileX (NPC.ent n') = x /\ Entity.tileY (NPC.ent n') = y /\
    Entity.pixelX (NPC.ent n') = inject_Z (x * 32) /\
    Entity.pixelY (NPC.ent n') = inject_Z (y * 32) /\
    NPC.isMoving n' = false
  else
    NPC.moveSpeed n <= distance /\
    Entity.tileX (NPC.ent n') = Entity.tileX (NPC.ent n) /\
    Entity.tileY (NPC.ent n') = Entity.tileY (NPC.ent n) /\
    NPC.targetPixelX n' = NPC.targetPixelX n /\
    NPC.targetPixelY n' = NPC.targetPixelY n /\
    NPC.isMoving n' = NPC.isMoving n.
Proof.
  intros Hx Hy dx dy distance n'.
  subst n'. unfold NPC.moveStep. fold dx dy distance.
  destruct (Qltb distance (NPC.moveSpeed n)) eqn:E.
  - apply Qltb_lt in E. cbn [fst snd].
    split; [exact E|].
    cbn [NPC.ent NPC.set_ent NPC.set_isMoving NPC.set_animationFrame
         NPC.isMoving Entity.tileX Entity.tileY Entity.pixelX Entity.pixelY
         Entity.set_tileX Entity.set_tileY Entity.set_pixelX Entity.set_pixelY].
    rewrite Hx, Hy, !Qfloor_tile. repeat split.
  - apply Qltb_ge in E. cbn [fst snd].
    split; [exact E|]. repeat split.
Qed.

Lemma moveStep_progress_witness :
  let n := NPC.moveTo (Sample.env 0) (Sample.agent 0 0) 1 0 in
  let snapped :=
    NPC.moveStep (Sample.env 0)
      (NPC.set_ent (Entity.set_pixelX (157#5) (NPC.ent n)) n) in
  Entity.tileX (NPC.ent (NPC.moveStep (Sample.env 0) n).1) = 0%Z /\
  NPC.isMoving (NPC.moveStep (Sample.env 0) n).1 = true /\
  Entity.tileX (NPC.ent snapped.1) = 1%Z /\
  NPC.isMoving snapped.1 = false.
Proof.
  intros n snapped.
  pose proof (moveStep_progress (Sample.env 0) n 1 0 eq_refl eq_refl) as H.
  cbv zeta in H.
  assert (E : (NPC.moveStep (Sample.env 0) n).2 = false)
    by (vm_compute; reflexivity).
  rewrite E in H. destruct H as (_ & Hx & _ & _ & _ & Hm).
  pose proof (moveStep_progress (Sample.env 0)
                (NPC.set_ent (Entity.set_pixelX (157#5) (NPC.ent n)) n) 1 0
                eq_refl eq_refl) as H'.
  cbv zeta in H'. fold snapped in H'.
  assert (E' : snapped.2 = true) by (vm_compute; reflexivity).
  rewrite E' in H'. destruct H' as (_ & Hx' & _ & _ & _ & Hm').
  split; [exact Hx|]. split; [exact Hm|]. split; [exact Hx' | exact Hm'].
Defined.
